(** * basketballref: table normalisation of scraped statistics pages

    A shallow embedding of the parsers of the repository
    ([basketballref/player.py], [basketballref/schedule.py],
    [basketballref/roster.py], [box_score.py]) together with the small part
    of Python and pandas they run on.

    - [Py]      : exceptions, [str.find], slicing, [int()], insertion-ordered
                  dictionaries.
    - [Pandas]  : cells, columns and data frames, with the operations the
                  parsers call (construction from records, [rename], [drop],
                  [concat], [reindex], [to_numeric], [to_datetime],
                  [groupby.sum], [drop_duplicates], [dropna]).
    - [Dom]     : a page as seen through the PyQuery selections the code makes.
    - [Player], [Schedule], [BoxScore], [Roster] : the functions of the four
                  modules.

    Text is modelled as strings of 8-bit characters. *)

From Stdlib Require Import ZArith List String Ascii Bool Lia.
From Stdlib Require Import SpecFloat DecimalString Permutation.
Import ListNotations.

Local Open Scope string_scope.
Local Open Scope Z_scope.
Local Open Scope list_scope.

(* ================================================================== *)
(** ** Python primitives *)

Module Py.

(** The exceptions the modelled code can raise. *)
Inductive exn : Set :=
| HTTPError | URLError
| IndexError | KeyError | ValueError | TypeError | AttributeError
| OverflowError | InvalidIndexError.

(** A computation either returns a value or raises. *)
Inductive result (A : Type) : Type :=
| Ok (a : A)
| Raise (e : exn).
Arguments Ok {A} a.
Arguments Raise {A} e.

Definition bind {A B} (c : result A) (k : A -> result B) : result B :=
  match c with
  | Ok a => k a
  | Raise e => Raise e
  end.

Definition is_ok {A} (c : result A) : bool :=
  match c with Ok _ => true | Raise _ => false end.

(** [[f(x) for x in xs]] where [f] may raise: stops at the first exception. *)
Fixpoint mapM {A B} (f : A -> result B) (xs : list A) : result (list B) :=
  match xs with
  | [] => Ok []
  | x :: xs' =>
      bind (f x) (fun y => bind (mapM f xs') (fun ys => Ok (y :: ys)))
  end.

(** Keys of dictionaries and labels of frames come with a boolean equality
    (Python's [==] on hashable keys). *)
Class EqKey (K : Type) := key_eqb : K -> K -> bool.

#[export] Instance EqKey_string : EqKey string := String.eqb.

#[export] Instance EqKey_option {K} `{EqKey K} : EqKey (option K) :=
  fun a b =>
    match a, b with
    | Some x, Some y => key_eqb x y
    | None, None => true
    | _, _ => false
    end.

(** [k in ks] *)
Definition key_in {K} `{EqKey K} (k : K) (ks : list K) : bool :=
  existsb (key_eqb k) ks.

(** *** Dictionaries

    A [dict] keeps its keys in insertion order; assigning to an existing key
    replaces the value and leaves the key where it is. *)
Definition dict (K V : Type) := list (K * V).

Section Dict.
Context {K V : Type} `{EqKey K}.

Fixpoint dict_get (d : dict K V) (k : K) : option V :=
  match d with
  | [] => None
  | (k', v) :: d' => if key_eqb k k' then Some v else dict_get d' k
  end.

(** [d[k] = v] *)
Fixpoint dict_set (d : dict K V) (k : K) (v : V) : dict K V :=
  match d with
  | [] => [(k, v)]
  | (k', v') :: d' =>
      if key_eqb k k' then (k', v) :: d' else (k', v') :: dict_set d' k v
  end.

(** [d.get(k, default)] *)
Definition dict_get_default (d : dict K V) (k : K) (default : V) : V :=
  match dict_get d k with Some v => v | None => default end.

Definition dict_keys (d : dict K V) : list K := map fst d.

(** [{k: v for (k, v) in kvs}]: the pairs are assigned from left to right. *)
Definition dict_of_items (kvs : list (K * V)) : dict K V :=
  fold_left (fun d kv => dict_set d (fst kv) (snd kv)) kvs [].

(** The value of the last pair of [kvs] under key [k]: what the dictionary
    built from [kvs] holds for [k]. *)
Fixpoint last_value (k : K) (kvs : list (K * V)) : option V :=
  match kvs with
  | [] => None
  | (k', v) :: kvs' =>
      match last_value k kvs' with
      | Some x => Some x
      | None => if key_eqb k k' then Some v else None
      end
  end.
End Dict.

(** *** Strings *)

(** [s.find(sub)]: the lowest index where [sub] occurs, or [-1]. *)
Definition find (s sub : string) : Z :=
  match String.index 0 sub s with
  | Some n => Z.of_nat n
  | None => -1
  end.

(** A slice bound is clamped to [0 .. len]; a negative bound counts from the
    end. *)
Definition slice_bound (len i : Z) : Z :=
  if i <? 0 then Z.max 0 (i + len) else Z.min i len.

(** [s[start:stop]]; [None] stands for an omitted bound. *)
Definition slice (s : string) (start stop : option Z) : string :=
  let len := Z.of_nat (String.length s) in
  let a := match start with Some i => slice_bound len i | None => 0 end in
  let b := match stop with Some j => slice_bound len j | None => len end in
  String.substring (Z.to_nat a) (Z.to_nat (b - a)) s.

Definition ascii_between (lo hi : nat) (c : ascii) : bool :=
  let n := nat_of_ascii c in (Nat.leb lo n && Nat.leb n hi)%bool.

Definition is_digit (c : ascii) : bool := ascii_between 48 57 c.

Definition digit_value (c : ascii) : Z := Z.of_nat (nat_of_ascii c) - 48.

(** White space as [str.strip] and [int()] see it. *)
Definition is_space (c : ascii) : bool :=
  (ascii_between 9 13 c || ascii_between 28 32 c)%bool.

Fixpoint lstrip (s : string) : string :=
  match s with
  | String c s' => if is_space c then lstrip s' else s
  | EmptyString => EmptyString
  end.

(** Drops trailing white space. *)
Fixpoint rstrip (s : string) : string :=
  match s with
  | EmptyString => EmptyString
  | String c s' =>
      match rstrip s' with
      | EmptyString => if is_space c then EmptyString else String c EmptyString
      | r => String c r
      end
  end.

Definition strip (s : string) : string := rstrip (lstrip s).

(** The digits of an integer literal, read from the left with the value so
    far in [acc]. A single underscore may stand between two digits. *)
Fixpoint int_digits (s : string) (acc : Z) : option Z :=
  match s with
  | EmptyString => Some acc
  | String c s' =>
      if is_digit c then int_digits s' (10 * acc + digit_value c)
      else if Ascii.eqb c "_" then
        match s' with
        | String d _ => if is_digit d then int_digits s' acc else None
        | EmptyString => None
        end
      else None
  end.

Definition int_unsigned (s : string) : option Z :=
  match s with
  | String c _ => if is_digit c then int_digits s 0 else None
  | EmptyString => None
  end.

(** [int(s)] for a string [s], base ten: surrounding white space, an optional
    sign, then digits. [ValueError] for anything else. *)
Definition int_of_str (s : string) : result Z :=
  let body := strip s in
  let parsed :=
    match body with
    | String "-" rest => option_map Z.opp (int_unsigned rest)
    | String "+" rest => int_unsigned rest
    | _ => int_unsigned body
    end in
  match parsed with
  | Some z => Ok z
  | None => Raise ValueError
  end.

(** [str.lower] on ASCII letters. *)
Definition lower_char (c : ascii) : ascii :=
  if ascii_between 65 90 c then ascii_of_nat (nat_of_ascii c + 32) else c.

Fixpoint lower (s : string) : string :=
  match s with
  | EmptyString => EmptyString
  | String c s' => String (lower_char c) (lower s')
  end.

(** ["{:d}".format(z)] *)
Definition str_of_int (z : Z) : string := NilZero.string_of_int (Z.to_int z).

(** [xs[i]] for a non-negative constant [i]. *)
Definition list_get {A} (xs : list A) (i : nat) : result A :=
  match nth_error xs i with
  | Some x => Ok x
  | None => Raise IndexError
  end.

(** [s.rfind(sub)]: the highest index where [sub] occurs, or [-1]; [i] is the
    index of the first character of [s]. *)
Fixpoint rfind_from (i : Z) (s sub : string) : Z :=
  match s with
  | EmptyString => if String.prefix sub EmptyString then i else -1
  | String _ s' =>
      let r := rfind_from (i + 1) s' sub in
      if 0 <=? r then r else if String.prefix sub s then i else -1
  end.

Definition rfind (s sub : string) : Z := rfind_from 0 s sub.



(** [n * s] for an integer [n]: [s] repeated, empty for [n <= 0]. *)
Definition str_mul (n : Z) (s : string) : string :=
  String.concat EmptyString (repeat s (Z.to_nat n)).

End Py.

Export Py.

Declare Scope py_scope.
Delimit Scope py_scope with py.
Notation "x <- c ;; k" := (bind c (fun x => k))
  (at level 61, c at next level, right associativity) : py_scope.
Notation "' pat <- c ;; k" := (bind c (fun x => match x with pat => k end))
  (at level 61, pat pattern, c at next level, right associativity) : py_scope.
Local Open Scope py_scope.

(* ================================================================== *)
(** ** The part of pandas the parsers use *)

Module Pandas.

(** A timestamp at day resolution. *)
Record date := mkdate { year : Z; month : Z; day : Z }.

(** The content of one cell. [np.nan] is the float [S754_nan]. *)
Inductive value : Type :=
| VStr (s : string)
| VNone
| VBool (b : bool)
| VInt (z : Z)
| VFloat (f : spec_float)
| VDate (d : date)
| VNaT.

Definition nan : value := VFloat S754_nan.

(** [pd.isnull] on one cell. *)
Definition isnull (v : value) : bool :=
  match v with
  | VNone | VNaT | VFloat S754_nan => true
  | _ => false
  end.

Definition date_eqb (a b : date) : bool :=
  ((year a =? year b) && (month a =? month b) && (day a =? day b))%bool.

Definition float_eqb (a b : spec_float) : bool :=
  match a, b with
  | S754_zero s, S754_zero s' => Bool.eqb s s'
  | S754_infinity s, S754_infinity s' => Bool.eqb s s'
  | S754_nan, S754_nan => true
  | S754_finite s m e, S754_finite s' m' e' =>
      (Bool.eqb s s' && Pos.eqb m m' && (e =? e'))%bool
  | _, _ => false
  end.

(** Equality of index entries; missing values are equal to themselves, as in
    [Index.equals]. *)
Definition value_eqb (a b : value) : bool :=
  match a, b with
  | VStr s, VStr s' => String.eqb s s'
  | VNone, VNone => true
  | VBool x, VBool y => Bool.eqb x y
  | VInt x, VInt y => x =? y
  | VFloat x, VFloat y => float_eqb x y
  | VDate x, VDate y => date_eqb x y
  | VNaT, VNaT => true
  | _, _ => false
  end.

#[export] Instance EqKey_value : EqKey value := value_eqb.

(** A column label: the [data-stat] attribute of a cell, which may be absent
    ([None]), or a header text. *)
Definition label := option string.

Definition column := list value.

(** A frame is stored by columns; every column is as long as the index.
    Labels may repeat. *)
Record DataFrame := mkDF {
  index : list value;
  data : list (label * column)
}.

(** [df.columns] *)
Definition columns (df : DataFrame) : list label := map fst (data df).

(** [len(df)] *)
Definition nrows (df : DataFrame) : nat := List.length (index df).

(** [label in df.columns] *)
Definition has_column (l : label) (df : DataFrame) : bool :=
  key_in l (columns df).

(** [Index.is_unique] *)
Fixpoint is_unique {K} `{EqKey K} (ks : list K) : bool :=
  match ks with
  | [] => true
  | k :: ks' => (negb (key_in k ks') && is_unique ks')%bool
  end.

(** Every column carrying label [l], from left to right. *)
Definition columns_named (l : label) (df : DataFrame) : list column :=
  map snd (filter (fun lc => key_eqb l (fst lc)) (data df)).

(** Appends the keys of [ks] that are not yet in [acc]. *)
Definition union_keys {K} `{EqKey K} (acc ks : list K) : list K :=
  fold_left (fun acc k => if key_in k acc then acc else acc ++ [k]) ks acc.

(** All keys of a list of records, by first appearance. *)
Definition record_keys (rows : list (dict label value)) : list label :=
  fold_left (fun acc r => union_keys acc (dict_keys r)) rows [].

(** [RangeIndex(n)] *)
Definition range_index (n : nat) : list value :=
  map (fun i => VInt (Z.of_nat i)) (seq 0 n).

(** [pd.DataFrame(rows)] for a list of dictionaries: one row per dictionary,
    one column per key; a key a row lacks gives NaN. *)
Definition DataFrame_of_records (rows : list (dict label value)) : DataFrame :=
  {| index := range_index (List.length rows);
     data := map (fun k => (k, map (fun r => dict_get_default r k nan) rows))
                 (record_keys rows) |}.

(** [pd.DataFrame(rows).T] for a dictionary of dictionaries: one row per outer
    key, one column per inner key. *)
Definition DataFrame_of_dict_T (rows : dict string (dict label value))
  : DataFrame :=
  {| index := map (fun kv => VStr (fst kv)) rows;
     data := map (fun k => (k, map (fun kv => dict_get_default (snd kv) k nan)
                                   rows))
                 (record_keys (map snd rows)) |}.

(** [pd.DataFrame([], columns=cols)] *)
Definition DataFrame_empty (cols : list label) : DataFrame :=
  {| index := []; data := map (fun l => (l, [])) cols |}.

(** [df.rename(columns=m)]: a label that is a key of [m] is replaced. *)
Definition rename (m : dict label string) (df : DataFrame) : DataFrame :=
  {| index := index df;
     data := map (fun lc => (match dict_get m (fst lc) with
                             | Some t => Some t
                             | None => fst lc
                             end, snd lc)) (data df) |}.

(** [df.drop(columns=[l])]: removes every column labelled [l]; [KeyError] when
    there is none. *)
Definition drop (l : label) (df : DataFrame) : result DataFrame :=
  if has_column l df
  then Ok {| index := index df;
             data := filter (fun lc => negb (key_eqb l (fst lc))) (data df) |}
  else Raise KeyError.

Fixpoint mask_filter {A} (mask : list bool) (xs : list A) : list A :=
  match mask, xs with
  | b :: mask', x :: xs' =>
      if b then x :: mask_filter mask' xs' else mask_filter mask' xs'
  | _, _ => []
  end.

(** [df.loc[mask]] for a boolean mask on the rows of [df]. *)
Definition loc_mask (mask : list bool) (df : DataFrame) : DataFrame :=
  {| index := mask_filter mask (index df);
     data := map (fun lc => (fst lc, mask_filter mask (snd lc))) (data df) |}.

(** [df[l]] as a series: [KeyError] when no column is labelled [l]; with several
    such columns the selection is a frame, and the callers below all fail on
    one with [ValueError]. *)
Definition getitem (l : label) (df : DataFrame) : result column :=
  match columns_named l df with
  | [c] => Ok c
  | [] => Raise KeyError
  | _ => Raise ValueError
  end.

(** [df[ls]] for a list of labels: every column carrying each label, in the
    order of [ls]; [KeyError] when a label is missing. *)
Definition getitem_list (ls : list label) (df : DataFrame)
  : result DataFrame :=
  if forallb (fun l => has_column l df) ls
  then Ok {| index := index df;
             data := flat_map (fun l => map (fun c => (l, c))
                                            (columns_named l df)) ls |}
  else Raise KeyError.

(** [df.columns = names]: [ValueError] on a length mismatch. *)
Definition set_columns (names : list label) (df : DataFrame)
  : result DataFrame :=
  if (List.length names =? List.length (data df))%nat
  then Ok {| index := index df;
             data := combine names (map snd (data df)) |}
  else Raise ValueError.

(** [df[l] = vals] ([vals] as long as the frame): every column labelled [l]
    is replaced; without one, a new last column is added. *)
Definition setitem (l : label) (vals : column) (df : DataFrame) : DataFrame :=
  {| index := index df;
     data := if has_column l df
             then map (fun lc => if key_eqb l (fst lc) then (l, vals) else lc)
                      (data df)
             else data df ++ [(l, vals)] |}.

(** The column of frame [df] under label [l], NaN-filled when [df] has none. *)
Definition column_or_nan (l : label) (df : DataFrame) : column :=
  match columns_named l df with
  | c :: _ => c
  | [] => repeat nan (nrows df)
  end.

Definition list_eqb {K} `{EqKey K} (xs ys : list K) : bool :=
  ((List.length xs =? List.length ys)%nat
   && forallb (fun p => key_eqb (fst p) (snd p)) (combine xs ys))%bool.

(** Concatenates, position by position, the columns of frames that all have
    the column labels of the first one. *)
Fixpoint stack_columns (cols : list (label * column)) (rest : list DataFrame)
  : list (label * column) :=
  match rest with
  | [] => cols
  | df :: rest' =>
      stack_columns
        (map (fun p => (fst (fst p), snd (fst p) ++ snd (snd p)))
             (combine cols (data df)))
        rest'
  end.

(** [pd.concat(dfs, axis=0, sort=False, ignore_index=...)]: rows are stacked.
    - no frame at all: [ValueError] ("No objects to concatenate");
    - all frames carry the same labels in the same order: columns are stacked
      position by position;
    - otherwise the labels of the result are the union by first appearance,
      which needs unique labels in every frame ([InvalidIndexError] if not),
      and a frame lacking a label contributes NaN. *)
Definition concat_rows (dfs : list DataFrame) (ignore_index : bool)
  : result DataFrame :=
  match dfs with
  | [] => Raise ValueError
  | df0 :: rest =>
      let idx := flat_map index dfs in
      let idx := if ignore_index then range_index (List.length idx) else idx in
      if forallb (fun df => list_eqb (columns df) (columns df0)) rest
      then Ok {| index := idx; data := stack_columns (data df0) rest |}
      else if forallb (fun df => is_unique (columns df)) dfs
      then
        let labels := fold_left (fun acc df => union_keys acc (columns df))
                                dfs [] in
        Ok {| index := idx;
              data := map (fun l => (l, flat_map (column_or_nan l) dfs))
                          labels |}
      else Raise InvalidIndexError
  end.

(** Position of the first entry of [idx] equal to [k]. *)
Fixpoint index_of {K} `{EqKey K} (k : K) (idx : list K) : option nat :=
  match idx with
  | [] => None
  | k' :: idx' =>
      if key_eqb k k' then Some 0%nat else option_map S (index_of k idx')
  end.

(** *** Numeric coercion: [pd.to_numeric(x, errors="ignore")] *)

Definition int64_min : Z := - 2 ^ 63.
Definition int64_max : Z := 2 ^ 63 - 1.
Definition uint64_max : Z := 2 ^ 64 - 1.

(** Two's-complement wrap-around of 64-bit signed arithmetic. *)
Definition wrap64 (z : Z) : Z := (z + 2 ^ 63) mod 2 ^ 64 - 2 ^ 63.

(** Binary64 arithmetic: 53 bits of precision, exponents below 1024. *)
Definition prec : Z := 53.
Definition emax : Z := 1024.
Definition float_add : spec_float -> spec_float -> spec_float :=
  SFadd prec emax.
Definition float_mul : spec_float -> spec_float -> spec_float :=
  SFmul prec emax.
Definition float_div : spec_float -> spec_float -> spec_float :=
  SFdiv prec emax.

(** An integer as a binary64 float, rounded to nearest. *)
Definition Z2SF (z : Z) : spec_float := binary_normalize prec emax z 0 false.

Inductive numeral := NumInt (z : Z) | NumFloat (f : spec_float).

(** White space for the C number parser. *)
Definition is_space_c (c : ascii) : bool :=
  (ascii_between 9 13 c || Ascii.eqb c " ")%bool.

Fixpoint skip_space_c (s : string) : string :=
  match s with
  | String c s' => if is_space_c c then skip_space_c s' else s
  | EmptyString => EmptyString
  end.

(** Longest prefix of digits, and what follows it. *)
Fixpoint span_digits (s : string) : string * string :=
  match s with
  | String c s' =>
      if is_digit c
      then let (d, r) := span_digits s' in (String c d, r)
      else (EmptyString, s)
  | EmptyString => (EmptyString, EmptyString)
  end.

Fixpoint digits_value (s : string) (acc : Z) : Z :=
  match s with
  | String c s' => digits_value s' (10 * acc + digit_value c)
  | EmptyString => acc
  end.

Definition parse_sign (s : string) : bool * string :=
  match s with
  | String "-" r => (true, r)
  | String "+" r => (false, r)
  | _ => (false, s)
  end.

(** An exponent part [e<sign><digits>], if there is a complete one. *)
Definition parse_exponent (s : string) : option Z * string :=
  match s with
  | String c r =>
      if (Ascii.eqb c "e" || Ascii.eqb c "E")%bool then
        let (neg, r1) := parse_sign r in
        let (d, r2) := span_digits r1 in
        match d with
        | EmptyString => (None, s)
        | _ => (Some (if neg then - digits_value d 0 else digits_value d 0), r2)
        end
      else (None, s)
  | EmptyString => (None, s)
  end.

(** The float written [m * 10^e10]: one correctly rounded product or
    quotient of two binary64 numbers, exact for the short decimals of
    statistics tables. *)
Definition decimal_float (neg : bool) (m e10 : Z) : spec_float :=
  let x := if 0 <=? e10
           then float_mul (Z2SF m) (Z2SF (10 ^ e10))
           else float_div (Z2SF m) (Z2SF (10 ^ (- e10))) in
  if neg then SFopp x else x.

(** The spellings of infinity and NaN. *)
Definition special_float (s : string) : option spec_float :=
  let l := lower s in
  if key_in l ["inf"; "+inf"; "infinity"; "+infinity"]
  then Some (S754_infinity false)
  else if key_in l ["-inf"; "-infinity"] then Some (S754_infinity true)
  else if key_in l ["nan"; "+nan"; "-nan"] then Some S754_nan
  else None.

(** A string as a number: white space, sign, digits with an optional
    fraction and exponent, white space; an integer when it has neither
    fraction nor exponent. *)
Definition parse_number (s : string) : option numeral :=
  let (neg, body) := parse_sign (skip_space_c s) in
  let (ip, rest) := span_digits body in
  let '(dot, fp, rest) :=
    match rest with
    | String "." r => let (fp, r') := span_digits r in (true, fp, r')
    | _ => (false, EmptyString, rest)
    end in
  if (String.length ip + String.length fp =? 0)%nat
  then option_map NumFloat (special_float s)
  else
    let (ex, rest) := parse_exponent rest in
    match skip_space_c rest with
    | EmptyString =>
        match dot, ex with
        | false, None =>
            let v := digits_value ip 0 in
            Some (NumInt (if neg then - v else v))
        | _, _ =>
            let e := match ex with Some e => e | None => 0 end in
            Some (NumFloat (decimal_float neg
                              (digits_value (ip ++ fp)%string 0)
                              (e - Z.of_nat (String.length fp))))
        end
    | _ => option_map NumFloat (special_float s)
    end.

(** One cell as a number, or [None] when it is not numeric: an empty string
    and [None] are read as NaN, an integer must fit 64 bits. *)
Definition to_numeric_scalar (v : value) : option value :=
  match v with
  | VStr EmptyString => Some nan
  | VStr s =>
      match parse_number s with
      | Some (NumInt z) =>
          if ((int64_min <=? z) && (z <=? uint64_max))%bool
          then Some (VInt z) else None
      | Some (NumFloat f) => Some (VFloat f)
      | None => None
      end
  | VNone => Some nan
  | VBool b => Some (VBool b)
  | VInt z => Some (VInt z)
  | VFloat f => Some (VFloat f)
  | VDate _ | VNaT => None
  end.

Fixpoint mapO {A B} (f : A -> option B) (xs : list A) : option (list B) :=
  match xs with
  | [] => Some []
  | x :: xs' =>
      match f x, mapO f xs' with
      | Some y, Some ys => Some (y :: ys)
      | _, _ => None
      end
  end.

Definition is_float (v : value) : bool :=
  match v with VFloat _ => true | _ => false end.
Definition is_int (v : value) : bool :=
  match v with VInt _ => true | _ => false end.
Definition is_negative_int (v : value) : bool :=
  match v with VInt z => z <? 0 | _ => false end.
Definition is_big_uint (v : value) : bool :=
  match v with VInt z => int64_max <? z | _ => false end.

Definition as_float (v : value) : value :=
  match v with
  | VInt z => VFloat (Z2SF z)
  | VBool b => VFloat (Z2SF (if b then 1 else 0))
  | _ => v
  end.

Definition as_int (v : value) : value :=
  match v with
  | VBool b => VInt (if b then 1 else 0)
  | _ => v
  end.

(** The common type of a converted column: floats as soon as one cell is a
    float or missing, else integers, else booleans. [None] when an unsigned
    64-bit value meets a negative or a missing one. *)
Definition unify_numeric (c : column) : option column :=
  if (existsb is_big_uint c
      && (existsb is_negative_int c || existsb is_float c))%bool
  then None
  else if existsb is_float c then Some (map as_float c)
  else if existsb is_int c then Some (map as_int c)
  else Some c.

(** The whole column converted, or [None] if one cell is not numeric. *)
Definition convert_numeric (c : column) : option column :=
  match mapO to_numeric_scalar c with
  | Some c' => unify_numeric c'
  | None => None
  end.

(** [pd.to_numeric(c, errors="ignore")]: the converted column, or [c]
    itself when it does not convert. *)
Definition to_numeric_ignore (c : column) : column :=
  match convert_numeric c with
  | Some c' => c'
  | None => c
  end.

(** [df.apply(f)] for a function from columns to columns of the same
    length. *)
Definition apply (f : column -> column) (df : DataFrame) : DataFrame :=
  {| index := index df;
     data := map (fun lc => (fst lc, f (snd lc))) (data df) |}.

(** *** Dates: [pd.to_datetime] *)

Section Datetime.
(** The date-string parser pandas hands text to; [None] when it rejects
    the text. *)
Variable parse_date : string -> option date.

(** The spellings pandas reads as a missing time. *)
Definition nat_strings : list string :=
  ["NaT"; "nat"; "NAT"; "nan"; "NaN"; "NAN"].

(** [pd.to_datetime] on one cell, with the default [errors="raise"]: an
    empty or missing cell gives NaT, text goes through the parser and
    raises [ValueError] on rejection. The modelled code converts text only;
    a number (which pandas would read as an offset from the epoch) is not
    given a date here. *)
Definition to_datetime_scalar (v : value) : result value :=
  match v with
  | VStr s =>
      if (String.eqb s "" || key_in s nat_strings)%bool then Ok VNaT
      else match parse_date s with
           | Some d => Ok (VDate d)
           | None => Raise ValueError
           end
  | VNone | VNaT | VFloat S754_nan => Ok VNaT
  | VDate d => Ok (VDate d)
  | VBool _ | VInt _ | VFloat _ => Raise TypeError
  end.

(** [pd.to_datetime] on a column. *)
Definition to_datetime (c : column) : result column :=
  mapM to_datetime_scalar c.
End Datetime.

(** *** Sums by group: [df.groupby(g)[l].sum()] *)

Inductive dtype := Int64 | UInt64 | Float64 | BoolT | Object.

Definition is_bool (v : value) : bool :=
  match v with VBool _ => true | _ => false end.

(** The type pandas stores a column under, read off its cells. *)
Definition dtype_of (c : column) : dtype :=
  if forallb is_int c
  then (if existsb is_big_uint c then UInt64 else Int64)
  else if forallb is_float c then Float64
  else if forallb is_bool c then BoolT
  else Object.

(** Python's [+] on two cells of an object column. *)
Definition py_add (a b : value) : result value :=
  match a, b with
  | VStr x, VStr y => Ok (VStr (x ++ y)%string)
  | VInt x, VInt y => Ok (VInt (x + y))
  | VFloat x, VFloat y => Ok (VFloat (float_add x y))
  | VInt x, VFloat y => Ok (VFloat (float_add (Z2SF x) y))
  | VFloat x, VInt y => Ok (VFloat (float_add x (Z2SF y)))
  | _, _ => Raise TypeError
  end.

Definition int_of_cell (v : value) : Z :=
  match v with
  | VInt z => z
  | VBool true => 1
  | _ => 0
  end.

Fixpoint fold_add (acc : value) (c : column) : result value :=
  match c with
  | [] => Ok acc
  | v :: c' => bind (py_add acc v) (fun acc' => fold_add acc' c')
  end.

(** The sum of the cells of one group, missing cells skipped. Integer sums
    wrap around at 64 bits. *)
Definition sum_cells (t : dtype) (c : column) : result value :=
  match t with
  | Int64 | BoolT =>
      Ok (VInt (wrap64 (fold_left Z.add (map int_of_cell c) 0)))
  | UInt64 =>
      Ok (VInt (fold_left Z.add (map int_of_cell c) 0 mod 2 ^ 64))
  | Float64 =>
      Ok (VFloat (fold_left (fun acc v => match v with
                                          | VFloat S754_nan => acc
                                          | VFloat f => float_add acc f
                                          | _ => acc
                                          end) c (S754_zero false)))
  | Object =>
      match filter (fun v => negb (isnull v)) c with
      | [] => Ok (VInt 0)
      | v :: c' => fold_add v c'
      end
  end.

(** Order of group keys: code-point order on text. *)
Definition value_leb (a b : value) : bool :=
  match a, b with
  | VStr x, VStr y => String.leb x y
  | VInt x, VInt y => x <=? y
  | _, _ => true
  end.

Fixpoint insert_sorted (k : value) (ks : list value) : list value :=
  match ks with
  | [] => [k]
  | k' :: ks' =>
      if value_leb k k' then k :: ks else k' :: insert_sorted k ks'
  end.

(** The distinct non-missing keys of a grouping column, sorted. *)
Definition group_keys (grp : column) : list value :=
  fold_left (fun acc k => insert_sorted k acc)
            (union_keys [] (filter (fun v => negb (isnull v)) grp)) [].

(** The cells of [c] on the rows where the grouping column equals [k]. *)
Definition group_cells (grp c : column) (k : value) : column :=
  map snd (filter (fun p => value_eqb (fst p) k) (combine grp c)).

(** [df.groupby(g)[l].sum()]: one row per group key, in sorted order,
    holding the sum of each column labelled [l] over the group (a series
    when [l] names one column). [KeyError] when [g] or [l] names no column,
    [ValueError] when [g] names several. *)
Definition groupby_sum (g l : label) (df : DataFrame) : result DataFrame :=
  by_col <- getitem g df ;;
  match columns_named l df with
  | [] => Raise KeyError
  | cols =>
      let keys := group_keys by_col in
      sums <- mapM (fun c => mapM (fun k => sum_cells (dtype_of c)
                                                     (group_cells by_col c k))
                                  keys) cols ;;
      Ok {| index := keys; data := map (fun s => (l, s)) sums |}
  end.

(** *** Rows matched by label: [reindex] and [pd.concat] along the columns *)

(** A cell of a column of timestamps. *)
Definition is_timestamp (v : value) : bool :=
  match v with VDate _ | VNaT => true | _ => false end.

(** The cell that stands for a missing row in column [c]: NaT in a column of
    timestamps, NaN in any other. A column without cells is not taken for
    one of timestamps. *)
Definition missing_cell (c : column) : value :=
  match c with
  | [] => nan
  | _ :: _ => if forallb is_timestamp c then VNaT else nan
  end.

(** The cells of a column that has to hold a missing row: a column of
    integers is stored as floats; any other column keeps its cells
    (booleans and text as objects, floats and timestamps as they are). *)
Definition promote (c : column) : column :=
  match dtype_of c with
  | Int64 | UInt64 => map as_float c
  | _ => c
  end.

(** [Index.get_indexer]: for each label of [idx], its position among the
    labels [src], if it has one. *)
Definition get_indexer (idx src : list value) : list (option nat) :=
  map (fun k => index_of k src) idx.

(** The cells of [c] at the positions of [indexer]; [fill] where there is
    none. *)
Definition take (c : column) (fill : value) (indexer : list (option nat))
  : column :=
  map (fun o => match o with Some i => nth i c nan | None => fill end)
      indexer.

(** [df.reindex(idx)] for a frame with unique row labels: the row of each
    label of [idx], a missing row where [df] has none. When a row is
    missing, every column of [df] is stored so that it can hold one. *)
Definition reindex (idx : list value) (df : DataFrame) : DataFrame :=
  let indexer := get_indexer idx (index df) in
  let needs_filling :=
    existsb (fun o => match o with None => true | Some _ => false end)
            indexer in
  {| index := idx;
     data := map (fun lc =>
                    (fst lc,
                     take (if needs_filling then promote (snd lc)
                           else snd lc)
                          (missing_cell (snd lc)) indexer))
                 (data df) |}.

(** [pd.concat([a, b], axis=1, sort=False)]: columns are put side by side,
    rows are matched by label.
    - equal indexes: the columns of [b] follow those of [a];
    - otherwise both indexes must be unique ([InvalidIndexError] if not); the
      result has the union of the row labels, those of [a] first, and each
      frame is reindexed on them, a missing row where it lacks one. *)
Definition concat_columns (a b : DataFrame) : result DataFrame :=
  if list_eqb (index a) (index b)
  then Ok {| index := index a; data := data a ++ data b |}
  else if (is_unique (index a) && is_unique (index b))%bool
  then
    let idx := union_keys (index a) (index b) in
    Ok {| index := idx; data := data (reindex idx a) ++ data (reindex idx b) |}
  else Raise InvalidIndexError.

(** *** Rows: [set_index], [drop_duplicates], [dropna] *)

(** [df.set_index(l)]: the column labelled [l] becomes the index and is no
    longer a column. [KeyError] without such a column; several of them do not
    make a one-dimensional index ([ValueError]). *)
Definition set_index (l : label) (df : DataFrame) : result DataFrame :=
  match columns_named l df with
  | [c] => Ok {| index := c;
                 data := filter (fun lc => negb (key_eqb l (fst lc)))
                                (data df) |}
  | [] => Raise KeyError
  | _ => Raise ValueError
  end.

(** The cells of row [i], from left to right. *)
Definition row_at (df : DataFrame) (i : nat) : list value :=
  map (fun lc => nth i (snd lc) nan) (data df).

Definition rows_of (df : DataFrame) : list (list value) :=
  map (row_at df) (seq 0 (nrows df)).

(** Two cells of one column that count as the same value when duplicates are
    looked for: missing cells are all alike, and so are the two zeros. *)
Definition same_cell (a b : value) : bool :=
  if (isnull a || isnull b)%bool then (isnull a && isnull b)%bool
  else match a, b with
       | VFloat (S754_zero _), VFloat (S754_zero _) => true
       | _, _ => value_eqb a b
       end.

Definition same_row (r r' : list value) : bool :=
  ((List.length r =? List.length r')%nat
   && forallb (fun p => same_cell (fst p) (snd p)) (combine r r'))%bool.

(** For each row, whether it is the first of its kind; [seen] holds the
    kinds met so far. *)
Fixpoint first_of_kind (seen rows : list (list value)) : list bool :=
  match rows with
  | [] => []
  | r :: rows' =>
      if existsb (same_row r) seen then false :: first_of_kind seen rows'
      else true :: first_of_kind (seen ++ [r]) rows'
  end.

(** [df.drop_duplicates()]: of the rows that agree on every column the first
    is kept, with its row label. *)
Definition drop_duplicates (df : DataFrame) : DataFrame :=
  loc_mask (first_of_kind [] (rows_of df)) df.

(** [df.dropna()]: without the rows that have a missing cell. *)
Definition dropna (df : DataFrame) : DataFrame :=
  loc_mask (map (fun r => negb (existsb isnull r)) (rows_of df)) df.

End Pandas.

Export Pandas.

(* ================================================================== *)
(** ** Pages

    A page as the parsers see it through PyQuery: each field is the result of
    one selection the code makes ([attr] gives [None] for an absent
    attribute, [text] always gives a string). *)

Module Dom.

(** A header or data cell: [c.attr("data-stat")] and [c.text()]. *)
Record cell := mkcell {
  data_stat : option string;
  text : string
}.

(** A body row [row]. *)
Record tr := mktr {
  tr_class : option string;   (* row.attr("class") *)
  th_text : string;           (* row("th").text() *)
  th0_text : string;          (* row("th").eq(0).text() *)
  th0_csk : option string;    (* row("th").eq(0).attr("csk") *)
  td : list cell              (* row("td").items() *)
}.

(** A table [table]. *)
Record table := mktable {
  row_summable : bool;        (* kept by .filter(".row_summable") *)
  caption : string;           (* table("caption").text() *)
  thead_th : list cell;       (* table("thead")("th").items() *)
  thead_tr1_th : list cell;   (* table("thead")("tr").eq(1)("th").items() *)
  tbody_tr : list tr          (* table("tbody")("tr").items() *)
}.

(** A page [webpage]. *)
Record page := mkpage {
  h1 : string;                (* webpage("div")("h1").eq(0).text() *)
  tables : list table         (* webpage("table").items() *)
}.

End Dom.

Export Dom.

(** The web: [pq(url)] returns the parsed page or raises. *)
Definition web := string -> result page.

(* ================================================================== *)
(** ** basketballref/player.py *)

Module Player.

(** [replace = {"": np.nan}] *)
Definition replace : dict string value := [(EmptyString, nan)].

(** [_process_webpage], line 58: the record of one body row. *)
Definition this_row (row : tr) : dict label value :=
  dict_of_items
    (map (fun i => (data_stat i,
                    dict_get_default replace (text i) (VStr (text i))))
         (td row)).

(** [_process_webpage], lines 50-59: the rows of one table body, with the
    rows collected so far in [rows]. *)
Fixpoint table_rows (trs : list tr) (rows : list (dict label value))
  : list (dict label value) :=
  match trs with
  | [] => rows
  | row :: trs' =>
      (* Skip any subheadings *)
      if key_eqb (tr_class row) (Some "thead") then table_rows trs' rows
      else table_rows trs' (rows ++ [this_row row])
  end.

(** [_process_webpage], lines 43-47: the column headings of one table. *)
Definition table_columns (t : table) : dict label string :=
  let columns := dict_of_items (map (fun i => (data_stat i, text i))
                                    (thead_th t)) in
  let columns := dict_set columns (Some "game_location") "away_game" in
  let columns := dict_set columns (Some "game_result") "game_result" in
  let columns := dict_set columns (Some "date_game") "date" in
  dict_set columns (Some "gs") "started".

(** [_process_webpage], lines 30-66: the frame of the raw rows of all data
    tables of a page, with the headings of the last table; an empty frame
    with the single column [date] for a page without data table. *)
Definition raw_frame (webpage : page)
  : result (DataFrame * dict label string) :=
  let tables := filter row_summable (tables webpage) in
  match tables with
  | [] => Ok (DataFrame_empty [Some "date"], [])
  | _ =>
      let dfs := map (fun t => DataFrame_of_records
                                 (table_rows (tbody_tr t) [])) tables in
      df <- concat_rows dfs true ;;
      Ok (df, table_columns (last tables (mktable false "" [] [] [])))
  end.

(** [_process_webpage], line 71: best-effort numeric coercion of every
    column. *)
Definition coerce (df : DataFrame) : DataFrame := apply to_numeric_ignore df.

(** Order on labels for sorting: text by code point, an absent label last. *)
Definition label_leb (a b : label) : bool :=
  match a, b with
  | Some x, Some y => String.leb x y
  | Some _, None => true
  | None, Some _ => false
  | None, None => true
  end.

Fixpoint insert_label (l : label) (ls : list label) : list label :=
  match ls with
  | [] => [l]
  | l' :: ls' => if label_leb l l' then l :: ls else l' :: insert_label l ls'
  end.

(** [a.difference(b)] on column indexes: the distinct labels of [a] that are
    not in [b], sorted. *)
Definition difference (a b : list label) : list label :=
  fold_left (fun acc l => insert_label l acc)
            (union_keys [] (filter (fun l => negb (key_in l b)) a)) [].

(** [Player.__init__], lines 184-190: the basic frame, followed when
    [advanced] is set by the columns of the advanced frame whose labels the
    basic frame lacks. *)
Definition merge (advanced : bool) (to_merge : list DataFrame)
  : result DataFrame :=
  if advanced then
    adv <- list_get to_merge 1 ;;
    basic <- list_get to_merge 0 ;;
    let columns_to_add := difference (columns adv) (columns basic) in
    extra <- getitem_list columns_to_add adv ;;
    concat_columns basic extra
  else list_get to_merge 0.


Definition GAMELOG_URL (uri : string) (season : Z) : string :=
  ("https://www.basketball-reference.com/players/" ++ slice uri None (Some 1)
   ++ "/" ++ uri ++ "/gamelog/" ++ str_of_int season)%string.

Definition ADV_GAMELOG_URL (uri : string) (season : Z) : string :=
  ("https://www.basketball-reference.com/players/" ++ slice uri None (Some 1)
   ++ "/" ++ uri ++ "/gamelog-advanced/" ++ str_of_int season)%string.

(** [x == "@"] on one cell. *)
Definition is_away (x : value) : value :=
  VBool (match x with VStr s => String.eqb s "@" | _ => false end).

(** [_process_webpage], line 70:
    [df["away_game"] = df["away_game"].apply(lambda x: x == "@")].
    [KeyError] without such a column; with several, the selection is a frame
    whose columns are compared one by one and assigned back. *)
Definition flag_away_games (df : DataFrame) : result DataFrame :=
  if has_column (Some "away_game") df
  then Ok {| index := index df;
             data := map (fun lc => if key_eqb (Some "away_game") (fst lc)
                                    then (fst lc, map is_away (snd lc))
                                    else lc)
                         (data df) |}
  else Raise KeyError.

(** [df.date] handed to [pd.to_datetime]: [AttributeError] without such a
    column; several make a frame, which cannot be assembled into dates
    ([ValueError]). *)
Definition date_series (df : DataFrame) : result column :=
  match columns_named (Some "date") df with
  | [c] => Ok c
  | [] => Raise AttributeError
  | _ => Raise ValueError
  end.

Section Process.
Variable parse_date : string -> option date.

(** [_process_webpage], lines 20-74. *)
Definition _process_webpage (webpage : page) : result DataFrame :=
  match filter row_summable (tables webpage) with
  | [] => Ok (DataFrame_empty [Some "date"])
  | _ =>
      '(df, columns) <- raw_frame webpage ;;
      let df := rename columns df in
      df <- flag_away_games df ;;
      let df := coerce df in
      date <- date_series df ;;
      date <- to_datetime parse_date date ;;
      Ok (setitem (Some "date") date df)
  end.
End Process.

(** *** The list of players *)













(** *** The game log of a player *)

Record Player := mkPlayer {
  _uri : string;
  df : DataFrame;
  title : string
}.

Section Init.
Variable parse_date : string -> option date.

(** Lines 170-171: the page parsed again from its text, once the comment
    delimiters that stand on a line of their own are taken out. *)
Variable uncomment : page -> page.

Variable pq : web.

(** The body of the loop over seasons (lines 163-178). *)
Definition season_log (base_url : string -> Z -> string) (uri : string)
                      (season : Z) : result DataFrame :=
  let url := base_url uri season in
  webpage <- pq url ;;
  let webpage := uncomment webpage in
  _process_webpage parse_date webpage.

(** The body of the loop over URLs (lines 160-182). *)
Definition game_log (base_url : string -> Z -> string) (uri : string)
                    (seasons : list Z) : result DataFrame :=
  dfs <- mapM (season_log base_url uri) seasons ;;
  df <- concat_rows dfs true ;;
  set_index (Some "date") df.

(** Lines 192-197. *)
Definition make_title (uri : string) (seasons : list Z) (advanced : bool)
  : result string :=
  title <- (if (List.length seasons =? 1)%nat
            then
              first <- list_get seasons 0 ;;
              Ok (uri ++ ", " ++ str_of_int first ++ " game-log")%string
            else
              first <- list_get seasons 0 ;;
              last <- list_get seasons (List.length seasons - 1) ;;
              Ok (uri ++ ", " ++ str_of_int first ++ "-" ++ str_of_int last
                  ++ " game-log")%string) ;;
  Ok (title ++ str_mul (1 - (if advanced then 1 else 0))
                       " (basic only)")%string.

Definition __init__ (uri : string) (seasons : list Z) (advanced : bool)
  : result Player :=
  let base_urls := if advanced then [GAMELOG_URL; ADV_GAMELOG_URL]
                   else [GAMELOG_URL] in
  to_merge <- mapM (fun base_url => game_log base_url uri seasons)
                   base_urls ;;
  df <- merge advanced to_merge ;;
  title <- make_title uri seasons advanced ;;
  Ok {| _uri := uri; df := df; title := title |}.
End Init.

End Player.

(* ================================================================== *)
(** ** basketballref/schedule.py *)

Module Schedule.

Definition SCHEDULE_URL (season : Z) (month : string) : string :=
  ("https://www.basketball-reference.com/leagues/NBA_" ++ str_of_int season
   ++ "_games-" ++ month ++ ".html")%string.

Definition all_months : list string :=
  ["october"; "november"; "december"; "january"; "february"; "march";
   "april"; "may"; "june"].

(** The dictionary built for one body row (lines 36-40). *)
Definition row_dict (row : tr) : dict label value :=
  let this_row := dict_of_items
                    (map (fun entry => (data_stat entry, VStr (text entry)))
                         (td row)) in
  let this_row := dict_set this_row (Some "date") (VStr (th0_text row)) in
  dict_set this_row (Some "uri")
           (match th0_csk row with Some u => VStr u | None => VNone end).

(** The loop over body rows (lines 32-47). *)
Fixpoint table_rows (trs : list tr) (rows : list (dict label value))
  : list (dict label value) :=
  match trs with
  | [] => rows
  | row :: trs' =>
      let this_row := row_dict row in
      if value_eqb (dict_get_default this_row (Some "date") VNone)
                   (VStr "Playoffs")
      then table_rows trs' rows
      else table_rows trs' (rows ++ [this_row])
  end.

(** [webpage("table")("tbody")("tr")]: the body rows of every table. *)
Definition body_rows (webpage : page) : list tr :=
  flat_map tbody_tr (tables webpage).

Definition _process_webpage (webpage : page) : result DataFrame :=
  let rows := table_rows (body_rows webpage) [] in
  let df := DataFrame_of_records rows in
  df <- getitem_list [Some "date"; Some "visitor_team_name";
                      Some "home_team_name"; Some "home_pts";
                      Some "visitor_pts"; Some "attendance"; Some "uri"] df ;;
  set_columns [Some "date"; Some "away"; Some "home"; Some "home_PTS";
               Some "away_PTS"; Some "attendance"; Some "uri"] df.

Record SeasonSchedule := mkSeasonSchedule {
  season : Z;
  months : list string;
  df : DataFrame;
  name : string
}.

Section Init.
Variable parse_date : string -> option date.
Variable pq : web.

(** The loop over months (lines 78-93), with the frames collected so far
    in [dfs]; a page that answers [HTTPError] is skipped. *)
Fixpoint month_frames (season : Z) (months : list string)
                      (dfs : list DataFrame) : result (list DataFrame) :=
  match months with
  | [] => Ok dfs
  | month :: months' =>
      match pq (SCHEDULE_URL season (lower month)) with
      | Raise HTTPError => month_frames season months' dfs
      | Raise e => Raise e
      | Ok webpage =>
          df <- _process_webpage webpage ;;
          month_frames season months' (dfs ++ [df])
      end
  end.

Definition __init__ (season : Z) (months : list string)
  : result SeasonSchedule :=
  dfs <- month_frames season months [] ;;
  df <- concat_rows dfs true ;;
  dates <- getitem (Some "date") df ;;
  dates <- to_datetime parse_date dates ;;
  let df := setitem (Some "date") dates df in
  Ok {| season := season;
        months := months;
        df := df;
        name := (str_of_int (season - 1) ++ "-" ++ str_of_int season
                 ++ " season schedule")%string |}.
End Init.

End Schedule.

(* ================================================================== *)
(** ** box_score.py *)

Module BoxScore.

Definition BOXSCORE_URL (uri : string) : string :=
  ("https://www.basketball-reference.com/boxscores/" ++ uri ++ ".html")%string.

Definition len (s : string) : Z := Z.of_nat (String.length s).

Section Parse.
Variable parse_date : string -> option date.

Definition _title_process (title : string)
  : result (string * string * value) :=
  let away_team := slice title None (Some (find title " at ")) in
  let home_team := slice title (Some (find title " at " + len " at "))
                         (Some (find title " Box Score,")) in
  date <- to_datetime_scalar parse_date
            (VStr (slice title (Some (find title "Box Score,"
                                      + len "Box Score, ")) None)) ;;
  Ok (home_team, away_team, date).

(** [replace = {"": np.nan}] *)
Definition replace : dict string value := [(EmptyString, nan)].

(** The data of one body row (line 62). *)
Definition row_data (row : tr) : dict label value :=
  dict_of_items
    (map (fun entry => (data_stat entry,
                        dict_get_default replace (text entry)
                                         (VStr (text entry))))
         (td row)).

(** The loop over the body rows of one table (lines 50-65), with the
    dictionary of rows built so far in [rows]. *)
Fixpoint table_rows (trs : list tr) (rows : dict string (dict label value))
  : dict string (dict label value) :=
  match trs with
  | [] => rows
  | row :: trs' =>
      (* Skip any subheadings *)
      if key_eqb (tr_class row) (Some "thead") then table_rows trs' rows
      else
        let player := th_text row in
        table_rows trs' (dict_set rows player (row_data row))
  end.

(** The frame of the rows of one table (lines 50-69). *)
Definition table_extract (t : table) : DataFrame :=
  DataFrame_of_dict_T (table_rows (tbody_tr t) []).

(** Lines 71-72: without the players that did not play. With several
    columns labelled [reason] the mask is two-dimensional and [loc]
    raises. *)
Definition drop_did_not_play (df : DataFrame) : result DataFrame :=
  if has_column (Some "reason") df then
    reason <- getitem (Some "reason") df ;;
    drop (Some "reason") (loc_mask (map isnull reason) df)
  else Ok df.

(** The body of the loop over tables (lines 44-72): the frame of one
    table. *)
Definition table_frame (t : table) : result DataFrame :=
  let columns := dict_of_items (map (fun c => (data_stat c, text c))
                                    (thead_tr1_th t)) in
  let df := table_extract t in
  let df := rename columns df in
  drop_did_not_play df.

Definition _process_webpage (webpage : page)
  : result (string * string * string * value * DataFrame) :=
  let title := h1 webpage in
  '(home_team, away_team, date) <- _title_process title ;;
  tables <- mapM table_frame (tables webpage) ;;
  t0 <- list_get tables 0 ;;
  t1 <- list_get tables 1 ;;
  t1 <- drop (Some "MP") t1 ;;
  away_df <- concat_columns t0 t1 ;;
  t2 <- list_get tables 2 ;;
  t3 <- list_get tables 3 ;;
  t3 <- drop (Some "MP") t3 ;;
  home_df <- concat_columns t2 t3 ;;
  let away_df := setitem (Some "Team")
                         (repeat (VStr away_team) (nrows away_df)) away_df in
  let home_df := setitem (Some "Team")
                         (repeat (VStr home_team) (nrows home_df)) home_df in
  df <- concat_rows [away_df; home_df] false ;;
  Ok (title, home_team, away_team, date, df).
End Parse.

(** [df.MP] and the element-wise [apply] on it: an attribute lookup, which
    fails with [AttributeError] without such a column; with several the
    selection is a frame and the function applied to its columns fails the
    same way. *)
Definition getattr_series (l : label) (df : DataFrame) : result column :=
  match columns_named l df with
  | [c] => Ok c
  | _ => Raise AttributeError
  end.

(** A cell used as a string: a missing cell has no string methods. *)
Definition str_of_cell (v : value) : result string :=
  match v with
  | VStr s => Ok s
  | _ => Raise AttributeError
  end.

(** [.astype(int)] on one string: [int()], then the 64-bit range. *)
Definition int64_of_str (s : string) : result Z :=
  z <- int_of_str s ;;
  if ((int64_min <=? z) && (z <=? int64_max))%bool then Ok z
  else Raise OverflowError.

(** [minutes + seconds/60.] on one row. *)
Definition fractional_minutes (minutes seconds : Z) : value :=
  VFloat (float_add (Z2SF minutes) (float_div (Z2SF seconds) (Z2SF 60))).

(** The conversion of the minutes-played column (lines 103-105). *)
Definition convert_MP (mp : column) : result column :=
  minutes <- mapM (fun v => s <- str_of_cell v ;;
                            Ok (slice s None (Some (find s ":")))) mp ;;
  minutes <- mapM int64_of_str minutes ;;
  seconds <- mapM (fun v => s <- str_of_cell v ;;
                            Ok (slice s (Some (find s ":" + 1)) None)) mp ;;
  seconds <- mapM int64_of_str seconds ;;
  Ok (map (fun p => fractional_minutes (fst p) (snd p))
          (combine minutes seconds)).

(** On [df[cols] = df[cols].apply(...)]: every column not labelled [MP] is
    coerced; the assignment needs these labels to be distinct and raises
    [ValueError] otherwise. *)
Definition _type_convert (df : DataFrame) : result DataFrame :=
  let cols := filter (fun c => negb (key_eqb c (Some "MP"))) (columns df) in
  df <- (if is_unique cols
         then Ok {| index := index df;
                    data := map (fun lc => if key_eqb (fst lc) (Some "MP")
                                           then lc
                                           else (fst lc,
                                                 to_numeric_ignore (snd lc)))
                                (data df) |}
         else Raise ValueError) ;;
  mp <- getattr_series (Some "MP") df ;;
  mp <- convert_MP mp ;;
  Ok (setitem (Some "MP") mp df).

Record BoxScore := mkBoxScore {
  _uri : string;
  url : string;
  title : string;
  home_team : string;
  away_team : string;
  date : value;
  df : DataFrame;
  final_score : DataFrame
}.

Definition __init__ (parse_date : string -> option Pandas.date) (pq : web)
                    (uri : string) : result BoxScore :=
  let url := BOXSCORE_URL uri in
  webpage <- pq url ;;
  '(title, home_team, away_team, date, df) <-
     _process_webpage parse_date webpage ;;
  df <- _type_convert df ;;
  let df := setitem (Some "date") (repeat date (nrows df)) df in
  final_score <- groupby_sum (Some "Team") (Some "PTS") df ;;
  Ok {| _uri := uri; url := url; title := title; home_team := home_team;
        away_team := away_team; date := date; df := df;
        final_score := final_score |}.

End BoxScore.

(* ================================================================== *)
(** ** basketballref/roster.py *)

Module Roster.

Definition ROSTER_URL (team : string) (season : Z) : string :=
  ("https://www.basketball-reference.com/teams/" ++ team ++ "/"
   ++ str_of_int season ++ ".html")%string.

(** The line feed. *)
Definition nl : string := String "010" EmptyString.

Definition len (s : string) : Z := Z.of_nat (String.length s).

(** A body row of the roster table. *)
Record roster_tr := mkroster_tr {
  number_text : string;   (* row("th").text() *)
  name_text : string;     (* row("td").eq(0).text() *)
  href : option string    (* row("td").eq(0)("a").attr("href") *)
}.

(** A team page. *)
Record team_page := mkteam_page {
  page_text : string;          (* webpage.text() *)
  body_tr : list roster_tr     (* webpage("table")("tbody")("tr").items() *)
}.

Definition team_web := string -> result team_page.

(** Lines 22-24: the description string of the page. *)
Definition description_of (text : string) : string :=
  let header := text in
  let header := slice header None
                      (Some (find header (nl ++ "More Team Info")%string)) in
  slice header
        (Some (find header "About logos" + len ("About logos" ++ nl)%string))
        None.

(** [replace = {"": np.nan}] *)
Definition replace : dict string value := [(EmptyString, nan)].

(** Line 45: the URI inside a link target. *)
Definition uri_of (uri : string) : string :=
  slice uri (Some (rfind uri "/" + 1)) (Some (find uri ".")).

(** The body of the loop over rows (lines 36-48); a row without a link has
    no target to cut. *)
Definition roster_row (row : roster_tr) : result (list value) :=
  let number := number_text row in
  let number := dict_get_default replace number (VStr number) in
  let name := name_text row in
  match href row with
  | Some uri => Ok [number; VStr name; VStr (uri_of uri)]
  | None => Raise AttributeError
  end.

(** [pd.DataFrame(rows, columns=["number","player","uri"])] for rows of
    three cells. *)
Definition roster_frame (rows : list (list value)) : DataFrame :=
  {| index := range_index (List.length rows);
     data := [(Some "number", map (fun r => nth 0 r nan) rows);
              (Some "player", map (fun r => nth 1 r nan) rows);
              (Some "uri", map (fun r => nth 2 r nan) rows)] |}.

Definition _process_webpage (webpage : team_page)
  : result (string * DataFrame) :=
  let header := description_of (page_text webpage) in
  rows <- mapM roster_row (body_tr webpage) ;;
  let df := roster_frame rows in
  let df := apply to_numeric_ignore df in
  let df := drop_duplicates df in
  Ok (header, df).

Record Roster := mkRoster {
  _team : string;
  _season : Z;
  url : string;
  description : string;
  df : DataFrame
}.

Definition __init__ (pq : team_web) (team : string) (season : Z)
                    (drop_na : bool) : result Roster :=
  let url := ROSTER_URL team season in
  webpage <- pq url ;;
  '(description, df) <- _process_webpage webpage ;;
  let df := if drop_na then dropna df else df in
  Ok {| _team := team; _season := season; url := url;
        description := description; df := df |}.

End Roster.

(* ================================================================== *)
(** ** Vocabulary of the statements *)

(** A body row marked as a sub-heading. *)
Definition subheading (row : tr) : bool :=
  key_eqb (tr_class row) (Some "thead").

(** A body row that is extracted by the game-log and box-score parsers. *)
Definition data_row (row : tr) : bool := negb (subheading row).

(** A schedule row that is not the play-off divider. *)
Definition game_row (row : tr) : bool :=
  negb (String.eqb (th0_text row) "Playoffs").

(** Text made of decimal digits only. *)
Fixpoint digits_only (s : string) : bool :=
  match s with
  | EmptyString => true
  | String c s' => (is_digit c && digits_only s')%bool
  end.

(** A non-empty string of decimal digits, as in ["34"] or ["00"]. *)
Definition decimal (s : string) : bool :=
  (negb (String.eqb s "") && digits_only s)%bool.

(** The binary64 float [m * 2^e]. *)
Definition dyadic (m e : Z) : spec_float := binary_normalize prec emax m e false.

(** The text ["minutes:seconds"]. *)
Definition clock (ms : string * string) : value :=
  VStr (fst ms ++ ":" ++ snd ms)%string.

(** A cell holding a number (or a boolean, which pandas counts as one). *)
Definition is_number (v : value) : bool :=
  (is_int v || is_float v || is_bool v)%bool.

(** A column in which every cell is a number. *)
Definition numeric_column (c : column) : bool := forallb is_number c.

(** What [BoxScore._type_convert] does to one labelled column when the
    minutes-played column converts to [mp]. *)
Definition converted_column (mp : column) (lc : label * column)
  : label * column :=
  if key_eqb (fst lc) (Some "MP") then (Some "MP", mp)
  else (fst lc, to_numeric_ignore (snd lc)).

(** The column of a list of records under key [k]. *)
Definition record_column (k : label) (rows : list (dict label value))
  : column :=
  map (fun r => dict_get_default r k nan) rows.

(** The seven-column table of a list of schedule records. *)
Definition schedule_table (rows : list (dict label value)) : DataFrame :=
  {| index := range_index (List.length rows);
     data := [(Some "date", record_column (Some "date") rows);
              (Some "away", record_column (Some "visitor_team_name") rows);
              (Some "home", record_column (Some "home_team_name") rows);
              (Some "home_PTS", record_column (Some "home_pts") rows);
              (Some "away_PTS", record_column (Some "visitor_pts") rows);
              (Some "attendance", record_column (Some "attendance") rows);
              (Some "uri", record_column (Some "uri") rows)] |}.

(** The rows of a schedule page that are games, in page order. *)
Definition game_rows (webpage : page) : list tr :=
  filter game_row (Schedule.body_rows webpage).

(** The month pages of a season that exist, in month order. *)
Definition fetched (pq : web) (season : Z) (months : list string)
  : list page :=
  flat_map (fun m => match pq (Schedule.SCHEDULE_URL season (lower m)) with
                     | Ok p => [p]
                     | Raise _ => []
                     end) months.

(** The date field of a schedule row, as a cell. *)
Definition date_cell (row : tr) : value := VStr (th0_text row).

(** The part of the advanced frame [adv] that the merge puts next to the
    basic frame [basic]: the columns whose labels [basic] lacks. *)
Definition added_columns (basic adv : DataFrame) : DataFrame :=
  {| index := index adv;
     data := flat_map (fun l => map (fun c => (l, c)) (columns_named l adv))
                      (Player.difference (columns adv) (columns basic)) |}.

(** Every column of a frame is as long as its index. *)
Definition well_formed (df : DataFrame) : Prop :=
  Forall (fun lc => List.length (snd lc) = nrows df) (data df).

(** The columns of the advanced frame [adv] whose labels the basic frame
    [basic] lacks, in the order of [adv]. *)
Definition absent_columns (basic adv : DataFrame) : list (label * column) :=
  filter (fun lc => negb (key_in (fst lc) (columns basic))) (data adv).

(** The row labels of [adv] that are not row labels of [basic], in the order
    of [adv]. *)
Definition new_rows (basic adv : DataFrame) : list value :=
  filter (fun k => negb (key_in k (index basic))) (index adv).

(** How cell [v] of column [c] is held in a table: as it is when the table
    has no row that the frame of [c] lacks ([full]); as a float, if [c] is a
    column of integers, when it has one. *)
Definition stored (full : bool) (c : column) (v : value) : value :=
  if full then v
  else match dtype_of c with
       | Int64 | UInt64 => as_float v
       | _ => v
       end.

(** A column followed by one missing cell for each of the rows [new] that
    come after the rows of its frame. *)
Definition extended (new : list value) (lc : label * column)
  : label * column :=
  (fst lc,
   map (stored (match new with [] => true | _ :: _ => false end) (snd lc))
       (snd lc)
   ++ repeat (missing_cell (snd lc)) (List.length new)).

(** The cell, on the row labelled [k], of a column [c] that belongs to a
    frame with row labels [src], in a table with row labels [rows]: the cell
    of [c] on the row of [src] labelled [k], a missing cell when [src] has no
    such row. *)
Definition cell_on (rows src : list value) (c : column) (k : value) : value :=
  match index_of k src with
  | Some i => stored (forallb (fun r => key_in r src) rows) c (nth i c nan)
  | None => missing_cell c
  end.

(** A column of a frame with row labels [src], laid out on the row labels
    [rows]. *)
Definition laid_out (rows src : list value) (lc : label * column)
  : label * column :=
  (fst lc, map (cell_on rows src (snd lc)) rows).

(* ================================================================== *)
(** ** Sample pages

    Concrete pages and a concrete date parser, on which the statements
    below are evaluated. *)

Module Sample.

Definition month_names : list string :=
  ["jan"; "feb"; "mar"; "apr"; "may"; "jun";
   "jul"; "aug"; "sep"; "oct"; "nov"; "dec"].

(** The number of a month given by its English name or its first three
    letters. *)
Definition month_number (m : string) : option Z :=
  option_map (fun i => Z.of_nat (S i))
             (index_of (lower (slice m None (Some 3))) month_names).

(** A parser for the two date formats of the site, ["Tue, Oct 17, 2017"] and
    ["June 8, 2018"]. *)
Definition site_date (s : string) : option Pandas.date :=
  let s := if find s ", " =? 3 then slice s (Some 5) None else s in
  let i := find s " " in
  let j := find s ", " in
  if ((i <? 0) || (j <? i))%bool then None
  else
    match month_number (slice s None (Some i)),
          int_unsigned (slice s (Some (i + 1)) (Some j)),
          int_unsigned (slice s (Some (j + 2)) None) with
    | Some m, Some d, Some y => Some (mkdate y m d)
    | _, _, _ => None
    end.

Definition stat (tag txt : string) : cell := mkcell (Some tag) txt.

(** A row of a monthly schedule table. *)
Definition game (cls : option string) (date : string) (csk : option string)
                (visitor vpts home hpts attendance : string) : tr :=
  mktr cls date date csk
       [stat "game_start_time" "8:00p";
        stat "visitor_team_name" visitor; stat "visitor_pts" vpts;
        stat "home_team_name" home; stat "home_pts" hpts;
        stat "attendance" attendance].

Definition schedule_page (rows : list tr) : page :=
  mkpage "2017-18 NBA Schedule and Results" [mktable false "" [] [] rows].

(** A web with the single page [p] at address [u]; any other address is
    not found. *)
Definition web_with (u : string) (p : page) : web :=
  fun url => if String.eqb url u then Ok p else Raise HTTPError.

(** A web without any page. *)
Definition web_404 : web := fun _ => Raise HTTPError.

(** The divider between the regular season and the play-offs. *)
Definition playoffs_divider : tr :=
  mktr (Some "thead") "Playoffs" "Playoffs" None [].

(** The schedule page of April 2018, shortened. *)
Definition april_2018 : page :=
  schedule_page
    [game None "Wed, Apr 11, 2018" (Some "201804110BOS")
          "Brooklyn Nets" "97" "Boston Celtics" "110" "18,624";
     playoffs_divider;
     game None "Sat, Apr 14, 2018" (Some "201804140GSW")
          "San Antonio Spurs" "92" "Golden State Warriors" "113" "19,596"].

Definition april_2018_url : string :=
  "https://www.basketball-reference.com/leagues/NBA_2018_games-april.html".

End Sample.

(* ================================================================== *)
(** ** Mock box-score pages

    A box-score page generated from the two rosters of a game. Each side has
    a basic and an advanced table over the same lines: a player who played
    (minutes as ["mm:ss"], field-goal percentage, points; true-shooting and
    usage percentages), a player who did not (a single [reason] cell), or a
    sub-heading row. *)

Module Mock.

Inductive line :=
| Played (name mm ss fg pts ts usg : string)
| Idle (name reason : string)
| Heading (label : string).

Definition is_heading (l : line) : bool :=
  match l with Heading _ => true | _ => false end.

Definition is_played (l : line) : bool :=
  match l with Played _ _ _ _ _ _ _ => true | _ => false end.

Definition is_idle (l : line) : bool :=
  match l with Idle _ _ => true | _ => false end.

Definition name_of (l : line) : string :=
  match l with
  | Played n _ _ _ _ _ _ => n
  | Idle n _ => n
  | Heading t => t
  end.

(** The players listed for a side. *)
Definition roster (ls : list line) : list line :=
  filter (fun l => negb (is_heading l)) ls.

(** The players of a side who played. *)
Definition played (ls : list line) : list line := filter is_played ls.

Definition minutes_text (l : line) : string :=
  match l with
  | Played _ mm ss _ _ _ _ => (mm ++ ":" ++ ss)%string
  | _ => EmptyString
  end.

Definition points_text (l : line) : string :=
  match l with Played _ _ _ _ pts _ _ => pts | _ => EmptyString end.

(** The points of a player, as a number. *)
Definition points (l : line) : Z := digits_value (points_text l) 0.

(** The points of a list of players, added up. *)
Definition total_points (ls : list line) : Z :=
  fold_left Z.add (map points ls) 0.

Definition basic_row (l : line) : tr :=
  match l with
  | Played n mm ss fg pts _ _ =>
      mktr None n n None
           [Sample.stat "mp" (mm ++ ":" ++ ss); Sample.stat "fg_pct" fg;
            Sample.stat "pts" pts]
  | Idle n r => mktr None n n None [Sample.stat "reason" r]
  | Heading t =>
      mktr (Some "thead") t t None
           [Sample.stat "mp" "MP"; Sample.stat "fg_pct" "FG%";
            Sample.stat "pts" "PTS"]
  end.

Definition advanced_row (l : line) : tr :=
  match l with
  | Played n mm ss _ _ ts usg =>
      mktr None n n None
           [Sample.stat "mp" (mm ++ ":" ++ ss); Sample.stat "ts_pct" ts;
            Sample.stat "usg_pct" usg]
  | Idle n r => mktr None n n None [Sample.stat "reason" r]
  | Heading t =>
      mktr (Some "thead") t t None
           [Sample.stat "mp" "MP"; Sample.stat "ts_pct" "TS%";
            Sample.stat "usg_pct" "USG%"]
  end.

(** The second header row of a basic table, and of an advanced one. *)
Definition basic_head : list cell :=
  [Sample.stat "player" "Starters"; Sample.stat "mp" "MP";
   Sample.stat "fg_pct" "FG%"; Sample.stat "pts" "PTS"].

Definition advanced_head : list cell :=
  [Sample.stat "player" "Starters"; Sample.stat "mp" "MP";
   Sample.stat "ts_pct" "TS%"; Sample.stat "usg_pct" "USG%"].

Definition basic_table (ls : list line) : table :=
  mktable false "Basic Box Score Stats" [] basic_head (map basic_row ls).

Definition advanced_table (ls : list line) : table :=
  mktable false "Advanced Box Score Stats" [] advanced_head
          (map advanced_row ls).

(** The page of a game: away basic, away advanced, home basic, home
    advanced. *)
Definition box_page (title : string) (away home : list line) : page :=
  mkpage title [basic_table away; advanced_table away;
                basic_table home; advanced_table home].

(** A well-formed side: distinct player names, exactly one player who did
    not play, marked with a non-empty reason, at least one who did, and for
    each of those minutes and seconds and points written in digits that fit
    64 bits. *)
Definition played_ok (l : line) : Prop :=
  match l with
  | Played _ mm ss _ pts _ _ =>
      decimal mm = true /\ decimal ss = true /\ decimal pts = true
      /\ digits_value mm 0 <= int64_max /\ digits_value ss 0 <= int64_max
      /\ digits_value pts 0 <= int64_max
  | Idle _ r => r <> EmptyString
  | Heading _ => True
  end.

Record side_ok (ls : list line) : Prop := {
  names_distinct : NoDup (map name_of (roster ls));
  one_idle : List.length (filter is_idle ls) = 1%nat;
  some_played : played ls <> [];
  lines_ok : Forall played_ok ls
}.

(** The game of June 8, 2018, shortened. *)
Definition warriors : list line :=
  [Played "Kevin Durant" "34" "30" ".500" "20" ".612" "28.1";
   Heading "Reserves";
   Played "Klay Thompson" "10" "00" ".400" "7" ".500" "15.0";
   Idle "Patrick McCaw" "Did Not Play"].

Definition cavaliers : list line :=
  [Played "LeBron James" "48" "00" ".550" "31" ".700" "35.2";
   Idle "Kendrick Perkins" "Did Not Dress";
   Played "Kyle Korver" "0" "00" "" "0" "" "0.0"].

Definition finals_title : string :=
  "Golden State Warriors at Cleveland Cavaliers Box Score, June 8, 2018".

Definition finals_page : page := box_page finals_title warriors cavaliers.

Definition finals_url : string :=
  "https://www.basketball-reference.com/boxscores/201806080CLE.html".

(** A table that is not a player table. *)
Definition four_factors : table :=
  mktable false "Four Factors" [] []
          [mktr None "GSW" "GSW" None [Sample.stat "pace" "92.5"];
           mktr None "CLE" "CLE" None [Sample.stat "pace" "92.5"]].

Definition fg_text (l : line) : string :=
  match l with Played _ _ _ fg _ _ _ => fg | _ => EmptyString end.

Definition ts_text (l : line) : string :=
  match l with Played _ _ _ _ _ ts _ => ts | _ => EmptyString end.

Definition usg_text (l : line) : string :=
  match l with Played _ _ _ _ _ _ usg => usg | _ => EmptyString end.

(** The cell read from a text: NaN for a blank, the text otherwise. *)
Definition cell_of (t : string) : value :=
  dict_get_default BoxScore.replace t (VStr t).

(** The frame of the basic table of a side, for the players [ps] who
    played; and of its advanced table. *)
Definition basic_frame (ps : list line) : DataFrame :=
  {| index := map (fun l => VStr (name_of l)) ps;
     data := [(Some "MP", map (fun l => cell_of (minutes_text l)) ps);
              (Some "FG%", map (fun l => cell_of (fg_text l)) ps);
              (Some "PTS", map (fun l => cell_of (points_text l)) ps)] |}.

Definition advanced_frame (ps : list line) : DataFrame :=
  {| index := map (fun l => VStr (name_of l)) ps;
     data := [(Some "MP", map (fun l => cell_of (minutes_text l)) ps);
              (Some "TS%", map (fun l => cell_of (ts_text l)) ps);
              (Some "USG%", map (fun l => cell_of (usg_text l)) ps)] |}.

(** The column of team names: the away players come first. *)
Definition team_column (away_team home_team : string) (pa ph : list line)
  : column :=
  repeat (VStr away_team) (List.length pa)
  ++ repeat (VStr home_team) (List.length ph).

(** The frame [_process_webpage] returns for the players [pa] and [ph] who
    played for the away and the home team. *)
Definition game_frame (away_team home_team : string) (pa ph : list line)
  : DataFrame :=
  {| index := map (fun l => VStr (name_of l)) (pa ++ ph);
     data := [(Some "MP", map (fun l => cell_of (minutes_text l)) (pa ++ ph));
              (Some "FG%", map (fun l => cell_of (fg_text l)) (pa ++ ph));
              (Some "PTS", map (fun l => cell_of (points_text l)) (pa ++ ph));
              (Some "TS%", map (fun l => cell_of (ts_text l)) (pa ++ ph));
              (Some "USG%", map (fun l => cell_of (usg_text l)) (pa ++ ph));
              (Some "Team", team_column away_team home_team pa ph)] |}.

(** The minutes and the seconds a player was on court, as texts. *)
Definition clock_parts (l : line) : string * string :=
  match l with
  | Played _ mm ss _ _ _ _ => (mm, ss)
  | _ => (EmptyString, EmptyString)
  end.

(** The minutes played as a fraction. *)
Definition minutes_played (l : line) : value :=
  BoxScore.fractional_minutes (digits_value (fst (clock_parts l)) 0)
                              (digits_value (snd (clock_parts l)) 0).

(** The table of a box score: the game frame after type conversion, with
    the date of the game on every row. *)
Definition box_score_frame (away_team home_team : string) (date : value)
                           (pa ph : list line) : DataFrame :=
  {| index := map (fun l => VStr (name_of l)) (pa ++ ph);
     data := [(Some "MP", map minutes_played (pa ++ ph));
              (Some "FG%",
               to_numeric_ignore
                 (map (fun l => cell_of (fg_text l)) (pa ++ ph)));
              (Some "PTS", map (fun l => VInt (points l)) (pa ++ ph));
              (Some "TS%",
               to_numeric_ignore
                 (map (fun l => cell_of (ts_text l)) (pa ++ ph)));
              (Some "USG%",
               to_numeric_ignore
                 (map (fun l => cell_of (usg_text l)) (pa ++ ph)));
              (Some "Team", team_column away_team home_team pa ph);
              (Some "date", repeat date (List.length (pa ++ ph)))] |}.

(** The entry of a series (a one-column frame) under row label [k]. *)
Definition series_get (k : value) (s : DataFrame) : option value :=
  match index_of k (index s), data s with
  | Some i, [(_, c)] => nth_error c i
  | _, _ => None
  end.

End Mock.

(** Lines of players who played, with minutes and points written as decimal
    numbers that fit a 64-bit integer. *)
Definition all_played (ps : list Mock.line) : Prop :=
  Forall (fun l => exists n mm ss fg pts ts usg,
              l = Mock.Played n mm ss fg pts ts usg
              /\ decimal mm = true /\ decimal ss = true /\ decimal pts = true
              /\ digits_value mm 0 <= int64_max
              /\ digits_value ss 0 <= int64_max
              /\ digits_value pts 0 <= int64_max) ps.

(** ** Vocabulary of the further properties *)















(* ================================================================== *)
(** ** More sample pages *)

Module Pages.

















End Pages.

(* ================================================================== *)
(** * Properties *)

(** ** Keys *)

(** The boolean equality of a key type decides equality. *)
Class EqKeyLaws (K : Type) `{EqKey K} : Prop :=
  key_eqb_eq : forall x y : K, key_eqb x y = true <-> x = y.

#[export] Instance EqKeyLaws_string : EqKeyLaws string.
Proof. intros x y. apply String.eqb_eq. Qed.

#[export] Instance EqKeyLaws_option {K} `{EqKeyLaws K} : EqKeyLaws (option K).
Proof.
  intros [x|] [y|]; unfold key_eqb; simpl; try (split; congruence).
  change (key_eqb x y = true <-> Some x = Some y).
  rewrite key_eqb_eq. split; congruence.
Qed.

Lemma float_eqb_eq (a b : spec_float) : float_eqb a b = true <-> a = b.
Proof.
  destruct a, b; simpl; try (split; congruence).
  - rewrite Bool.eqb_true_iff. split; congruence.
  - rewrite Bool.eqb_true_iff. split; congruence.
  - rewrite !andb_true_iff, Bool.eqb_true_iff, Pos.eqb_eq, Z.eqb_eq.
    split; [intros [[-> ->] ->]; reflexivity | intros E; inversion E; auto].
Qed.

Lemma date_eqb_eq (a b : Pandas.date) : date_eqb a b = true <-> a = b.
Proof.
  destruct a, b; unfold date_eqb; simpl.
  rewrite !andb_true_iff, !Z.eqb_eq.
  split; [intros [[-> ->] ->]; reflexivity | intros E; inversion E; auto].
Qed.

#[export] Instance EqKeyLaws_value : EqKeyLaws value.
Proof.
  intros a b. unfold key_eqb, EqKey_value.
  destruct a, b; simpl; try (split; congruence).
  - rewrite String.eqb_eq. split; congruence.
  - rewrite Bool.eqb_true_iff. split; congruence.
  - rewrite Z.eqb_eq. split; congruence.
  - rewrite float_eqb_eq. split; congruence.
  - rewrite date_eqb_eq. split; congruence.
Qed.

Section KeyFacts.
Context {K : Type} `{EqKeyLaws K}.

Lemma key_eqb_refl (k : K) : key_eqb k k = true.
Proof. now apply key_eqb_eq. Qed.

Lemma key_eqb_neq (x y : K) : key_eqb x y = false <-> x <> y.
Proof.
  rewrite <- key_eqb_eq. destruct (key_eqb x y); split; congruence.
Qed.

Lemma key_eqb_sym (x y : K) : key_eqb x y = key_eqb y x.
Proof.
  destruct (key_eqb x y) eqn:E.
  - apply key_eqb_eq in E. subst. symmetry. apply key_eqb_refl.
  - apply key_eqb_neq in E. symmetry. apply key_eqb_neq. congruence.
Qed.

Lemma key_in_In (k : K) (ks : list K) : key_in k ks = true <-> In k ks.
Proof.
  unfold key_in. rewrite existsb_exists. split.
  - intros [x [Hin E]]. apply key_eqb_eq in E. now subst.
  - intros Hin. exists k. split; [assumption | apply key_eqb_refl].
Qed.

Lemma key_in_not_In (k : K) (ks : list K) :
  key_in k ks = false <-> ~ In k ks.
Proof.
  rewrite <- key_in_In. destruct (key_in k ks); split; congruence.
Qed.

Lemma is_unique_NoDup (ks : list K) : is_unique ks = true <-> NoDup ks.
Proof.
  induction ks as [|k ks IH]; simpl.
  - split; [constructor | reflexivity].
  - rewrite andb_true_iff, negb_true_iff, key_in_not_In, IH.
    split; [intros [? ?]; now constructor | intros N; now inversion N].
Qed.

Lemma list_eqb_eq (xs ys : list K) : list_eqb xs ys = true <-> xs = ys.
Proof.
  unfold list_eqb. revert ys.
  induction xs as [|x xs IH]; intros [|y ys]; simpl;
    try (split; [discriminate | congruence]); try tauto.
  specialize (IH ys). simpl in IH.
  rewrite !andb_true_iff in *. rewrite key_eqb_eq.
  split.
  - intros [L [-> F]]. f_equal. apply IH. auto.
  - intros E. inversion E; subst. tauto.
Qed.
End KeyFacts.

(** ** Dictionaries *)

Section DictFacts.
Context {K V : Type} `{EqKeyLaws K}.
Implicit Types (d : dict K V) (k : K) (v : V).

Lemma dict_get_set_same d k v : dict_get (dict_set d k v) k = Some v.
Proof.
  induction d as [|[k' v'] d IH]; simpl.
  - now rewrite key_eqb_refl.
  - destruct (key_eqb k k') eqn:E; simpl; rewrite E; auto.
Qed.

Lemma dict_get_set_other d k k' v :
  k <> k' -> dict_get (dict_set d k v) k' = dict_get d k'.
Proof.
  intros N. induction d as [|[k0 v0] d IH]; simpl.
  - apply not_eq_sym, key_eqb_neq in N. now rewrite N.
  - destruct (key_eqb k k0) eqn:E; simpl.
    + apply key_eqb_eq in E. subst k0.
      apply not_eq_sym, key_eqb_neq in N. now rewrite N.
    + now rewrite IH.
Qed.

Lemma dict_keys_set d k v :
  dict_keys (dict_set d k v) =
  if key_in k (dict_keys d) then dict_keys d else dict_keys d ++ [k].
Proof.
  unfold dict_keys, key_in.
  induction d as [|[k' v'] d IH]; simpl; auto.
  destruct (key_eqb k k'); simpl; auto.
  rewrite IH. now destruct (existsb (key_eqb k) (map fst d)).
Qed.

Lemma dict_keys_set_NoDup d k v :
  NoDup (dict_keys d) -> NoDup (dict_keys (dict_set d k v)).
Proof.
  intros N. rewrite dict_keys_set.
  destruct (key_in k (dict_keys d)) eqn:E; auto.
  apply key_in_not_In in E.
  apply NoDup_app; auto.
  - constructor; [easy | constructor].
  - intros x Hx [<-|[]]. contradiction.
Qed.

(** A value stored after an assignment is the assigned one or was there
    before. *)
Lemma dict_set_values d k v x :
  In x (map snd (dict_set d k v)) -> x = v \/ In x (map snd d).
Proof.
  induction d as [|[k' v'] d IH]; simpl.
  - intros [<-|[]]. now left.
  - destruct (key_eqb k k'); simpl; intuition.
Qed.

Lemma dict_get_fold_set (kvs : list (K * V)) d k :
  dict_get (fold_left (fun d kv => dict_set d (fst kv) (snd kv)) kvs d) k =
  match last_value k kvs with
  | Some v => Some v
  | None => dict_get d k
  end.
Proof.
  revert d. induction kvs as [|[k' v'] kvs IH]; intros d; simpl; auto.
  rewrite IH. destruct (last_value k kvs); auto.
  destruct (key_eqb k k') eqn:E.
  - apply key_eqb_eq in E. subst. apply dict_get_set_same.
  - apply key_eqb_neq in E. apply dict_get_set_other. congruence.
Qed.

Lemma dict_get_of_items (kvs : list (K * V)) k :
  dict_get (dict_of_items kvs) k = last_value k kvs.
Proof.
  unfold dict_of_items. rewrite dict_get_fold_set.
  now destruct (last_value k kvs).
Qed.

Lemma last_value_app_cons (k : K) (v : V) (l1 l2 : list (K * V)) :
  (forall kv, In kv l2 -> fst kv <> k) ->
  last_value k (l1 ++ (k, v) :: l2) = Some v.
Proof.
  intros N. induction l1 as [|[k' v'] l1 IH]; simpl.
  - assert (E : last_value k l2 = None).
    { clear -N H0. induction l2 as [|[k2 v2] l2 IH]; simpl; auto.
      rewrite IH by (intros kv Hkv; apply N; now right).
      assert (k <> k2) as Hne
          by (intros ->; apply (N (k2, v2)); [now left | reflexivity]).
      apply key_eqb_neq in Hne. now rewrite Hne. }
    now rewrite E, key_eqb_refl.
  - now rewrite IH.
Qed.

Lemma dict_fold_set_values (kvs : list (K * V)) d x :
  In x (map snd (fold_left (fun d kv => dict_set d (fst kv) (snd kv))
                           kvs d)) ->
  In x (map snd kvs) \/ In x (map snd d).
Proof.
  revert d. induction kvs as [|[k v] kvs IH]; intros d; simpl; auto.
  intros Hin. apply IH in Hin. destruct Hin as [Hin|Hin]; auto.
  apply dict_set_values in Hin. intuition.
Qed.

Lemma dict_of_items_values (kvs : list (K * V)) x :
  In x (map snd (dict_of_items kvs)) -> In x (map snd kvs).
Proof.
  intros Hin. apply dict_fold_set_values in Hin. now destruct Hin.
Qed.

Lemma dict_get_In d k v : dict_get d k = Some v -> In v (map snd d).
Proof.
  induction d as [|[k' v'] d IH]; simpl; [discriminate|].
  destruct (key_eqb k k'); [intros [= <-]; now left | auto].
Qed.
End DictFacts.

Section DictMoreFacts.
Context {K V : Type} `{EqKeyLaws K}.
Implicit Types (d : dict K V) (k : K) (v : V).

Lemma dict_get_key_In d k v : dict_get d k = Some v -> In k (dict_keys d).
Proof.
  induction d as [|[k' v'] d IH]; simpl; [discriminate|].
  destruct (key_eqb k k') eqn:E; auto.
  apply key_eqb_eq in E. auto.
Qed.

Lemma dict_keys_fold_set_NoDup (kvs : list (K * V)) d :
  NoDup (dict_keys d) ->
  NoDup (dict_keys (fold_left (fun d kv => dict_set d (fst kv) (snd kv))
                              kvs d)).
Proof.
  revert d. induction kvs as [|kv kvs IH]; intros d N; simpl; auto.
  apply IH. now apply dict_keys_set_NoDup.
Qed.

Lemma dict_of_items_NoDup (kvs : list (K * V)) :
  NoDup (dict_keys (dict_of_items kvs)).
Proof. apply dict_keys_fold_set_NoDup. constructor. Qed.

(** With distinct keys, the entry found at a position is the one [dict_get]
    returns for its key. *)
Lemma dict_get_nth_error d k v (i : nat) :
  NoDup (dict_keys d) -> nth_error d i = Some (k, v) -> dict_get d k = Some v.
Proof.
  revert i. induction d as [|[k' v'] d IH]; intros i N E.
  - now destruct i.
  - simpl in N. inversion N as [|? ? Hnin N']; subst.
    destruct i; simpl in *.
    + injection E as -> ->. now rewrite key_eqb_refl.
    + destruct (key_eqb k k') eqn:Ek.
      * apply key_eqb_eq in Ek. subst k'. exfalso. apply Hnin.
        apply nth_error_In in E. now apply (in_map fst) in E.
      * eauto.
Qed.
End DictMoreFacts.

(** ** Row extraction *)

Lemma Player_table_rows_spec (trs : list tr) (rows : list (dict label value)) :
  Player.table_rows trs rows =
  rows ++ map Player.this_row (filter data_row trs).
Proof.
  revert rows. induction trs as [|row trs IH]; intros rows; simpl.
  - now rewrite app_nil_r.
  - unfold data_row at 1, subheading.
    destruct (key_eqb (tr_class row) (Some "thead")); simpl.
    + apply IH.
    + rewrite IH, <- app_assoc. reflexivity.
Qed.

(** The box-score loop is a sequence of assignments [rows[player] = data],
    one per data row. *)
Lemma BoxScore_table_rows_spec (trs : list tr)
      (rows : dict string (dict label value)) :
  BoxScore.table_rows trs rows =
  fold_left (fun d kv => dict_set d (fst kv) (snd kv))
            (map (fun r => (th_text r, BoxScore.row_data r))
                 (filter data_row trs))
            rows.
Proof.
  revert rows. induction trs as [|row trs IH]; intros rows; simpl; auto.
  unfold data_row at 1, subheading.
  destruct (key_eqb (tr_class row) (Some "thead")); simpl; apply IH.
Qed.

Lemma Schedule_row_date (row : tr) (default : value) :
  dict_get_default (Schedule.row_dict row) (Some "date") default =
  VStr (th0_text row).
Proof.
  unfold Schedule.row_dict, dict_get_default.
  rewrite dict_get_set_other by discriminate.
  now rewrite dict_get_set_same.
Qed.

Lemma Schedule_table_rows_spec (trs : list tr)
      (rows : list (dict label value)) :
  Schedule.table_rows trs rows =
  rows ++ map Schedule.row_dict (filter game_row trs).
Proof.
  revert rows. induction trs as [|row trs IH]; intros rows; simpl.
  - now rewrite app_nil_r.
  - rewrite Schedule_row_date. unfold game_row at 1. simpl.
    destruct (String.eqb (th0_text row) "Playoffs"); simpl.
    + apply IH.
    + rewrite IH, <- app_assoc. reflexivity.
Qed.

(** A blank cell is replaced by NaN, any other text is kept. *)
Lemma replace_blank (t : string) :
  dict_get_default Player.replace t (VStr t) =
  if String.eqb t "" then nan else VStr t.
Proof.
  unfold dict_get_default, Player.replace. simpl.
  unfold key_eqb, EqKey_string. now destruct (String.eqb t "").
Qed.

Lemma replace_not_blank (t : string) :
  dict_get_default Player.replace t (VStr t) <> VStr "".
Proof.
  rewrite replace_blank. destruct (String.eqb t "") eqn:E.
  - discriminate.
  - apply String.eqb_neq in E. congruence.
Qed.

Lemma this_row_no_blank (row : tr) :
  ~ In (VStr "") (map snd (Player.this_row row)).
Proof.
  intros Hin. apply dict_of_items_values in Hin.
  rewrite map_map in Hin. apply in_map_iff in Hin.
  destruct Hin as [c [E _]]. simpl in E. now apply replace_not_blank in E.
Qed.

Lemma this_row_blank_cell (row : tr) (l1 l2 : list cell) (c : cell) :
  td row = l1 ++ c :: l2 ->
  text c = "" ->
  (forall c', In c' l2 -> data_stat c' <> data_stat c) ->
  dict_get (Player.this_row row) (data_stat c) = Some nan.
Proof.
  intros Htd Hblank Hlast. unfold Player.this_row.
  rewrite dict_get_of_items, Htd, map_app. simpl.
  rewrite last_value_app_cons.
  - now rewrite replace_blank, Hblank.
  - intros kv Hkv. apply in_map_iff in Hkv.
    destruct Hkv as [c' [<- Hc']]. simpl. now apply Hlast.
Qed.

Lemma BoxScore_row_data_this_row (row : tr) :
  BoxScore.row_data row = Player.this_row row.
Proof. reflexivity. Qed.

(** Every cell of a frame built from records is a value of some record, or
    NaN. *)
Lemma DataFrame_of_records_cells (rows : list (dict label value))
      (l : label) (c : column) (v : value) :
  In (l, c) (data (DataFrame_of_records rows)) -> In v c ->
  v = nan \/ exists r, In r rows /\ In v (map snd r).
Proof.
  unfold DataFrame_of_records. simpl. intros Hlc Hv.
  apply in_map_iff in Hlc. destruct Hlc as [k [E _]].
  injection E as -> <-.
  apply in_map_iff in Hv. destruct Hv as [r [<- Hr]].
  unfold dict_get_default. destruct (dict_get r l) eqn:G; auto.
  right. exists r. split; auto. eapply dict_get_In; eauto.
Qed.

Lemma DataFrame_of_dict_T_cells (rows : dict string (dict label value))
      (l : label) (c : column) (v : value) :
  In (l, c) (data (DataFrame_of_dict_T rows)) -> In v c ->
  v = nan \/ exists r, In r (map snd rows) /\ In v (map snd r).
Proof.
  unfold DataFrame_of_dict_T. simpl. intros Hlc Hv.
  apply in_map_iff in Hlc. destruct Hlc as [k [E _]].
  injection E as -> <-.
  apply in_map_iff in Hv. destruct Hv as [[p r] [<- Hr]]. simpl.
  unfold dict_get_default. destruct (dict_get r l) eqn:G; auto.
  right. exists r. split.
  - apply in_map_iff. now exists (p, r).
  - eapply dict_get_In; eauto.
Qed.

Lemma BoxScore_table_rows_values (trs : list tr) (r : dict label value) :
  In r (map snd (BoxScore.table_rows trs [])) ->
  exists row, In row trs /\ r = BoxScore.row_data row.
Proof.
  rewrite BoxScore_table_rows_spec. intros Hin.
  apply dict_fold_set_values in Hin. destruct Hin as [Hin|[]].
  rewrite map_map in Hin. apply in_map_iff in Hin.
  destruct Hin as [row [<- Hrow]]. apply filter_In in Hrow.
  exists row. tauto.
Qed.

(** ** C2: blank cells *)

(** C2, as amended. In the row extraction of the game-log parser
    ([Player.this_row]) and of the box-score parser ([BoxScore.row_data]), a
    data cell with empty text is stored as NaN under its tag (when no later
    cell of the row carries the same tag), and no record and no cell of the
    extracted frames holds the empty string. The schedule parser keeps the
    text of its cells as it is. *)
Theorem C2_blank_cells_become_missing
        (row : tr) (l1 l2 : list cell) (c : cell)
        (Htd : td row = l1 ++ c :: l2)
        (Hblank : text c = "")
        (Hlast : forall c', In c' l2 -> data_stat c' <> data_stat c) :
  dict_get (Player.this_row row) (data_stat c) = Some nan
  /\ dict_get (BoxScore.row_data row) (data_stat c) = Some nan
  /\ ~ In (VStr "") (map snd (Player.this_row row))
  /\ ~ In (VStr "") (map snd (BoxScore.row_data row))
  /\ (forall trs l col,
        In (l, col) (data (DataFrame_of_records (Player.table_rows trs []))) ->
        ~ In (VStr "") col)
  /\ (forall t l col,
        In (l, col) (data (BoxScore.table_extract t)) -> ~ In (VStr "") col)
  /\ (forall r, dict_get (Schedule.row_dict r) (data_stat c) <> Some nan).
Proof.
  repeat split.
  - eapply this_row_blank_cell; eauto.
  - rewrite BoxScore_row_data_this_row. eapply this_row_blank_cell; eauto.
  - apply this_row_no_blank.
  - rewrite BoxScore_row_data_this_row. apply this_row_no_blank.
  - intros trs l col Hlc Hv.
    destruct (DataFrame_of_records_cells _ _ _ _ Hlc Hv) as [E|[r [Hr Hin]]].
    + discriminate.
    + rewrite Player_table_rows_spec in Hr. simpl in Hr.
      apply in_map_iff in Hr. destruct Hr as [row' [<- _]].
      now apply this_row_no_blank in Hin.
  - intros t l col Hlc Hv.
    destruct (DataFrame_of_dict_T_cells _ _ _ _ Hlc Hv) as [E|[r [Hr Hin]]].
    + discriminate.
    + apply BoxScore_table_rows_values in Hr. destruct Hr as [row' [_ ->]].
      rewrite BoxScore_row_data_this_row in Hin.
      now apply this_row_no_blank in Hin.
  - intros r G. apply dict_get_In in G.
    unfold Schedule.row_dict in G.
    apply dict_set_values in G. destruct G as [G|G].
    { destruct (th0_csk r); discriminate. }
    apply dict_set_values in G. destruct G as [G|G]; [discriminate|].
    apply dict_of_items_values in G. rewrite map_map in G.
    apply in_map_iff in G. destruct G as [c' [E _]]. discriminate.
Qed.

Lemma C2_blank_cells_witness :
  let row := mktr None "LeBron James" "LeBron James" None
                  [Sample.stat "mp" "41:12"; Sample.stat "fg3_pct" "";
                   Sample.stat "pts" "29"] in
  dict_get (Player.this_row row) (Some "fg3_pct") = Some nan
  /\ dict_get (BoxScore.row_data row) (Some "fg3_pct") = Some nan.
Proof.
  intros row.
  pose proof (C2_blank_cells_become_missing row
                [Sample.stat "mp" "41:12"] [Sample.stat "pts" "29"]
                (Sample.stat "fg3_pct" "") eq_refl eq_refl) as W.
  simpl in W. destruct W as [W1 [W2 _]].
  - intros c' [<-|[]]. discriminate.
  - split; assumption.
Defined.

(** C2 as stated fails for the schedule parser: the empty attendance cell of
    a game not yet played reaches the table as an empty string. *)
Lemma C2_counterexample_schedule_keeps_blank :
  Schedule._process_webpage
    (Sample.schedule_page
       [Sample.game None "Thu, Oct 19, 2017" (Some "201710190LAL")
                    "Los Angeles Clippers" "" "Los Angeles Lakers" "" ""])
  = Ok {| index := [VInt 0];
          data := [(Some "date", [VStr "Thu, Oct 19, 2017"]);
                   (Some "away", [VStr "Los Angeles Clippers"]);
                   (Some "home", [VStr "Los Angeles Lakers"]);
                   (Some "home_PTS", [VStr ""]);
                   (Some "away_PTS", [VStr ""]);
                   (Some "attendance", [VStr ""]);
                   (Some "uri", [VStr "201710190LAL"])] |}.
Proof. reflexivity. Qed.

(** ** C9: sub-heading rows *)

(** C9, as amended. The game-log and box-score extractions are built from
    the body rows whose class is not ["thead"] and from nothing else: the
    records are those of the data rows, in order, and a sub-heading row can
    be inserted anywhere without changing the result. The schedule extraction
    does not look at the class of a row: it keeps every row whose date field
    is not ["Playoffs"]. *)
Theorem C9_subheadings_never_extracted (l1 l2 : list tr) (row : tr)
        (Hsub : tr_class row = Some "thead") :
  Player.table_rows (l1 ++ row :: l2) [] = Player.table_rows (l1 ++ l2) []
  /\ BoxScore.table_rows (l1 ++ row :: l2) [] =
     BoxScore.table_rows (l1 ++ l2) []
  /\ (forall trs, Player.table_rows trs [] =
                  map Player.this_row (filter data_row trs))
  /\ (forall trs, BoxScore.table_rows trs [] =
                  BoxScore.table_rows (filter data_row trs) [])
  /\ (forall trs, Schedule.table_rows trs [] =
                  map Schedule.row_dict (filter game_row trs)).
Proof.
  assert (F : filter data_row (l1 ++ row :: l2) = filter data_row (l1 ++ l2)).
  { rewrite !filter_app. simpl. unfold data_row at 2, subheading.
    now rewrite Hsub. }
  repeat split.
  - now rewrite !Player_table_rows_spec, F.
  - now rewrite !BoxScore_table_rows_spec, F.
  - intros trs. now rewrite Player_table_rows_spec.
  - intros trs. rewrite !BoxScore_table_rows_spec. f_equal. f_equal.
    induction trs as [|r trs IH]; simpl; auto.
    destruct (data_row r) eqn:E; simpl; rewrite ?E; congruence.
  - intros trs. now rewrite Schedule_table_rows_spec.
Qed.

Lemma C9_subheadings_witness :
  let sub := mktr (Some "thead") "Rk" "Rk" None
                  [Sample.stat "date_game" "Date"; Sample.stat "pts" "PTS"] in
  let g1 := mktr None "1" "1" None
                 [Sample.stat "date_game" "2017-10-17";
                  Sample.stat "pts" "29"] in
  let g2 := mktr None "2" "2" None
                 [Sample.stat "date_game" "2017-10-20";
                  Sample.stat "pts" "24"] in
  Player.table_rows [g1; sub; g2] [] = Player.table_rows [g1; g2] []
  /\ BoxScore.table_rows [g1; sub; g2] [] = BoxScore.table_rows [g1; g2] [].
Proof.
  intros sub g1 g2.
  destruct (C9_subheadings_never_extracted [g1] [g2] sub eq_refl)
    as [W1 [W2 _]].
  split; [exact W1 | exact W2].
Defined.

(** C9 as stated fails for the schedule parser: a row of class ["thead"]
    whose date field is not ["Playoffs"] is extracted like any other. *)
Lemma C9_counterexample_schedule_keeps_subheading :
  let row := Sample.game (Some "thead") "Date" None
                         "Visitor/Neutral" "PTS" "Home/Neutral" "PTS"
                         "Attend." in
  subheading row = true
  /\ Schedule.table_rows [row] [] = [Schedule.row_dict row]
  /\ Schedule._process_webpage (Sample.schedule_page [row])
     = Ok {| index := [VInt 0];
             data := [(Some "date", [VStr "Date"]);
                      (Some "away", [VStr "Visitor/Neutral"]);
                      (Some "home", [VStr "Home/Neutral"]);
                      (Some "home_PTS", [VStr "PTS"]);
                      (Some "away_PTS", [VStr "PTS"]);
                      (Some "attendance", [VStr "Attend."]);
                      (Some "uri", [VNone])] |}.
Proof. repeat split. Qed.

(** ** C10: one row per player name *)

Lemma BoxScore_table_rows_NoDup (trs : list tr) :
  NoDup (dict_keys (BoxScore.table_rows trs [])).
Proof.
  rewrite BoxScore_table_rows_spec. apply dict_keys_fold_set_NoDup.
  constructor.
Qed.

Lemma NoDup_count_occ_1 {A} (dec : forall x y : A, {x = y} + {x <> y})
      (l : list A) (x : A) :
  NoDup l -> In x l -> count_occ dec l x = 1%nat.
Proof.
  intros N Hin. rewrite (NoDup_count_occ dec) in N.
  specialize (N x). apply (count_occ_In dec) in Hin. lia.
Qed.

(** C10. When two data rows of a table body carry the same player name and
    the second is the last data row with that name, the dictionary of rows
    holds exactly one entry under the name, with the data of the second row;
    the frame built from it has exactly one row labelled with the name, and
    each of its cells is the cell of the second row (NaN where that row has
    no cell for the column). The loop is a total function: nothing is
    raised. *)
Theorem C10_later_row_wins
        (t : table) (l1 l2 l3 : list tr) (r1 r2 : tr) (p : string)
        (Hbody : tbody_tr t = l1 ++ r1 :: l2 ++ r2 :: l3)
        (Hr1 : th_text r1 = p) (Hd1 : data_row r1 = true)
        (Hr2 : th_text r2 = p) (Hd2 : data_row r2 = true)
        (Hlast : forall r, In r l3 -> data_row r = true -> th_text r <> p) :
  let rows := BoxScore.table_rows (tbody_tr t) [] in
  let df := BoxScore.table_extract t in
  dict_get rows p = Some (BoxScore.row_data r2)
  /\ count_occ string_dec (dict_keys rows) p = 1%nat
  /\ (exists i, nth_error (index df) i = Some (VStr p))
  /\ (forall i j, nth_error (index df) i = Some (VStr p) ->
                  nth_error (index df) j = Some (VStr p) -> i = j)
  /\ (forall i l col,
        nth_error (index df) i = Some (VStr p) ->
        In (l, col) (data df) ->
        nth_error col i =
        Some (dict_get_default (BoxScore.row_data r2) l nan)).
Proof.
  intros rows df.
  assert (G : dict_get rows p = Some (BoxScore.row_data r2)).
  { unfold rows. rewrite BoxScore_table_rows_spec, dict_get_fold_set, Hbody.
    replace (l1 ++ r1 :: l2 ++ r2 :: l3) with ((l1 ++ r1 :: l2) ++ r2 :: l3)
      by (rewrite <- app_assoc; reflexivity).
    rewrite filter_app. simpl. rewrite Hd2, map_app. simpl.
    rewrite Hr2, last_value_app_cons; auto.
    intros kv Hkv. apply in_map_iff in Hkv. destruct Hkv as [r [<- Hr]].
    apply filter_In in Hr. simpl. now apply Hlast. }
  assert (N : NoDup (dict_keys rows)) by apply BoxScore_table_rows_NoDup.
  assert (At : forall i, nth_error (index df) i = Some (VStr p) ->
                         nth_error rows i = Some (p, BoxScore.row_data r2)).
  { intros i E. unfold df, BoxScore.table_extract, DataFrame_of_dict_T in E.
    simpl in E. fold rows in E. rewrite nth_error_map in E.
    destruct (nth_error rows i) as [[q d]|] eqn:Ei; [|discriminate].
    simpl in E. injection E as ->.
    pose proof (dict_get_nth_error _ _ _ _ N Ei) as G'.
    rewrite G in G'. now injection G' as <-. }
  repeat split.
  - exact G.
  - apply NoDup_count_occ_1; auto. eapply dict_get_key_In; eauto.
  - apply dict_get_key_In in G. apply In_nth_error in G.
    destruct G as [i Hi]. exists i.
    unfold df, BoxScore.table_extract, DataFrame_of_dict_T. simpl.
    fold rows. unfold dict_keys in Hi. rewrite nth_error_map in *.
    destruct (nth_error rows i) as [[q d]|]; [|discriminate].
    simpl in *. congruence.
  - intros i j Ei Ej. apply At in Ei. apply At in Ej.
    assert (Ki : nth_error (dict_keys rows) i = Some p)
      by (unfold dict_keys; now rewrite nth_error_map, Ei).
    assert (Kj : nth_error (dict_keys rows) j = Some p)
      by (unfold dict_keys; now rewrite nth_error_map, Ej).
    rewrite NoDup_nth_error in N. apply N; [|congruence].
    apply nth_error_Some. congruence.
  - intros i l col Ei Hlc. apply At in Ei.
    unfold df, BoxScore.table_extract, DataFrame_of_dict_T in Hlc.
    simpl in Hlc. fold rows in Hlc. apply in_map_iff in Hlc.
    destruct Hlc as [k [E _]]. injection E as -> <-.
    now rewrite nth_error_map, Ei.
Qed.

Lemma C10_later_row_witness :
  let r1 := mktr None "Marcus Morris" "Marcus Morris" None
                 [Sample.stat "mp" "21:07"; Sample.stat "pts" "9"] in
  let r2 := mktr None "Marcus Morris" "Marcus Morris" None
                 [Sample.stat "mp" "33:30"; Sample.stat "pts" "17"] in
  let r0 := mktr None "Markieff Morris" "Markieff Morris" None
                 [Sample.stat "mp" "30:00"; Sample.stat "pts" "12"] in
  let t := mktable false "" [] [] [r1; r0; r2] in
  BoxScore.table_extract t =
  {| index := [VStr "Marcus Morris"; VStr "Markieff Morris"];
     data := [(Some "mp", [VStr "33:30"; VStr "30:00"]);
              (Some "pts", [VStr "17"; VStr "12"])] |}
  /\ dict_get (BoxScore.table_rows (tbody_tr t) []) "Marcus Morris"
     = Some (BoxScore.row_data r2).
Proof.
  intros r1 r2 r0 t. split; [reflexivity|].
  refine (proj1 (C10_later_row_wins t [] [r0] [] r1 r2 "Marcus Morris"
                   eq_refl eq_refl eq_refl eq_refl eq_refl _)).
  intros r [].
Defined.

(** ** Strings *)

Lemma digit_not_colon (c : ascii) : is_digit c = true -> c <> ":"%char.
Proof. intros D ->. discriminate. Qed.

Lemma index_colon (ms rest : string) :
  digits_only ms = true ->
  String.index 0 ":" (ms ++ String ":" rest) = Some (String.length ms).
Proof.
  induction ms as [|c ms IH]; intros D.
  - simpl. now destruct rest.
  - cbn [digits_only] in D. apply andb_true_iff in D. destruct D as [Dc D].
    cbn [String.index String.append prefix String.length].
    destruct (ascii_dec ":" c) as [E|_].
    + symmetry in E. now apply digit_not_colon in E.
    + now rewrite IH.
Qed.

Lemma find_colon (ms rest : string) :
  digits_only ms = true ->
  find (ms ++ String ":" rest) ":" = Z.of_nat (String.length ms).
Proof. intros D. unfold find. now rewrite index_colon. Qed.

Lemma substring_prefix (a b : string) :
  String.substring 0 (String.length a) (a ++ b) = a.
Proof.
  induction a as [|c a IH]; simpl.
  - now destruct b.
  - now rewrite IH.
Qed.

Lemma substring_all (a : string) :
  String.substring 0 (String.length a) a = a.
Proof. induction a as [|c a IH]; simpl; congruence. Qed.

Lemma substring_suffix (a b : string) :
  String.substring (String.length a) (String.length b) (a ++ b) = b.
Proof.
  induction a as [|c a IH]; simpl; auto. apply substring_all.
Qed.

Lemma length_append (a b : string) :
  String.length (a ++ b) = (String.length a + String.length b)%nat.
Proof. induction a as [|c a IH]; simpl; congruence. Qed.

Lemma slice_before_colon (ms ss : string) :
  digits_only ms = true ->
  let s := (ms ++ ":" ++ ss)%string in
  slice s None (Some (find s ":")) = ms.
Proof.
  intros D s. unfold s. simpl. rewrite find_colon by assumption.
  unfold slice, slice_bound. rewrite length_append. simpl.
  destruct (Z.of_nat (String.length ms) <? 0) eqn:E;
    [apply Z.ltb_lt in E; lia|].
  rewrite Z.min_l by lia. rewrite Z.sub_0_r, Nat2Z.id. simpl.
  apply substring_prefix.
Qed.

Lemma slice_after_colon (ms ss : string) :
  digits_only ms = true ->
  let s := (ms ++ ":" ++ ss)%string in
  slice s (Some (find s ":" + 1)) None = ss.
Proof.
  intros D s. unfold s. simpl. rewrite find_colon by assumption.
  unfold slice, slice_bound. rewrite length_append. simpl.
  destruct (Z.of_nat (String.length ms) + 1 <? 0) eqn:E;
    [apply Z.ltb_lt in E; lia|].
  rewrite Z.min_l by lia.
  replace (Z.to_nat (Z.of_nat (String.length ms) + 1))
    with (String.length (ms ++ ":")) by (rewrite length_append; simpl; lia).
  replace (Z.to_nat _) with (String.length ss) by lia.
  replace (ms ++ String ":" ss)%string with ((ms ++ ":") ++ ss)%string.
  - apply substring_suffix.
  - clear. induction ms as [|c ms IH]; simpl; congruence.
Qed.

(** ** Integer literals *)

Lemma digit_not_space (c : ascii) : is_digit c = true -> is_space c = false.
Proof.
  destruct c as [[] [] [] [] [] [] [] []]; try discriminate; reflexivity.
Qed.

Lemma rstrip_digits (s : string) : digits_only s = true -> rstrip s = s.
Proof.
  induction s as [|c s IH]; simpl; auto.
  intros D. apply andb_true_iff in D. destruct D as [Dc D].
  rewrite IH by assumption. destruct s; auto.
  now rewrite digit_not_space.
Qed.

Lemma strip_decimal (s : string) : decimal s = true -> strip s = s.
Proof.
  unfold decimal, strip. intros D. apply andb_true_iff in D.
  destruct D as [_ D]. destruct s as [|c s]; auto.
  simpl in D. apply andb_true_iff in D. destruct D as [Dc D].
  simpl. rewrite digit_not_space by assumption.
  apply rstrip_digits. simpl. now rewrite Dc.
Qed.

Lemma int_digits_value (s : string) (acc : Z) :
  digits_only s = true -> int_digits s acc = Some (digits_value s acc).
Proof.
  revert acc. induction s as [|c s IH]; intros acc D; simpl; auto.
  simpl in D. apply andb_true_iff in D. destruct D as [Dc D].
  rewrite Dc. now apply IH.
Qed.

Lemma int_of_str_decimal (s : string) :
  decimal s = true -> int_of_str s = Ok (digits_value s 0).
Proof.
  intros D. unfold int_of_str. rewrite strip_decimal by assumption.
  unfold decimal in D. apply andb_true_iff in D. destruct D as [Hne D].
  destruct s as [|c s]; [discriminate|].
  assert (Dc : is_digit c = true)
    by (simpl in D; now apply andb_true_iff in D).
  assert (U : int_unsigned (String c s) = Some (digits_value (String c s) 0)).
  { unfold int_unsigned. rewrite Dc. now apply int_digits_value. }
  destruct c as [[] [] [] [] [] [] [] []]; try discriminate Dc;
    now rewrite U.
Qed.

Lemma digits_value_nonneg (s : string) (acc : Z) :
  digits_only s = true -> 0 <= acc -> 0 <= digits_value s acc.
Proof.
  revert acc. induction s as [|c s IH]; intros acc D A;
    cbn [digits_value]; auto.
  cbn [digits_only] in D. apply andb_true_iff in D. destruct D as [Dc D].
  apply IH; auto.
  assert (0 <= digit_value c); [|lia].
  destruct c as [[] [] [] [] [] [] [] []]; try discriminate Dc;
    vm_compute; intro; discriminate.
Qed.

Lemma int64_of_str_decimal (s : string) :
  decimal s = true -> digits_value s 0 <= int64_max ->
  BoxScore.int64_of_str s = Ok (digits_value s 0).
Proof.
  intros D R. unfold BoxScore.int64_of_str.
  rewrite int_of_str_decimal by assumption. simpl.
  assert (0 <= digits_value s 0).
  { apply digits_value_nonneg; [|lia]. unfold decimal in D.
    now apply andb_true_iff in D. }
  replace (int64_min <=? digits_value s 0) with true
    by (symmetry; apply Z.leb_le; unfold int64_min; lia).
  replace (digits_value s 0 <=? int64_max) with true
    by (symmetry; now apply Z.leb_le).
  reflexivity.
Qed.

(** ** The result monad *)

Lemma mapM_map {A B} (f : A -> result B) (g : A -> B) (xs : list A) :
  Forall (fun x => f x = Ok (g x)) xs -> mapM f xs = Ok (map g xs).
Proof.
  induction 1 as [|x xs Hx _ IH]; simpl; auto.
  now rewrite Hx, IH.
Qed.

Lemma mapM_map_map {A B C} (f : B -> result C) (h : A -> B) (g : A -> C)
      (xs : list A) :
  Forall (fun x => f (h x) = Ok (g x)) xs ->
  mapM f (map h xs) = Ok (map g xs).
Proof.
  induction 1 as [|x xs Hx _ IH]; simpl; auto.
  now rewrite Hx, IH.
Qed.

Lemma mapM_length {A B} (f : A -> result B) (xs : list A) (ys : list B) :
  mapM f xs = Ok ys -> List.length ys = List.length xs.
Proof.
  revert ys. induction xs as [|x xs IH]; simpl; intros ys E.
  - now injection E as <-.
  - destruct (f x); [|discriminate]. simpl in E.
    destruct (mapM f xs); [|discriminate]. injection E as <-.
    simpl. f_equal. now apply IH.
Qed.

Lemma mapM_Forall2 {A B} (f : A -> result B) (xs : list A) (ys : list B) :
  mapM f xs = Ok ys -> Forall2 (fun x y => f x = Ok y) xs ys.
Proof.
  revert ys. induction xs as [|x xs IH]; simpl; intros ys E.
  - injection E as <-. constructor.
  - destruct (f x) eqn:Ex; [|discriminate]. simpl in E.
    destruct (mapM f xs); [|discriminate]. injection E as <-.
    constructor; auto.
Qed.

Lemma mapM_app {A B} (f : A -> result B) (xs ys : list A) :
  mapM f (xs ++ ys) =
  bind (mapM f xs) (fun a => bind (mapM f ys) (fun b => Ok (a ++ b))).
Proof.
  induction xs as [|x xs IH]; simpl.
  - destruct (mapM f ys); reflexivity.
  - destruct (f x); simpl; auto. rewrite IH.
    destruct (mapM f xs); simpl; auto.
    destruct (mapM f ys); reflexivity.
Qed.

(** ** C5: minutes played *)

(** A column of well-formed clock texts converts, cell by cell, to
    [minutes + seconds/60.]. *)
Lemma convert_MP_clocks (cells : list (string * string)) :
  Forall (fun ms => decimal (fst ms) = true
                    /\ decimal (snd ms) = true
                    /\ digits_value (fst ms) 0 <= int64_max
                    /\ digits_value (snd ms) 0 <= int64_max) cells ->
  BoxScore.convert_MP (map clock cells) =
  Ok (map (fun ms => BoxScore.fractional_minutes (digits_value (fst ms) 0)
                                                 (digits_value (snd ms) 0))
          cells).
Proof.
  intros Hcells.
  assert (Dm : Forall (fun ms => digits_only (fst ms) = true) cells).
  { eapply Forall_impl; [|exact Hcells]. intros ms [D _].
    unfold decimal in D. now apply andb_true_iff in D. }
  unfold BoxScore.convert_MP.
  rewrite (mapM_map_map _ clock (fun ms => fst ms)).
  2:{ rewrite Forall_forall in *. intros ms Hin. unfold clock at 1.
      cbn [BoxScore.str_of_cell bind].
      now rewrite slice_before_colon by (now apply Dm). }
  cbn [bind].
  rewrite (mapM_map_map _ fst (fun ms => digits_value (fst ms) 0)).
  2:{ rewrite Forall_forall in *. intros ms Hin.
      destruct (Hcells ms Hin) as [D1 [D2 [R1 R2]]].
      now apply int64_of_str_decimal. }
  cbn [bind].
  rewrite (mapM_map_map _ clock (fun ms => snd ms)).
  2:{ rewrite Forall_forall in *. intros ms Hin. unfold clock at 1.
      cbn [BoxScore.str_of_cell bind].
      now rewrite slice_after_colon by (now apply Dm). }
  cbn [bind].
  rewrite (mapM_map_map _ snd (fun ms => digits_value (snd ms) 0)).
  2:{ rewrite Forall_forall in *. intros ms Hin.
      destruct (Hcells ms Hin) as [D1 [D2 [R1 R2]]].
      now apply int64_of_str_decimal. }
  cbn [bind]. f_equal.
  clear. induction cells as [|ms cells IH]; simpl; congruence.
Qed.

(** C5. A column of texts ["minutes:seconds"], each part a non-empty string
    of digits denoting a 64-bit integer, is converted without error, cell
    by cell, to the binary64 value of [minutes + seconds/60.]; in particular
    ["0:00"] gives 0.0, ["34:30"] gives 34.5 (= 69 * 2^-1) and ["48:00"]
    gives 48.0. *)
Theorem C5_minutes_played_conversion (cells : list (string * string))
        (Hcells : Forall (fun ms =>
                            decimal (fst ms) = true
                            /\ decimal (snd ms) = true
                            /\ digits_value (fst ms) 0 <= int64_max
                            /\ digits_value (snd ms) 0 <= int64_max) cells) :
  BoxScore.convert_MP (map clock cells) =
  Ok (map (fun ms => BoxScore.fractional_minutes (digits_value (fst ms) 0)
                                                 (digits_value (snd ms) 0))
          cells)
  /\ BoxScore.convert_MP [VStr "0:00"; VStr "34:30"; VStr "48:00"] =
     Ok [VFloat (dyadic 0 0); VFloat (dyadic 69 (-1)); VFloat (dyadic 48 0)].
Proof.
  split; [now apply convert_MP_clocks | reflexivity].
Qed.

Lemma C5_minutes_played_witness :
  BoxScore.convert_MP [VStr "0:00"; VStr "34:30"; VStr "48:00"; VStr "12:15"]
  = Ok [VFloat (S754_zero false);
        VFloat (S754_finite false 4855443348258816 (-47));
        VFloat (S754_finite false 6755399441055744 (-47));
        VFloat (S754_finite false 6896136929411072 (-49))].
Proof.
  refine (proj1 (C5_minutes_played_conversion
                   [("0", "00"); ("34", "30"); ("48", "00"); ("12", "15")] _)).
  repeat (apply Forall_cons;
          [repeat split; try reflexivity; now vm_compute|]).
  apply Forall_nil.
Defined.

(** ** C6: numeric coercion *)

Lemma mapO_length {A B} (f : A -> option B) (xs : list A) (ys : list B) :
  mapO f xs = Some ys -> List.length ys = List.length xs.
Proof.
  revert ys. induction xs as [|x xs IH]; simpl; intros ys E.
  - now injection E as <-.
  - destruct (f x); [|discriminate].
    destruct (mapO f xs); [|discriminate]. injection E as <-.
    simpl. f_equal. now apply IH.
Qed.

Lemma mapO_Forall {A B} (f : A -> option B) (P : B -> Prop)
      (xs : list A) (ys : list B) :
  (forall x y, f x = Some y -> P y) -> mapO f xs = Some ys -> Forall P ys.
Proof.
  intros HP. revert ys. induction xs as [|x xs IH]; simpl; intros ys E.
  - injection E as <-. constructor.
  - destruct (f x) eqn:Ex; [|discriminate].
    destruct (mapO f xs); [|discriminate]. injection E as <-.
    constructor; eauto.
Qed.

Lemma mapO_None {A B} (f : A -> option B) (xs : list A) (x : A) :
  In x xs -> f x = None -> mapO f xs = None.
Proof.
  induction xs as [|y xs IH]; simpl; [tauto|].
  intros [->|Hin] E.
  - now rewrite E.
  - rewrite IH by assumption. now destruct (f y).
Qed.

Lemma to_numeric_scalar_number (v w : value) :
  to_numeric_scalar v = Some w -> is_number w = true.
Proof.
  destruct v as [s| |b|z|f|d|]; simpl; try discriminate;
    try (intros [= <-]; reflexivity).
  destruct s as [|c s]; [intros [= <-]; reflexivity|].
  destruct (parse_number (String c s)) as [[z|f]|]; try discriminate.
  - destruct ((int64_min <=? z) && (z <=? uint64_max))%bool;
      [intros [= <-]; reflexivity | discriminate].
  - intros [= <-]. reflexivity.
Qed.

Lemma unify_numeric_spec (c c' : column) :
  unify_numeric c = Some c' ->
  Forall (fun v => is_number v = true) c ->
  List.length c' = List.length c /\ numeric_column c' = true.
Proof.
  unfold unify_numeric, numeric_column. intros E N.
  destruct (existsb is_big_uint c &&
            (existsb is_negative_int c || existsb is_float c))%bool;
    [discriminate|].
  destruct (existsb is_float c); [|destruct (existsb is_int c)];
    injection E as <-; rewrite ?length_map; split; auto;
    rewrite forallb_forall; try (intros v Hv; rewrite Forall_forall in N;
                                 now apply N).
  - intros v Hv. apply in_map_iff in Hv. destruct Hv as [w [<- Hw]].
    rewrite Forall_forall in N. specialize (N w Hw). now destruct w as [| |[]| | | |].
  - intros v Hv. apply in_map_iff in Hv. destruct Hv as [w [<- Hw]].
    rewrite Forall_forall in N. specialize (N w Hw). now destruct w as [| |[]| | | |].
Qed.

(** Coercion is all or nothing on a column: it is left as it was, or every
    cell of the result is a number. It never changes the length. *)
Lemma to_numeric_ignore_spec (c : column) :
  List.length (to_numeric_ignore c) = List.length c
  /\ (to_numeric_ignore c = c \/ numeric_column (to_numeric_ignore c) = true).
Proof.
  unfold to_numeric_ignore, convert_numeric.
  destruct (mapO to_numeric_scalar c) as [c1|] eqn:E1; [|auto].
  destruct (unify_numeric c1) as [c2|] eqn:E2; [|auto].
  apply unify_numeric_spec in E2.
  - destruct E2 as [L N]. rewrite L. split; auto.
    eapply mapO_length; eauto.
  - eapply mapO_Forall; [|exact E1]. apply to_numeric_scalar_number.
Qed.

(** One cell that is not numeric keeps the whole column as it was. *)
Lemma to_numeric_ignore_unchanged (c : column) (v : value) :
  In v c -> to_numeric_scalar v = None -> to_numeric_ignore c = c.
Proof.
  intros Hin E. unfold to_numeric_ignore, convert_numeric.
  now rewrite (mapO_None _ _ _ Hin E).
Qed.

Lemma columns_named_map_keep (l : label) (F : label * column -> label * column)
      (d : list (label * column)) :
  (forall lc, fst (F lc) = fst lc) ->
  (forall lc, key_eqb l (fst lc) = true -> F lc = lc) ->
  map snd (filter (fun lc => key_eqb l (fst lc)) (map F d)) =
  map snd (filter (fun lc => key_eqb l (fst lc)) d).
Proof.
  intros Hl Hk. induction d as [|lc d IH]; simpl; auto.
  rewrite Hl. destruct (key_eqb l (fst lc)) eqn:E; simpl; auto.
  now rewrite IH, Hk.
Qed.

Lemma has_column_columns_named (l : label) (df : DataFrame) :
  has_column l df = negb (match columns_named l df with
                          | [] => true
                          | _ => false
                          end).
Proof.
  unfold has_column, key_in, columns, columns_named.
  induction (data df) as [|lc d IH]; simpl; auto.
  destruct (key_eqb l (fst lc)); simpl; auto.
Qed.

(** [_type_convert] succeeds only if the frame has exactly one column
    labelled [MP] and that column converts; the result then holds the
    converted minutes, and every other column coerced on its own. *)
Lemma type_convert_Ok (df df' : DataFrame) :
  BoxScore._type_convert df = Ok df' ->
  exists mp mp',
    columns_named (Some "MP") df = [mp]
    /\ BoxScore.convert_MP mp = Ok mp'
    /\ df' = {| index := index df;
                data := map (converted_column mp') (data df) |}.
Proof.
  unfold BoxScore._type_convert. intros E.
  destruct (is_unique _); [|discriminate].
  match type of E with
  | bind (Ok ?d) _ = _ => set (df1 := d) in E
  end.
  cbn [bind] in E.
  assert (C : columns_named (Some "MP") df1 = columns_named (Some "MP") df).
  { unfold columns_named, df1. simpl. apply columns_named_map_keep.
    - intros lc. now destruct (key_eqb _ _).
    - intros lc K. rewrite key_eqb_sym in K.
      change label with (option string) in *. now rewrite K. }
  unfold BoxScore.getattr_series in E. rewrite C in E.
  destruct (columns_named (Some "MP") df) as [|mp [|? ?]] eqn:M;
    try discriminate.
  cbn [bind] in E. destruct (BoxScore.convert_MP mp) as [mp'|] eqn:Emp;
    [|discriminate].
  cbn [bind] in E. injection E as <-. exists mp, mp'.
  repeat split; auto.
  unfold setitem. rewrite has_column_columns_named, C. simpl.
  f_equal. unfold df1. simpl. rewrite map_map. apply map_ext.
  intros lc. unfold converted_column.
  change label with (option string) in *.
  destruct (key_eqb (fst lc) (Some "MP")) eqn:K; simpl;
    rewrite (key_eqb_sym (Some "MP")), K; reflexivity.
Qed.

(** C6, as amended. Coercion with [to_numeric(errors="ignore")] is
    column-wise and best-effort: a column in which some cell is not a
    number is left exactly as it was, a column is either unchanged or made
    of numbers only, and nothing is raised (the coercion is a total
    function). In the game-log parser this is applied to every column. In
    the box-score parser it is applied to every column except the one
    labelled [MP], which is converted by force: [_type_convert] returns only
    if there is exactly one such column and its conversion succeeds. *)
Theorem C6_numeric_coercion_best_effort (df df' : DataFrame)
        (Hconv : BoxScore._type_convert df = Ok df') :
  (forall c v, In v c -> to_numeric_scalar v = None ->
               to_numeric_ignore c = c)
  /\ (forall c, List.length (to_numeric_ignore c) = List.length c
                /\ (to_numeric_ignore c = c
                    \/ numeric_column (to_numeric_ignore c) = true))
  /\ (forall d, index (Player.coerce d) = index d
                /\ columns (Player.coerce d) = columns d
                /\ map snd (data (Player.coerce d)) =
                   map to_numeric_ignore (map snd (data d)))
  /\ (exists mp mp',
        columns_named (Some "MP") df = [mp]
        /\ BoxScore.convert_MP mp = Ok mp'
        /\ index df' = index df
        /\ data df' = map (converted_column mp') (data df)).
Proof.
  repeat split.
  - apply to_numeric_ignore_unchanged.
  - apply to_numeric_ignore_spec.
  - apply to_numeric_ignore_spec.
  - unfold columns, Player.coerce, apply. simpl. rewrite map_map.
    now apply map_ext.
  - unfold Player.coerce, apply. simpl. now rewrite !map_map.
  - destruct (type_convert_Ok _ _ Hconv) as [mp [mp' [M [E ->]]]].
    exists mp, mp'. auto.
Qed.

Lemma C6_numeric_coercion_witness :
  let df := {| index := [VStr "Kevin Durant"; VStr "Klay Thompson"];
               data := [(Some "MP", [VStr "34:30"; VStr "10:00"]);
                        (Some "PTS", [VStr "20"; VStr "7"]);
                        (Some "Pos", [VStr "F"; VStr "11"])] |} in
  BoxScore._type_convert df =
  Ok {| index := [VStr "Kevin Durant"; VStr "Klay Thompson"];
        data := [(Some "MP", [VFloat (dyadic 69 (-1)); VFloat (dyadic 10 0)]);
                 (Some "PTS", [VInt 20; VInt 7]);
                 (Some "Pos", [VStr "F"; VStr "11"])] |}
  /\ exists mp mp',
       columns_named (Some "MP") df = [mp]
       /\ BoxScore.convert_MP mp = Ok mp'.
Proof.
  intros df. split; [reflexivity|].
  destruct (C6_numeric_coercion_best_effort df _ eq_refl)
    as [_ [_ [_ [mp [mp' [M [E _]]]]]]].
  exists mp, mp'. split; assumption.
Defined.

(** C6 as stated fails for the minutes-played column of a box score: it is
    converted by force, and a missing cell in it makes the type conversion
    raise. *)
Lemma C6_counterexample_minutes_forced :
  BoxScore._type_convert
    {| index := [VStr "Kevin Durant"; VStr "Klay Thompson"];
       data := [(Some "MP", [VStr "34:30"; nan]);
                (Some "PTS", [VStr "20"; VStr "7"])] |}
  = Raise AttributeError.
Proof. reflexivity. Qed.

(** ** Frames built from records *)

Section UnionKeys.
Context {K : Type} `{EqKeyLaws K}.

Lemma union_keys_NoDup (acc ks : list K) :
  NoDup acc -> NoDup (union_keys acc ks).
Proof.
  unfold union_keys. revert acc.
  induction ks as [|k ks IH]; intros acc N; simpl; auto.
  apply IH. destruct (key_in k acc) eqn:E; auto.
  apply key_in_not_In in E. apply NoDup_app; auto.
  - constructor; [easy | constructor].
  - intros x Hx [<-|[]]. contradiction.
Qed.

Lemma union_keys_In (acc ks : list K) (k : K) :
  In k (union_keys acc ks) <-> In k acc \/ In k ks.
Proof.
  unfold union_keys. revert acc.
  induction ks as [|k' ks IH]; intros acc; simpl; [tauto|].
  rewrite IH. destruct (key_in k' acc) eqn:E.
  - apply key_in_In in E. split; [tauto|].
    intros [?|[<-|?]]; auto.
  - rewrite in_app_iff. simpl. tauto.
Qed.

Lemma union_keys_prefix (acc ks : list K) :
  exists more, union_keys acc ks = acc ++ more.
Proof.
  unfold union_keys. revert acc.
  induction ks as [|k ks IH]; intros acc; simpl.
  - exists []. now rewrite app_nil_r.
  - destruct (key_in k acc); auto.
    destruct (IH (acc ++ [k])) as [more E]. exists (k :: more).
    now rewrite E, <- app_assoc.
Qed.
End UnionKeys.

Lemma record_keys_from_NoDup (rows : list (dict label value))
      (acc : list label) :
  NoDup acc ->
  NoDup (fold_left (fun acc r => union_keys acc (dict_keys r)) rows acc).
Proof.
  revert acc. induction rows as [|r rows IH]; intros acc N; simpl; auto.
  apply IH. now apply union_keys_NoDup.
Qed.

Lemma record_keys_NoDup (rows : list (dict label value)) :
  NoDup (record_keys rows).
Proof. apply record_keys_from_NoDup. constructor. Qed.

(** In a frame whose labels are distinct, a label names one column. *)
Lemma filter_label_NoDup (l : label) (f : label -> column)
      (ks : list label) :
  NoDup ks ->
  filter (fun lc : label * column => key_eqb l (fst lc))
         (map (fun k => (k, f k)) ks) =
  if key_in l ks then [(l, f l)] else [].
Proof.
  induction 1 as [|k ks Hnin N IH]; simpl; auto.
  unfold key_in in *. simpl.
  destruct (key_eqb l k) eqn:E; simpl.
  - apply key_eqb_eq in E. subst k. rewrite IH.
    apply key_in_not_In in Hnin. unfold key_in in Hnin. now rewrite Hnin.
  - exact IH.
Qed.

Lemma columns_named_of_records (l : label) (rows : list (dict label value)) :
  columns_named l (DataFrame_of_records rows) =
  if key_in l (record_keys rows) then [record_column l rows] else [].
Proof.
  unfold columns_named, DataFrame_of_records. simpl.
  rewrite (filter_label_NoDup l (fun k => record_column k rows))
    by apply record_keys_NoDup.
  now destruct (key_in l (record_keys rows)).
Qed.

Lemma has_column_of_records (l : label) (rows : list (dict label value)) :
  has_column l (DataFrame_of_records rows) = key_in l (record_keys rows).
Proof.
  unfold has_column, columns, DataFrame_of_records. simpl.
  rewrite map_map. simpl. now rewrite map_id.
Qed.

(** ** The schedule table *)

(** When [_process_webpage] returns, it returns the seven-column table of
    the game rows of the page. *)
Lemma Schedule_process_webpage_Ok (webpage : page) (df : DataFrame) :
  Schedule._process_webpage webpage = Ok df ->
  df = schedule_table (map Schedule.row_dict (game_rows webpage)).
Proof.
  unfold Schedule._process_webpage. rewrite Schedule_table_rows_spec.
  simpl app. fold (game_rows webpage).
  set (rows := map Schedule.row_dict (game_rows webpage)).
  unfold getitem_list.
  match goal with
  | |- bind (if ?c then _ else _) _ = _ -> _ => destruct c eqn:C
  end; [|discriminate].
  cbn [forallb] in C. rewrite !has_column_of_records in C.
  rewrite !andb_true_iff in C.
  destruct C as (C1 & C2 & C3 & C4 & C5 & C6 & C7 & _).
  cbn [flat_map]. rewrite !columns_named_of_records.
  rewrite C1, C2, C3, C4, C5, C6, C7.
  cbn [bind map app]. unfold set_columns.
  cbn [List.length data map snd combine Nat.eqb index]. 
  intros [= <-]. unfold schedule_table, DataFrame_of_records.
  reflexivity.
Qed.

Lemma record_column_app (k : label) (a b : list (dict label value)) :
  record_column k (a ++ b) = record_column k a ++ record_column k b.
Proof. apply map_app. Qed.

Lemma stack_schedule_tables (r0 : list (dict label value))
      (rest : list (list (dict label value))) :
  stack_columns (data (schedule_table r0)) (map schedule_table rest) =
  data (schedule_table (r0 ++ List.concat rest)).
Proof.
  revert r0. induction rest as [|r1 rest IH]; intros r0.
  - simpl. now rewrite app_nil_r.
  - cbn [map stack_columns List.concat]. rewrite app_assoc, <- IH.
    f_equal. cbn. now rewrite !record_column_app.
Qed.

Lemma range_index_flat_map (rss : list (list (dict label value))) :
  List.length (flat_map index (map schedule_table rss)) =
  List.length (List.concat rss).
Proof.
  induction rss as [|r rss IH]; simpl; auto.
  rewrite !length_app, IH. f_equal.
  unfold range_index. now rewrite length_map, length_seq.
Qed.

(** Concatenating month tables gives the table of all their records. *)
Lemma concat_schedule_tables (rss : list (list (dict label value))) :
  rss <> [] ->
  concat_rows (map schedule_table rss) true =
  Ok (schedule_table (List.concat rss)).
Proof.
  destruct rss as [|r0 rest]; [congruence|]. intros _.
  unfold concat_rows. cbn [map].
  replace (forallb _ (map schedule_table rest)) with true.
  - rewrite stack_schedule_tables.
    change (flat_map index (schedule_table r0 :: map schedule_table rest))
      with (flat_map index (map schedule_table (r0 :: rest))).
    rewrite range_index_flat_map. reflexivity.
  - symmetry. apply forallb_forall. intros df Hdf.
    apply in_map_iff in Hdf. destruct Hdf as [r [<- _]]. reflexivity.
Qed.

Section ScheduleFacts.
Variable parse_date : string -> option Pandas.date.
Variable pq : web.

Lemma month_frames_missing (season : Z) (months : list string)
      (dfs : list DataFrame) :
  Forall (fun m => pq (Schedule.SCHEDULE_URL season (lower m))
                   = Raise HTTPError) months ->
  Schedule.month_frames pq season months dfs = Ok dfs.
Proof.
  induction 1 as [|m months Hm _ IH]; simpl; auto.
  now rewrite Hm.
Qed.

Lemma month_frames_Ok (season : Z) (months : list string)
      (dfs0 dfs : list DataFrame) :
  Schedule.month_frames pq season months dfs0 = Ok dfs ->
  dfs = dfs0 ++ map (fun p => schedule_table
                                (map Schedule.row_dict (game_rows p)))
                    (fetched pq season months).
Proof.
  revert dfs0. induction months as [|m months IH]; intros dfs0; simpl.
  - intros [= <-]. now rewrite app_nil_r.
  - unfold fetched. cbn [flat_map]. fold (fetched pq season months).
    destruct (pq (Schedule.SCHEDULE_URL season (lower m))) as [p|e].
    + destruct (Schedule._process_webpage p) as [df|] eqn:Ep;
        [|discriminate].
      cbn [bind]. intros E. apply IH in E.
      apply Schedule_process_webpage_Ok in Ep. subst df.
      rewrite E, <- app_assoc. reflexivity.
    + destruct e; try discriminate. cbn [app]. apply IH.
Qed.

Lemma record_column_date (trs : list tr) :
  record_column (Some "date") (map Schedule.row_dict trs) = map date_cell trs.
Proof.
  unfold record_column. rewrite map_map. apply map_ext.
  intros r. apply Schedule_row_date.
Qed.

(** When the schedule of a season is returned, its table is the
    seven-column table of the game rows of the month pages that exist, with
    the date column converted cell by cell. *)
Lemma Schedule_init_Ok (season : Z) (months : list string)
      (s : Schedule.SeasonSchedule) :
  Schedule.__init__ parse_date pq season months = Ok s ->
  let rows := flat_map game_rows (fetched pq season months) in
  fetched pq season months <> []
  /\ exists dates,
       to_datetime parse_date (map date_cell rows) = Ok dates
       /\ Schedule.df s =
          setitem (Some "date") dates
                  (schedule_table (map Schedule.row_dict rows)).
Proof.
  intros E rows. unfold Schedule.__init__ in E.
  destruct (Schedule.month_frames pq season months []) as [dfs|] eqn:Em;
    [|discriminate].
  apply month_frames_Ok in Em. cbn [app] in Em. cbn [bind] in E.
  rewrite <- (map_map (fun p => map Schedule.row_dict (game_rows p))
                      schedule_table) in Em.
  destruct (fetched pq season months) as [|p0 pages] eqn:Ef.
  { subst dfs. discriminate. }
  assert (R : List.concat (map (fun p => map Schedule.row_dict (game_rows p))
                          (p0 :: pages)) = map Schedule.row_dict rows).
  { unfold rows. generalize (p0 :: pages). intros ps.
    induction ps as [|p ps IHp]; simpl; auto.
    now rewrite map_app, IHp. }
  subst dfs. rewrite concat_schedule_tables in E by discriminate.
  rewrite R in E. cbn [bind] in E.
  change (getitem (Some "date") (schedule_table (map Schedule.row_dict rows)))
    with (Ok (A := column)
             (record_column (Some "date") (map Schedule.row_dict rows))) in E.
  cbn [bind] in E. rewrite record_column_date in E.
  destruct (to_datetime parse_date (map date_cell rows)) as [dates|] eqn:Ed;
    [|discriminate].
  cbn [bind] in E. injection E as <-. split; [discriminate|].
  exists dates. split; reflexivity.
Qed.
End ScheduleFacts.

(** ** C1: a season without month pages *)

(** C1, as amended. When the month sequence is empty, or when every month
    page of the season is missing, the aggregation stops with [ValueError]
    (pandas has no objects to concatenate) instead of returning an empty
    table; a schedule is returned only if at least one month page exists. *)
Theorem C1_no_month_page_no_table
        (parse_date : string -> option Pandas.date) (pq : web)
        (season : Z) (months : list string)
        (Hmissing : Forall (fun m =>
                              pq (Schedule.SCHEDULE_URL season (lower m))
                              = Raise HTTPError) months) :
  Schedule.__init__ parse_date pq season months = Raise ValueError
  /\ Schedule.__init__ parse_date pq season [] = Raise ValueError
  /\ (forall months' s,
        Schedule.__init__ parse_date pq season months' = Ok s ->
        fetched pq season months' <> []).
Proof.
  repeat split.
  - unfold Schedule.__init__.
    now rewrite (month_frames_missing pq season months [] Hmissing).
  - intros months' s E. now apply Schedule_init_Ok in E.
Qed.

Lemma C1_no_month_page_witness :
  Schedule.__init__ Sample.site_date Sample.web_404 2012 ["october"; "november"]
  = Raise ValueError.
Proof.
  refine (proj1 (C1_no_month_page_no_table Sample.site_date Sample.web_404
                   2012 ["october"; "november"] _)).
  repeat constructor.
Defined.

(** C1 as stated fails: with no month at all, and with the nine months of a
    season of which no page exists, the result is an exception, not an empty
    table. *)
Lemma C1_counterexample_empty_season_raises :
  Schedule.__init__ Sample.site_date Sample.web_404 2018 [] = Raise ValueError
  /\ Schedule.__init__ Sample.site_date Sample.web_404 2018
                       Schedule.all_months = Raise ValueError.
Proof. split; reflexivity. Qed.

(** ** C7: play-off dividers and dates *)

Lemma to_datetime_scalar_text (parse_date : string -> option Pandas.date)
      (t : string) (d : value) :
  to_datetime_scalar parse_date (VStr t) = Ok d ->
  d = VNaT \/ exists day, parse_date t = Some day /\ d = VDate day.
Proof.
  unfold to_datetime_scalar.
  destruct (String.eqb t "" || key_in t nat_strings)%bool.
  - intros [= <-]. now left.
  - destruct (parse_date t) as [day|]; [|discriminate].
    intros [= <-]. right. now exists day.
Qed.

(** C7, as amended. Rows whose date field is exactly ["Playoffs"] are
    excluded and every other row is retained, in page order. When the
    schedule of a season is returned, its table has one row per retained row
    of the month pages that exist, and its date column holds the result of
    [to_datetime] on the date field of each of them: a timestamp when the
    parser accepts the text, NaT when the text is empty or spells a missing
    time. (A retained row whose date text the parser rejects makes the
    conversion raise, so that no schedule is returned.) *)
Theorem C7_playoffs_rows_excluded
        (parse_date : string -> option Pandas.date) (pq : web)
        (season : Z) (months : list string) (s : Schedule.SeasonSchedule)
        (Hok : Schedule.__init__ parse_date pq season months = Ok s) :
  let rows := flat_map game_rows (fetched pq season months) in
  (forall trs, Schedule.table_rows trs [] =
               map Schedule.row_dict (filter game_row trs))
  /\ Forall (fun row => th0_text row <> "Playoffs") rows
  /\ nrows (Schedule.df s) = List.length rows
  /\ exists dates,
       getitem (Some "date") (Schedule.df s) = Ok dates
       /\ Forall2 (fun row d =>
                     to_datetime_scalar parse_date (date_cell row) = Ok d
                     /\ (d = VNaT
                         \/ exists day, parse_date (th0_text row) = Some day
                                        /\ d = VDate day))
                  rows dates.
Proof.
  intros rows.
  destruct (Schedule_init_Ok parse_date pq season months s Hok)
    as [_ [dates [Ed Edf]]]. fold rows in Ed, Edf.
  split; [|split; [|split]].
  - intros trs. now rewrite Schedule_table_rows_spec.
  - unfold rows. apply Forall_forall. intros row Hrow.
    apply in_flat_map in Hrow. destruct Hrow as [p [_ Hrow]].
    apply filter_In in Hrow. destruct Hrow as [_ G].
    unfold game_row in G. apply negb_true_iff, String.eqb_neq in G. exact G.
  - rewrite Edf. unfold nrows, setitem, schedule_table. cbn [index].
    unfold range_index. now rewrite length_map, length_seq, length_map.
  - exists dates. split.
    + rewrite Edf. reflexivity.
    + apply mapM_Forall2 in Ed. clearbody rows. clear -Ed.
      remember (map date_cell rows) as cells eqn:Ec.
      revert rows Ec. induction Ed as [|c d cells dates Hc _ IH];
        intros rows Ec.
      * destruct rows; [constructor | discriminate].
      * destruct rows as [|row rows]; [discriminate|].
        injection Ec as -> ->. constructor; auto.
        split; auto. now apply to_datetime_scalar_text.
Qed.

Lemma C7_playoffs_rows_witness :
  exists s,
    Schedule.__init__ Sample.site_date
                      (Sample.web_with Sample.april_2018_url Sample.april_2018)
                      2018 Schedule.all_months = Ok s
    /\ nrows (Schedule.df s) = 2%nat
    /\ getitem (Some "date") (Schedule.df s) =
       Ok [VDate (mkdate 2018 4 11); VDate (mkdate 2018 4 14)].
Proof.
  eexists. split; [reflexivity|].
  match goal with
  | |- nrows (Schedule.df ?s) = _ /\ _ =>
      pose proof (C7_playoffs_rows_excluded
                    Sample.site_date
                    (Sample.web_with Sample.april_2018_url Sample.april_2018)
                    2018 Schedule.all_months s eq_refl) as W
  end.
  destruct W as [_ [_ [W _]]]. split; [exact W | reflexivity].
Defined.

(** C7 as stated fails on its second half: a row that is retained need not
    have a valid date. A row with an empty date field is given NaT, and a
    row whose date field is not a date (here the column heading) makes the
    conversion raise. *)
Lemma C7_counterexample_retained_row_without_date :
  let blank := Sample.game None "" None "Miami Heat" "" "Orlando Magic" ""
                           "" in
  let heading := Sample.game (Some "thead") "Date" None "Visitor/Neutral"
                             "PTS" "Home/Neutral" "PTS" "Attend." in
  option_map
    (fun s => getitem (Some "date") (Schedule.df s))
    (match Schedule.__init__
             Sample.site_date
             (Sample.web_with Sample.april_2018_url
                              (Sample.schedule_page [blank]))
             2018 ["April"] with
     | Ok s => Some s
     | Raise _ => None
     end) = Some (Ok [VNaT])
  /\ Schedule.__init__
       Sample.site_date
       (Sample.web_with Sample.april_2018_url
                        (Sample.schedule_page [heading]))
       2018 ["April"] = Raise ValueError.
Proof. split; reflexivity. Qed.

(** ** Column selection and side-by-side concatenation *)

Lemma insert_label_In (l x : label) (ls : list label) :
  In x (Player.insert_label l ls) <-> x = l \/ In x ls.
Proof.
  induction ls as [|l' ls IH]; simpl.
  - intuition.
  - destruct (Player.label_leb l l'); simpl; rewrite ?IH; intuition.
Qed.

Lemma insert_label_NoDup (l : label) (ls : list label) :
  NoDup ls -> ~ In l ls -> NoDup (Player.insert_label l ls).
Proof.
  induction 1 as [|l' ls Hnin N IH]; simpl; intros Hl.
  - constructor; [easy | constructor].
  - destruct (Player.label_leb l l').
    + constructor; [exact Hl | now constructor].
    + constructor.
      * rewrite insert_label_In. intuition.
      * apply IH. intuition.
Qed.

Lemma sort_labels_In (ls acc : list label) (x : label) :
  In x (fold_left (fun acc l => Player.insert_label l acc) ls acc) <->
  In x ls \/ In x acc.
Proof.
  revert acc. induction ls as [|l ls IH]; intros acc; simpl; [tauto|].
  rewrite IH, insert_label_In. intuition.
Qed.

Lemma NoDup_app_disjoint {A} (l1 l2 : list A) (x : A) :
  NoDup (l1 ++ l2) -> In x l1 -> ~ In x l2.
Proof.
  induction l1 as [|y l1 IH]; simpl; [tauto|].
  intros N [->|Hin] Hx; inversion N as [|? ? Hnin N']; subst.
  - apply Hnin. apply in_or_app. now right.
  - now apply IH.
Qed.

Lemma sort_labels_NoDup (ls acc : list label) :
  NoDup (ls ++ acc) ->
  NoDup (fold_left (fun acc l => Player.insert_label l acc) ls acc).
Proof.
  revert acc. induction ls as [|l ls IH]; intros acc N; simpl; auto.
  simpl in N. inversion N as [|? ? Hnin N']; subst.
  apply IH. apply NoDup_app.
  - now apply NoDup_app_remove_r in N'.
  - apply insert_label_NoDup.
    + now apply NoDup_app_remove_l in N'.
    + intros Hin. apply Hnin. apply in_or_app. now right.
  - intros x Hx Hx'. apply insert_label_In in Hx'. destruct Hx' as [->|Hx'].
    + apply Hnin. apply in_or_app. now left.
    + now apply (NoDup_app_disjoint _ _ x N').
Qed.

(** The labels added by the merge are the distinct labels of the advanced
    table that the basic table lacks. *)
Lemma difference_In (a b : list label) (x : label) :
  In x (Player.difference a b) <-> In x a /\ ~ In x b.
Proof.
  unfold Player.difference. rewrite sort_labels_In, union_keys_In, filter_In.
  simpl. rewrite negb_true_iff, key_in_not_In. tauto.
Qed.

Lemma difference_NoDup (a b : list label) : NoDup (Player.difference a b).
Proof.
  unfold Player.difference. apply sort_labels_NoDup. rewrite app_nil_r.
  apply union_keys_NoDup. constructor.
Qed.

Lemma has_column_In (l : label) (df : DataFrame) :
  has_column l df = true <-> In l (columns df).
Proof. apply key_in_In. Qed.

Lemma getitem_list_Ok (ls : list label) (df : DataFrame) :
  (forall l, In l ls -> In l (columns df)) ->
  getitem_list ls df =
  Ok {| index := index df;
        data := flat_map (fun l => map (fun c => (l, c)) (columns_named l df))
                         ls |}.
Proof.
  intros Hin. unfold getitem_list.
  replace (forallb (fun l => has_column l df) ls) with true; auto.
  symmetry. apply forallb_forall. intros l Hl. apply has_column_In. auto.
Qed.

Lemma length_flat_map_sum {A B} (g : A -> list B) (xs : list A) :
  List.length (flat_map g xs) = list_sum (map (fun x => List.length (g x)) xs).
Proof.
  induction xs as [|x xs IH]; simpl; auto.
  now rewrite length_app, IH.
Qed.

Lemma list_sum_map_add {A} (a b : A -> nat) (xs : list A) :
  list_sum (map (fun x => (a x + b x)%nat) xs) =
  (list_sum (map a xs) + list_sum (map b xs))%nat.
Proof. induction xs as [|x xs IH]; simpl; lia. Qed.

Lemma list_sum_indicator_0 (x : label) (ls : list label) :
  ~ In x ls ->
  list_sum (map (fun l => if key_eqb l x then 1%nat else 0%nat) ls) = 0%nat.
Proof.
  induction ls as [|l ls IH]; intros Hnin; simpl; auto.
  assert (E : key_eqb l x = false).
  { apply key_eqb_neq. intros ->. apply Hnin. now left. }
  rewrite E. apply IH. intros H. apply Hnin. now right.
Qed.

Lemma list_sum_indicator (x : label) (ls : list label) :
  NoDup ls -> In x ls ->
  list_sum (map (fun l => if key_eqb l x then 1%nat else 0%nat) ls) = 1%nat.
Proof.
  induction 1 as [|l ls Hnin N IH]; intros Hin; [contradiction|].
  simpl. destruct (key_eqb l x) eqn:E.
  - apply key_eqb_eq in E. subst l.
    now rewrite list_sum_indicator_0.
  - destruct Hin as [->|Hin]; [rewrite key_eqb_refl in E; discriminate|].
    now rewrite IH.
Qed.

(** Selecting the columns of distinct labels that cover a frame selects each
    column once. *)
Lemma selected_columns_count (ls : list label) (d : list (label * column)) :
  NoDup ls ->
  (forall lc, In lc d -> In (fst lc) ls) ->
  List.length
    (flat_map (fun l => map (fun c => (l, c))
                            (map snd (filter (fun lc => key_eqb l (fst lc)) d)))
              ls) = List.length d.
Proof.
  intros N Hcov. rewrite length_flat_map_sum.
  induction d as [|lc d IH].
  - clear. induction ls as [|l ls IHl]; simpl; auto.
  - rewrite <- (map_ext (fun l => ((if key_eqb l (fst lc) then 1 else 0)
                 + List.length (map (fun c => (l, c))
                     (map snd (filter (fun lc0 => key_eqb l (fst lc0)) d))))%nat)).
    + rewrite list_sum_map_add, IH by (intros; apply Hcov; now right).
      rewrite list_sum_indicator; auto. apply Hcov. now left.
    + intros l. cbn [filter]. destruct (key_eqb l (fst lc)); reflexivity.
Qed.

Lemma union_keys_incl {K} `{EqKeyLaws K} (acc ks : list K) :
  incl ks acc -> union_keys acc ks = acc.
Proof.
  unfold union_keys. induction ks as [|k ks IH]; intros I; simpl; auto.
  assert (E : key_in k acc = true)
    by (apply key_in_In; apply I; now left).
  rewrite E. apply IH. intros x Hx. apply I. now right.
Qed.

(** ** C4: merging basic and advanced game logs *)

Lemma merge_added_columns (B A : DataFrame) :
  Player.merge true [B; A] = concat_columns B (added_columns B A).
Proof.
  unfold Player.merge. cbn [list_get nth_error bind].
  rewrite getitem_list_Ok; [reflexivity|].
  intros l Hl. now apply difference_In in Hl.
Qed.



Lemma NoDup_nil_of_no_member {A} (l : list A) :
  (forall x, ~ In x l) -> l = [].
Proof. destruct l as [|x l]; auto. intros N. destruct (N x). now left. Qed.

(** *** Rows matched by label *)

Lemma index_of_None {K} `{EqKeyLaws K} (k : K) (ks : list K) :
  index_of k ks = None <-> key_in k ks = false.
Proof.
  induction ks as [|k' ks IH]; simpl; [tauto|].
  unfold key_in in *. simpl. destruct (key_eqb k k'); simpl.
  - split; discriminate.
  - rewrite <- IH. destruct (index_of k ks); simpl; split; congruence.
Qed.

Lemma index_of_not_In {K} `{EqKeyLaws K} (k : K) (ks : list K) :
  ~ In k ks -> index_of k ks = None.
Proof. intros N. apply index_of_None. now apply key_in_not_In. Qed.

Lemma needs_filling_covers (rows src : list value) :
  existsb (fun o : option nat => match o with None => true | Some _ => false end)
          (get_indexer rows src) =
  negb (forallb (fun r => key_in r src) rows).
Proof.
  unfold get_indexer. induction rows as [|k rows IH]; simpl; auto.
  rewrite IH, negb_andb. f_equal.
  destruct (key_in k src) eqn:E.
  - destruct (index_of k src) eqn:I; auto.
    apply index_of_None in I. congruence.
  - apply index_of_None in E. now rewrite E.
Qed.

Lemma as_float_nth (c : column) (i : nat) :
  nth i (map as_float c) nan = as_float (nth i c nan).
Proof. exact (map_nth as_float c nan i). Qed.

Lemma promote_stored (c : column) : promote c = map (stored false c) c.
Proof.
  unfold promote, stored. destruct (dtype_of c); auto; now rewrite map_id.
Qed.

Lemma stored_true (c : column) : map (stored true c) c = c.
Proof. unfold stored. apply map_id. Qed.

Lemma nth_promote (c : column) (i : nat) :
  nth i (promote c) nan = stored false c (nth i c nan).
Proof.
  unfold promote, stored. destruct (dtype_of c); auto; apply as_float_nth.
Qed.

Lemma nth_stored (full : bool) (c : column) (i : nat) :
  nth i (map (stored full c) c) nan = stored full c (nth i c nan).
Proof.
  unfold stored. destruct full; [now rewrite map_id|].
  destruct (dtype_of c); try apply as_float_nth; now rewrite map_id.
Qed.

(** Reindexing lays every column out on the new row labels. *)
Lemma reindex_laid_out (rows : list value) (df : DataFrame) :
  data (reindex rows df) = map (laid_out rows (index df)) (data df).
Proof.
  unfold reindex. cbn [data]. rewrite needs_filling_covers.
  apply map_ext. intros [l c].
  unfold laid_out, take, get_indexer, cell_on. cbn [fst snd]. f_equal.
  rewrite map_map. apply map_ext. intros k.
  destruct (index_of k (index df)); auto.
  destruct (forallb (fun r => key_in r (index df)) rows); cbn [negb].
  - reflexivity.
  - apply nth_promote.
Qed.

(** Looking the labels of a frame up by label gives back its rows, when the
    labels are distinct. *)
Lemma take_own_rows (src : list value) (c : column) (fill : value) :
  NoDup src -> List.length c = List.length src ->
  map (fun k => match index_of k src with
                | Some i => nth i c nan
                | None => fill
                end) src = c.
Proof.
  intros N. revert c. induction N as [|k src Hnin N IH]; intros c L.
  - now destruct c.
  - destruct c as [|v c]; [discriminate|]. cbn [map index_of].
    rewrite key_eqb_refl. cbn [nth]. f_equal.
    etransitivity; [|apply (IH c); simpl in L; lia].
    apply map_ext_in. intros k' Hk'.
    assert (E : key_eqb k' k = false).
    { apply key_eqb_neq. intros ->. contradiction. }
    rewrite E. destruct (index_of k' src); reflexivity.
Qed.

Lemma covers_self (src : list value) :
  forallb (fun r => key_in r src) src = true.
Proof. apply forallb_forall. intros k Hk. now apply key_in_In. Qed.

Lemma laid_out_own_rows (src : list value) (lc : label * column) :
  NoDup src -> List.length (snd lc) = List.length src ->
  laid_out src src lc = lc.
Proof.
  intros N L. destruct lc as [l c]. unfold laid_out, cell_on. cbn [fst snd] in *.
  f_equal. rewrite covers_self. unfold stored.
  now apply take_own_rows.
Qed.

Lemma covers_app (src new : list value) :
  forallb (fun r => key_in r src) (src ++ new) =
  forallb (fun r => key_in r src) new.
Proof. now rewrite forallb_app, covers_self. Qed.

Lemma covers_new (src new : list value) :
  (forall k, In k new -> ~ In k src) ->
  forallb (fun r => key_in r src) new =
  match new with [] => true | _ :: _ => false end.
Proof.
  intros D. destruct new as [|k new]; auto. cbn [forallb].
  assert (E : key_in k src = false).
  { apply key_in_not_In. apply D. now left. }
  now rewrite E.
Qed.

(** A frame laid out on its own rows followed by rows it lacks keeps its
    cells in place and gets a missing cell on each new row. *)
Lemma laid_out_extended (src new : list value) (lc : label * column) :
  NoDup src -> List.length (snd lc) = List.length src ->
  (forall k, In k new -> ~ In k src) ->
  laid_out (src ++ new) src lc = extended new lc.
Proof.
  intros N L D. destruct lc as [l c]. unfold laid_out, extended.
  cbn [fst snd] in *. f_equal. rewrite map_app. f_equal.
  - unfold cell_on. rewrite covers_app, (covers_new src new D).
    set (full := match new with [] => true | _ :: _ => false end).
    rewrite <- (take_own_rows src (map (stored full c) c) (missing_cell c) N)
      by (now rewrite length_map).
    apply map_ext. intros k. destruct (index_of k src); auto.
    symmetry. apply nth_stored.
  - clear L. induction new as [|k new IH]; auto. cbn [map List.length repeat].
    f_equal.
    + unfold cell_on. rewrite index_of_not_In; auto. apply D. now left.
    + rewrite <- IH.
      * apply map_ext_in. intros k' Hk'. unfold cell_on.
        rewrite !index_of_not_In; auto; apply D; now right.
      * intros k' Hk'. apply D. now right.
Qed.

Lemma extended_nil (d : list (label * column)) : map (extended []) d = d.
Proof.
  rewrite <- (map_id d) at 2. apply map_ext. intros [l c].
  unfold extended. cbn [fst snd List.length repeat].
  now rewrite stored_true, app_nil_r.
Qed.


Section UnionFilter.
Context {K : Type} `{EqKeyLaws K}.

(** The union of two lists of keys: the first list, followed by the keys of
    the second that it lacks. *)
Lemma union_keys_filter (acc ks : list K) :
  NoDup ks ->
  union_keys acc ks = acc ++ filter (fun k => negb (key_in k acc)) ks.
Proof.
  unfold union_keys. intros N. revert acc.
  induction N as [|k ks Hnin N IH]; intros acc; cbn [fold_left filter].
  - now rewrite app_nil_r.
  - rewrite IH. destruct (key_in k acc) eqn:E; cbn [negb].
    + reflexivity.
    + rewrite <- app_assoc. cbn [app]. do 2 f_equal.
      apply filter_ext_in. intros k' Hk'. f_equal.
      unfold key_in. rewrite existsb_app. cbn [existsb].
      assert (E' : key_eqb k' k = false).
      { apply key_eqb_neq. intros ->. contradiction. }
      rewrite E'. now rewrite !orb_false_r.
Qed.

Lemma filter_lacking_self (ks : list K) :
  filter (fun k => negb (key_in k ks)) ks = [].
Proof.
  apply NoDup_nil_of_no_member. intros k Hk. apply filter_In in Hk.
  destruct Hk as [Hin E]. apply key_in_In in Hin. rewrite Hin in E.
  discriminate.
Qed.

Lemma filter_lacking_incl (acc ks : list K) :
  incl ks acc -> filter (fun k => negb (key_in k acc)) ks = [].
Proof.
  intros I. apply NoDup_nil_of_no_member. intros k Hk. apply filter_In in Hk.
  destruct Hk as [Hin E]. apply I, key_in_In in Hin. rewrite Hin in E.
  discriminate.
Qed.
End UnionFilter.

(** *** The columns the merge selects *)

Lemma labelled_columns (l : label) (d : list (label * column)) :
  map (fun c => (l, c)) (map snd (filter (fun lc => key_eqb l (fst lc)) d)) =
  filter (fun lc => key_eqb l (fst lc)) d.
Proof.
  induction d as [|[l' c] d IH]; auto. cbn [filter fst].
  destruct (key_eqb l l') eqn:E; auto.
  apply key_eqb_eq in E. subst l'. cbn [map snd]. now rewrite IH.
Qed.

Lemma filter_label_or (l : label) (ls : list label)
      (d : list (label * column)) :
  ~ In l ls ->
  Permutation (filter (fun lc => key_eqb l (fst lc)) d
               ++ filter (fun lc => key_in (fst lc) ls) d)
              (filter (fun lc => key_in (fst lc) (l :: ls)) d).
Proof.
  intros Hnin. induction d as [|[l' c] d IH]; [constructor|].
  cbn [filter fst].
  change (key_in l' (l :: ls)) with (key_eqb l' l || key_in l' ls)%bool.
  rewrite (key_eqb_sym l' l).
  destruct (key_eqb l l') eqn:E.
  - apply key_eqb_eq in E. subst l'.
    apply key_in_not_In in Hnin. rewrite Hnin. cbn [orb app].
    now constructor.
  - cbn [orb]. destruct (key_in l' ls).
    + apply Permutation_sym, Permutation_cons_app, Permutation_sym, IH.
    + exact IH.
Qed.

(** Selecting the columns of distinct labels, label by label, gives the
    columns that carry one of the labels. *)
Lemma selected_columns (ls : list label) (d : list (label * column)) :
  NoDup ls ->
  Permutation
    (flat_map (fun l => map (fun c => (l, c))
                            (map snd (filter (fun lc => key_eqb l (fst lc)) d)))
              ls)
    (filter (fun lc => key_in (fst lc) ls) d).
Proof.
  induction 1 as [|l ls Hnin N IH]; cbn [flat_map].
  - unfold key_in. cbn [existsb].
    induction d as [|lc d IHd]; [constructor | exact IHd].
  - rewrite labelled_columns.
    eapply Permutation_trans; [|apply filter_label_or; exact Hnin].
    now apply Permutation_app_head.
Qed.

(** The columns the merge puts next to the basic frame are the columns of the
    advanced frame whose labels the basic frame lacks. *)
Lemma added_columns_absent (B A : DataFrame) :
  Permutation (data (added_columns B A)) (absent_columns B A).
Proof.
  unfold added_columns, absent_columns, columns_named. cbn [data].
  eapply Permutation_trans; [apply selected_columns, difference_NoDup|].
  erewrite filter_ext_in; [apply Permutation_refl|].
  intros lc Hlc. cbv beta.
  assert (HA : In (fst lc) (columns A)) by (now apply in_map).
  destruct (key_in (fst lc) (columns B)) eqn:E; cbn [negb].
  - apply key_in_not_In. intros Hd. apply difference_In in Hd.
    apply key_in_In in E. tauto.
  - apply key_in_In. apply difference_In. apply key_in_not_In in E. tauto.
Qed.

Lemma filter_all {X} (f : X -> bool) (xs : list X) :
  (forall x, In x xs -> f x = true) -> filter f xs = xs.
Proof.
  induction xs as [|x xs IH]; intros F; cbn [filter]; auto.
  rewrite (F x) by (now left). f_equal. apply IH. intros y Hy. apply F.
  now right.
Qed.

Lemma absent_columns_all (B A : DataFrame) :
  (forall l, In l (columns A) -> ~ In l (columns B)) ->
  absent_columns B A = data A.
Proof.
  intros D. apply filter_all. intros lc Hlc. apply negb_true_iff.
  apply key_in_not_In. apply D. now apply in_map.
Qed.

Lemma absent_columns_none (B A : DataFrame) :
  (forall l, In l (columns A) -> In l (columns B)) ->
  absent_columns B A = [].
Proof.
  intros I. apply NoDup_nil_of_no_member. intros lc Hlc.
  apply filter_In in Hlc. destruct Hlc as [Hin E].
  assert (Hl : In (fst lc) (columns B)) by (apply I; now apply in_map).
  apply key_in_In in Hl. rewrite Hl in E. discriminate.
Qed.

Lemma added_columns_well_formed (B A : DataFrame) :
  well_formed A ->
  Forall (fun lc => List.length (snd lc) = List.length (index A))
         (data (added_columns B A)).
Proof.
  intros W. apply Forall_forall. intros lc Hlc.
  apply (Permutation_in _ (added_columns_absent B A)) in Hlc.
  apply filter_In in Hlc. destruct Hlc as [Hin _].
  unfold well_formed in W. rewrite Forall_forall in W. now apply W.
Qed.

Lemma new_rows_lacking (B A : DataFrame) (k : value) :
  In k (new_rows B A) -> ~ In k (index B).
Proof.
  intros Hk. apply filter_In in Hk. destruct Hk as [_ E].
  apply negb_true_iff in E. now apply key_in_not_In.
Qed.

(** The merge, column by column: the columns of the basic frame, each with a
    missing cell on every row that only the advanced frame has, followed by
    the selected columns of the advanced frame, laid out on the rows of the
    merged table. *)
Lemma merge_columns (B A : DataFrame) :
  NoDup (index A) -> NoDup (index B) -> well_formed B -> well_formed A ->
  Player.merge true [B; A] =
  Ok {| index := index B ++ new_rows B A;
        data := map (extended (new_rows B A)) (data B)
                ++ map (laid_out (index B ++ new_rows B A) (index A))
                       (data (added_columns B A)) |}.
Proof.
  intros NA NB WB WA. rewrite merge_added_columns. unfold concat_columns.
  change (index (added_columns B A)) with (index A).
  assert (EB : map (laid_out (index B ++ new_rows B A) (index B)) (data B) =
               map (extended (new_rows B A)) (data B)).
  { apply map_ext_in. intros lc Hlc. apply laid_out_extended; auto.
    - unfold well_formed in WB. rewrite Forall_forall in WB. now apply WB.
    - apply new_rows_lacking. }
  destruct (list_eqb (index B) (index A)) eqn:Eq.
  - apply list_eqb_eq in Eq.
    assert (En : new_rows B A = []).
    { unfold new_rows. rewrite <- Eq. apply filter_lacking_self. }
    rewrite En, app_nil_r, extended_nil. do 3 f_equal.
    rewrite <- (map_id (data (added_columns B A))) at 1.
    apply map_ext_in. intros lc Hlc. symmetry. rewrite Eq.
    apply laid_out_own_rows; auto.
    pose proof (added_columns_well_formed B A WA) as W.
    rewrite Forall_forall in W. now apply W.
  - apply is_unique_NoDup in NA as UA. apply is_unique_NoDup in NB as UB.
    rewrite UA, UB. cbn [andb].
    rewrite (union_keys_filter (index B) (index A) NA).
    fold (new_rows B A). rewrite !reindex_laid_out, EB. reflexivity.
Qed.

(** With the same row labels in both frames, the selected columns are put
    next to the basic frame as they are. *)
Lemma merge_same_rows (B A : DataFrame) :
  index A = index B ->
  Player.merge true [B; A] =
  Ok {| index := index B; data := data B ++ data (added_columns B A) |}.
Proof.
  intros E. rewrite merge_added_columns. unfold concat_columns.
  change (index (added_columns B A)) with (index A).
  replace (list_eqb (index B) (index A)) with true; auto.
  symmetry. now apply list_eqb_eq.
Qed.

Lemma columns_extended (new : list value) (d : list (label * column)) :
  map fst (map (extended new) d) = map fst d.
Proof. rewrite map_map. reflexivity. Qed.

Lemma columns_laid_out (rows src : list value) (d : list (label * column)) :
  map fst (map (laid_out rows src) d) = map fst d.
Proof. rewrite map_map. reflexivity. Qed.

(** C4, as amended. When the merge returns (the two tables have the same row
    labels, or each has distinct row labels), the merged table has the rows
    of the basic table followed by the rows that only the advanced table
    has, and its columns are those of the basic table, in place, followed by
    exactly the columns of the advanced table whose labels the basic table
    lacks (the selected columns are a rearrangement of them). With the same
    row labels in both tables the columns are put side by side as they are.
    With distinct row labels, a column of the basic table keeps its cells on
    the rows of the basic table and has a missing cell on each added row, a
    column of integers being held as floats once a row is added; an appended
    column holds, on each row, the cell of the advanced table on the row of
    that label, a missing cell when the advanced table has no such row. If
    the two tables share no label, the number of columns is the sum of
    theirs. If every label of the advanced table occurs in the basic table
    and every row label of the advanced table is a row label of the basic
    table, the merged table is the basic table. *)
Theorem C4_merge_appends_missing_columns (B A : DataFrame)
        (Hidx : index A = index B \/ (NoDup (index A) /\ NoDup (index B)))
        (HwfB : well_formed B) (HwfA : well_formed A) :
  exists M,
    Player.merge true [B; A] = Ok M
    /\ Permutation (data (added_columns B A)) (absent_columns B A)
    /\ index M = index B ++ new_rows B A
    /\ columns M = columns B ++ columns (added_columns B A)
    /\ (index A = index B -> data M = data B ++ data (added_columns B A))
    /\ (NoDup (index A) -> NoDup (index B) ->
        data M = map (extended (new_rows B A)) (data B)
                 ++ map (laid_out (index M) (index A))
                        (data (added_columns B A)))
    /\ ((forall l, In l (columns A) -> ~ In l (columns B)) ->
        List.length (columns M) =
        (List.length (columns B) + List.length (columns A))%nat)
    /\ ((forall l, In l (columns A) -> In l (columns B)) ->
        incl (index A) (index B) -> M = B).
Proof.
  pose proof (added_columns_absent B A) as P.
  assert (Hcount : (forall l, In l (columns A) -> ~ In l (columns B)) ->
                   List.length (columns (added_columns B A)) =
                   List.length (columns A)).
  { intros D. unfold columns. rewrite !length_map.
    rewrite (Permutation_length P). now rewrite absent_columns_all. }
  assert (Hnone : (forall l, In l (columns A) -> In l (columns B)) ->
                  data (added_columns B A) = []).
  { intros I. apply Permutation_nil. apply Permutation_sym.
    now rewrite <- (absent_columns_none B A I). }
  assert (Hrows : incl (index A) (index B) -> new_rows B A = []).
  { intros I. now apply filter_lacking_incl. }
  destruct Hidx as [E|[NA NB]].
  - (* same row labels *)
    exists {| index := index B; data := data B ++ data (added_columns B A) |}.
    assert (En : new_rows B A = []).
    { apply Hrows. rewrite E. apply incl_refl. }
    cbn [index data]. rewrite En, app_nil_r.
    split; [now apply merge_same_rows|]. split; [exact P|].
    split; [reflexivity|].
    split; [unfold columns; cbn [data]; apply map_app|].
    split; [reflexivity|]. split; [|split].
    + intros NA NB. rewrite extended_nil. f_equal.
      rewrite <- (map_id (data (added_columns B A))) at 1.
      apply map_ext_in. intros lc Hlc. symmetry. rewrite <- E.
      apply laid_out_own_rows; auto.
      pose proof (added_columns_well_formed B A HwfA) as W.
      rewrite Forall_forall in W. now apply W.
    + intros D. unfold columns at 1. cbn [data].
      rewrite map_app, length_app. f_equal. now apply Hcount.
    + intros I _. rewrite (Hnone I), app_nil_r. now destruct B.
  - (* distinct row labels in each table *)
    eexists. split; [now apply merge_columns|]. cbn [index data].
    split; [exact P|]. split; [reflexivity|].
    split; [|split; [|split; [|split]]].
    + unfold columns at 1. cbn [data].
      now rewrite map_app, columns_extended, columns_laid_out.
    + intros E. rewrite (Hrows ltac:(rewrite E; apply incl_refl)).
      rewrite app_nil_r, extended_nil. f_equal.
      rewrite <- (map_id (data (added_columns B A))) at 2.
      apply map_ext_in. intros lc Hlc. rewrite <- E.
      apply laid_out_own_rows; auto.
      pose proof (added_columns_well_formed B A HwfA) as W.
      rewrite Forall_forall in W. now apply W.
    + reflexivity.
    + intros D. unfold columns at 1. cbn [data].
      rewrite map_app, columns_extended, columns_laid_out, length_app.
      f_equal. now apply Hcount.
    + intros I J. rewrite (Hnone I), (Hrows J). cbn [map].
      rewrite !app_nil_r, extended_nil. now destruct B.
Qed.

Lemma C4_merge_witness :
  let d1 := VDate (mkdate 2017 10 17) in
  let d2 := VDate (mkdate 2017 10 20) in
  let d3 := VDate (mkdate 2017 10 21) in
  let B := {| index := [d1; d2];
              data := [(Some "MP", [VStr "41:12"; VStr "37:05"]);
                       (Some "PTS", [VInt 29; VInt 24])] |} in
  let A := {| index := [d2; d3];
              data := [(Some "MP", [VStr "37:05"; VStr "35:40"]);
                       (Some "USG%", [VStr "29.8"; VStr "31.0"])] |} in
  Player.merge true [B; A] =
  Ok {| index := [d1; d2; d3];
        data := [(Some "MP", [VStr "41:12"; VStr "37:05"; nan]);
                 (Some "PTS", [VFloat (Z2SF 29); VFloat (Z2SF 24); nan]);
                 (Some "USG%", [nan; VStr "29.8"; VStr "31.0"])] |}
  /\ exists M, Player.merge true [B; A] = Ok M
               /\ index M = index B ++ new_rows B A
               /\ columns M = columns B ++ columns (added_columns B A).
Proof.
  intros d1 d2 d3 B A. split; [reflexivity|].
  assert (WB : well_formed B) by (repeat constructor).
  assert (WA : well_formed A) by (repeat constructor).
  assert (NA : NoDup (index A))
    by (repeat constructor; simpl; intuition discriminate).
  assert (NB : NoDup (index B))
    by (repeat constructor; simpl; intuition discriminate).
  destruct (C4_merge_appends_missing_columns B A (or_intror (conj NA NB))
                                             WB WA)
    as [M [E [_ [I [C _]]]]].
  exists M. repeat split; assumption.
Defined.

(** C4 as stated fails on its last part: when the advanced table has a game
    (a row label) that the basic table lacks, the merged table has a row for
    it, filled with NaN, and the points of the basic table are held as
    floats, even though every label of the advanced table occurs in the
    basic table. *)
Lemma C4_counterexample_advanced_row_added :
  let B := {| index := [VDate (mkdate 2017 10 17)];
              data := [(Some "PTS", [VInt 29])] |} in
  let A := {| index := [VDate (mkdate 2017 10 17); VDate (mkdate 2017 10 20)];
              data := [(Some "PTS", [VInt 29; VInt 24])] |} in
  incl (columns A) (columns B)
  /\ Player.merge true [B; A] =
     Ok {| index := [VDate (mkdate 2017 10 17); VDate (mkdate 2017 10 20)];
           data := [(Some "PTS", [VFloat (Z2SF 29); nan])] |}
  /\ Player.merge true [B; A] <> Ok B.
Proof.
  intros B A. split; [|split].
  - intros l Hl. exact Hl.
  - reflexivity.
  - discriminate.
Qed.

(** ** C3: the number of tables of a box-score page *)

Lemma list_get_app {A} (xs ys : list A) (i : nat) :
  (i < List.length xs)%nat -> list_get (xs ++ ys) i = list_get xs i.
Proof. intros L. unfold list_get. now rewrite nth_error_app1. Qed.

Section BoxScoreTables.
Variable parse_date : string -> option Pandas.date.

(** What [_process_webpage] does once the frames of the tables are there
    (lines 79-89). *)
Lemma process_webpage_frames (webpage : page) :
  BoxScore._process_webpage parse_date webpage =
  bind (BoxScore._title_process parse_date (h1 webpage))
       (fun hd =>
          let '(home_team, away_team, date) := hd in
          tables <- mapM (BoxScore.table_frame) (tables webpage) ;;
          t0 <- list_get tables 0 ;;
          t1 <- list_get tables 1 ;;
          t1 <- drop (Some "MP") t1 ;;
          away_df <- concat_columns t0 t1 ;;
          t2 <- list_get tables 2 ;;
          t3 <- list_get tables 3 ;;
          t3 <- drop (Some "MP") t3 ;;
          home_df <- concat_columns t2 t3 ;;
          let away_df := setitem (Some "Team")
                                 (repeat (VStr away_team) (nrows away_df))
                                 away_df in
          let home_df := setitem (Some "Team")
                                 (repeat (VStr home_team) (nrows home_df))
                                 home_df in
          df <- concat_rows [away_df; home_df] false ;;
          Ok (h1 webpage, home_team, away_team, date, df)).
Proof. reflexivity. Qed.

Lemma process_webpage_few_tables (webpage : page) :
  (List.length (tables webpage) < 4)%nat ->
  exists e, BoxScore._process_webpage parse_date webpage = Raise e.
Proof.
  intros L. rewrite process_webpage_frames.
  destruct (BoxScore._title_process parse_date (h1 webpage))
    as [[[home away] date]|e]; [|now exists e].
  cbn [bind].
  destruct (mapM BoxScore.table_frame (tables webpage)) as [fs|e] eqn:Em;
    [|now exists e].
  apply mapM_length in Em. rewrite <- Em in L. clear Em. cbn [bind].
  destruct fs as [|f0 [|f1 [|f2 [|f3 fs]]]]; cbn [list_get nth_error bind];
    try (eexists; reflexivity).
  - destruct (drop (Some "MP") f1) as [f1'|e]; [|now exists e]. cbn [bind].
    destruct (concat_columns f0 f1') as [a|e]; [|now exists e].
    eexists; reflexivity.
  - destruct (drop (Some "MP") f1) as [f1'|e]; [|now exists e]. cbn [bind].
    destruct (concat_columns f0 f1') as [a|e]; [|now exists e].
    eexists; reflexivity.
  - simpl in L. lia.
Qed.

Lemma process_webpage_more_tables (title : string) (first4 extra : list table)
      (fs : list DataFrame) :
  List.length first4 = 4%nat ->
  mapM BoxScore.table_frame extra = Ok fs ->
  BoxScore._process_webpage parse_date (mkpage title (first4 ++ extra)) =
  BoxScore._process_webpage parse_date (mkpage title first4).
Proof.
  intros L Ex. rewrite !process_webpage_frames. cbn [h1 tables].
  destruct (BoxScore._title_process parse_date title)
    as [[[home away] date]|e]; [|reflexivity].
  cbn [bind]. rewrite mapM_app, Ex.
  destruct (mapM BoxScore.table_frame first4) as [a|e] eqn:Ea;
    [|reflexivity].
  apply mapM_length in Ea. rewrite L in Ea. cbn [bind].
  rewrite !list_get_app by lia. reflexivity.
Qed.
End BoxScoreTables.

(** C3, as amended. Parsing fails whenever the page has fewer than four
    tables (every table of the page counts, there is no filter). More than
    four tables do not make it fail: the first four are taken as away-basic,
    away-advanced, home-basic and home-advanced, and the others, once their
    rows are extracted, are ignored; neither the number of tables nor their
    order or role is validated. *)
Theorem C3_fewer_than_four_tables_fail
        (parse_date : string -> option Pandas.date) (webpage : page)
        (Hfew : (List.length (tables webpage) < 4)%nat) :
  (exists e, BoxScore._process_webpage parse_date webpage = Raise e)
  /\ (forall pq uri, pq (BoxScore.BOXSCORE_URL uri) = Ok webpage ->
                     exists e, BoxScore.__init__ parse_date pq uri = Raise e)
  /\ (forall title first4 extra fs,
        List.length first4 = 4%nat ->
        mapM BoxScore.table_frame extra = Ok fs ->
        BoxScore._process_webpage parse_date (mkpage title (first4 ++ extra))
        = BoxScore._process_webpage parse_date (mkpage title first4)).
Proof.
  split; [|split].
  - now apply process_webpage_few_tables.
  - intros pq uri Epq. unfold BoxScore.__init__. rewrite Epq. cbn [bind].
    destruct (process_webpage_few_tables parse_date webpage Hfew) as [e E].
    rewrite E. now exists e.
  - intros title first4 extra fs. apply process_webpage_more_tables.
Qed.

Lemma C3_fewer_than_four_witness :
  exists e,
    BoxScore._process_webpage
      Sample.site_date
      (mkpage Mock.finals_title
              [Mock.basic_table Mock.warriors;
               Mock.advanced_table Mock.warriors;
               Mock.basic_table Mock.cavaliers]) = Raise e.
Proof.
  refine (proj1 (C3_fewer_than_four_tables_fail Sample.site_date _ _)).
  simpl. lia.
Defined.

(** C3 as stated fails for more than four tables: with a fifth table on the
    page the box score is parsed as before. *)
Lemma C3_counterexample_five_tables_parse :
  let webpage := mkpage Mock.finals_title
                        (tables Mock.finals_page ++ [Mock.four_factors]) in
  List.length (tables webpage) = 5%nat
  /\ exists bs,
       BoxScore.__init__ Sample.site_date
                         (Sample.web_with Mock.finals_url webpage)
                         "201806080CLE" = Ok bs
       /\ BoxScore.home_team bs = "Cleveland Cavaliers"
       /\ BoxScore.away_team bs = "Golden State Warriors"
       /\ index (BoxScore.df bs) =
          [VStr "Kevin Durant"; VStr "Klay Thompson";
           VStr "LeBron James"; VStr "Kyle Korver"]
       /\ BoxScore.final_score bs =
          {| index := [VStr "Cleveland Cavaliers";
                       VStr "Golden State Warriors"];
             data := [(Some "PTS", [VInt 31; VInt 27])] |}.
Proof.
  intros webpage. split; [reflexivity|].
  eexists. split; [vm_compute; reflexivity|]. repeat split.
Qed.

(** ** C8: rows and final score of a box score *)

Lemma filter_map_comm {A B} (p : B -> bool) (f : A -> B) (xs : list A) :
  filter p (map f xs) = map f (filter (fun x => p (f x)) xs).
Proof.
  induction xs as [|x xs IH]; simpl; auto.
  destruct (p (f x)); simpl; now rewrite IH.
Qed.

Lemma mask_filter_map {A B} (p : A -> bool) (g : A -> B) (xs : list A) :
  mask_filter (map p xs) (map g xs) = map g (filter p xs).
Proof.
  induction xs as [|x xs IH]; simpl; auto.
  destruct (p x); simpl; now rewrite IH.
Qed.

Section FoldSet.
Context {K V : Type} `{EqKeyLaws K}.

Lemma dict_set_fresh (d : dict K V) (k : K) (v : V) :
  ~ In k (dict_keys d) -> dict_set d k v = d ++ [(k, v)].
Proof.
  induction d as [|[k' v'] d IH]; simpl; auto.
  intros N. destruct (key_eqb k k') eqn:E.
  - apply key_eqb_eq in E. subst. tauto.
  - rewrite IH; auto.
Qed.

Lemma dict_fold_set_distinct (kvs : list (K * V)) (d : dict K V) :
  NoDup (dict_keys d ++ map fst kvs) ->
  fold_left (fun d kv => dict_set d (fst kv) (snd kv)) kvs d = d ++ kvs.
Proof.
  revert d. induction kvs as [|[k v] kvs IH]; intros d N; simpl.
  - now rewrite app_nil_r.
  - simpl in N. rewrite dict_set_fresh.
    + rewrite IH.
      * now rewrite <- app_assoc.
      * unfold dict_keys in *. rewrite map_app, <- app_assoc. exact N.
    + apply NoDup_remove_2 in N. intros Hin. apply N. apply in_or_app. now left.
Qed.
End FoldSet.

Lemma data_row_basic (l : Mock.line) :
  data_row (Mock.basic_row l) = negb (Mock.is_heading l).
Proof. now destruct l. Qed.

Lemma data_row_advanced (l : Mock.line) :
  data_row (Mock.advanced_row l) = negb (Mock.is_heading l).
Proof. now destruct l. Qed.

Lemma th_text_basic (l : Mock.line) : th_text (Mock.basic_row l) = Mock.name_of l.
Proof. now destruct l. Qed.

Lemma th_text_advanced (l : Mock.line) : th_text (Mock.advanced_row l) = Mock.name_of l.
Proof. now destruct l. Qed.

(** The rows dictionary of a generated table. *)
Lemma mock_table_rows (row : Mock.line -> tr) (ls : list Mock.line) :
  (forall l, data_row (row l) = negb (Mock.is_heading l)) ->
  (forall l, th_text (row l) = Mock.name_of l) ->
  NoDup (map Mock.name_of (Mock.roster ls)) ->
  BoxScore.table_rows (map row ls) [] =
  map (fun l => (Mock.name_of l, BoxScore.row_data (row l))) (Mock.roster ls).
Proof.
  intros Hd Ht N. rewrite BoxScore_table_rows_spec, filter_map_comm, map_map.
  rewrite dict_fold_set_distinct.
  - cbn [app]. unfold Mock.roster. 
    rewrite (filter_ext _ (fun l => negb (Mock.is_heading l))) by (intros; apply Hd).
    apply map_ext. intros l. now rewrite Ht.
  - cbn [dict_keys map app]. rewrite map_map. cbn [fst].
    rewrite (filter_ext _ (fun l => negb (Mock.is_heading l))) by (intros; apply Hd).
    erewrite map_ext; [exact N|]. intros l. cbn. apply Ht.
Qed.

Section UnionKeysMore.
Context {K : Type} `{EqKeyLaws K}.

Lemma union_keys_fresh (acc ks : list K) :
  NoDup ks -> (forall k, In k ks -> ~ In k acc) ->
  union_keys acc ks = acc ++ ks.
Proof.
  unfold union_keys. intros N. revert acc.
  induction N as [|k ks Hnin N IH]; intros acc D; simpl.
  - now rewrite app_nil_r.
  - assert (E : key_in k acc = false)
      by (apply key_in_not_In; apply D; now left).
    rewrite E, IH.
    + now rewrite <- app_assoc.
    + intros k' Hk' Hin. apply in_app_or in Hin. destruct Hin as [Hin|[<-|[]]].
      * apply (D k'); auto. now right.
      * contradiction.
Qed.
End UnionKeysMore.

(** The column labels of the table of a roster: the tags of a player who
    played and the [reason] tag, whichever comes first. *)
Lemma mock_record_keys (row : Mock.line -> tr) (kp : list label)
      (ls : list Mock.line) :
  NoDup kp -> ~ In (Some "reason") kp ->
  (forall l, Mock.is_played l = true ->
             dict_keys (BoxScore.row_data (row l)) = kp) ->
  (forall l, Mock.is_idle l = true ->
             dict_keys (BoxScore.row_data (row l)) = [Some "reason"]) ->
  Mock.played ls <> [] -> filter Mock.is_idle ls <> [] ->
  let K := record_keys (map (fun l => BoxScore.row_data (row l))
                            (Mock.roster ls)) in
  K = kp ++ [Some "reason"] \/ K = Some "reason" :: kp.
Proof.
  intros Nk Hr Hp Hi. unfold record_keys.
  set (step := fun acc r => union_keys acc (dict_keys (K:=label) (V:=value) r)).
  assert (Stable : forall acc ls',
             incl kp acc -> In (Some "reason") acc ->
             fold_left step (map (fun l => BoxScore.row_data (row l))
                                 (Mock.roster ls')) acc = acc).
  { intros acc ls' Ik Ir. induction ls' as [|l ls' IH]; auto.
    unfold Mock.roster in *. cbn [filter].
    destruct l as [n mm ss fg pts ts usg|n r|t]; cbn [Mock.is_heading negb map fold_left]; auto.
    - unfold step at 2. rewrite Hp by reflexivity.
      now rewrite union_keys_incl.
    - unfold step at 2. rewrite Hi by reflexivity.
      rewrite union_keys_incl; auto. intros x [<-|[]]. exact Ir. }
  assert (FromP : forall ls', filter Mock.is_idle ls' <> [] ->
             fold_left step (map (fun l => BoxScore.row_data (row l))
                                 (Mock.roster ls')) kp = kp ++ [Some "reason"]).
  { induction ls' as [|l ls' IH]; intros Hne; [now contradiction Hne|].
    unfold Mock.roster in *. cbn [filter] in *.
    destruct l as [n mm ss fg pts ts usg|n r|t]; cbn [Mock.is_heading Mock.is_idle negb map fold_left] in *; auto.
    - unfold step at 2. rewrite Hp by reflexivity.
      rewrite union_keys_incl by apply incl_refl. auto.
    - unfold step at 2. rewrite Hi by reflexivity.
      rewrite union_keys_fresh.
      + apply Stable.
        * apply incl_appl, incl_refl.
        * apply in_or_app. right. now left.
      + repeat constructor. intros [].
      + intros k [<-|[]]. exact Hr. }
  assert (FromI : forall ls', Mock.played ls' <> [] ->
             fold_left step (map (fun l => BoxScore.row_data (row l))
                                 (Mock.roster ls')) [Some "reason"]
             = Some "reason" :: kp).
  { induction ls' as [|l ls' IH]; intros Hne; [now contradiction Hne|].
    unfold Mock.roster, Mock.played in *. cbn [filter] in *.
    destruct l as [n mm ss fg pts ts usg|n r|t]; cbn [Mock.is_heading Mock.is_played negb map fold_left] in *; auto.
    - unfold step at 2. rewrite Hp by reflexivity.
      rewrite union_keys_fresh; auto.
      + apply (Stable (Some "reason" :: kp)).
        * apply incl_tl, incl_refl.
        * now left.
      + intros k Hk [<-|[]]. contradiction.
    - unfold step at 2. rewrite Hi by reflexivity.
      rewrite union_keys_incl by apply incl_refl. auto. }
  intros Hpl Hid.
  induction ls as [|l ls IH]; [now contradiction Hpl|].
  unfold Mock.roster, Mock.played in *. cbn [filter] in *.
  destruct l as [n mm ss fg pts ts usg|n r|t]; cbn [Mock.is_heading Mock.is_played Mock.is_idle negb map fold_left] in *; auto.
  - left. unfold step at 2. rewrite Hp by reflexivity.
    rewrite union_keys_fresh by (auto; intros k _ []).
    cbn [app]. now apply FromP.
  - right. unfold step at 2. rewrite Hi by reflexivity.
    rewrite union_keys_fresh.
    + cbn [app]. now apply FromI.
    + repeat constructor. intros [].
    + intros k _ [].
Qed.

Lemma played_of_roster (ls : list Mock.line) :
  filter Mock.is_played (Mock.roster ls) = Mock.played ls.
Proof.
  unfold Mock.roster, Mock.played.
  induction ls as [|l ls IH]; simpl; auto.
  destruct l; simpl; now rewrite IH.
Qed.

Lemma roster_In (ls : list Mock.line) (l : Mock.line) :
  In l (Mock.roster ls) -> In l ls /\ Mock.is_heading l = false.
Proof.
  unfold Mock.roster. rewrite filter_In, negb_true_iff. tauto.
Qed.

Lemma cell_of_text (t : string) : t <> "" -> Mock.cell_of t = VStr t.
Proof.
  intros N. unfold Mock.cell_of. fold Player.replace. rewrite replace_blank.
  apply String.eqb_neq in N. now rewrite N.
Qed.

(** In a generated table, the cell under [reason] is missing exactly for the
    players who played. *)
Lemma reason_null (row : Mock.line -> tr) (ls : list Mock.line)
      (l : Mock.line) :
  (forall n mm ss fg pts ts usg,
      dict_get (BoxScore.row_data (row (Mock.Played n mm ss fg pts ts usg)))
               (Some "reason") = None) ->
  (forall n r,
      dict_get (BoxScore.row_data (row (Mock.Idle n r))) (Some "reason")
      = Some (Mock.cell_of r)) ->
  Forall Mock.played_ok ls ->
  In l (Mock.roster ls) ->
  isnull (dict_get_default (BoxScore.row_data (row l)) (Some "reason") nan)
  = Mock.is_played l.
Proof.
  intros Hp Hi Hok Hin. apply roster_In in Hin. destruct Hin as [Hin Hh].
  rewrite Forall_forall in Hok. specialize (Hok l Hin).
  unfold dict_get_default.
  destruct l as [n mm ss fg pts ts usg|n r|t]; [| |discriminate].
  - now rewrite Hp.
  - rewrite Hi. simpl in Hok. now rewrite cell_of_text.
Qed.

Ltac mock_table_frame row kp :=
  let N := fresh "N" in let One := fresh "One" in
  let Som := fresh "Som" in let Hok := fresh "Hok" in
  intros [N One Som Hok];
  unfold BoxScore.table_frame, BoxScore.table_extract;
  cbn [tbody_tr thead_tr1_th Mock.basic_table Mock.advanced_table];
  rewrite (mock_table_rows row) by (auto; intros l; now destruct l);
  unfold DataFrame_of_dict_T; rewrite !map_map; cbn [fst snd];
  assert (Hid : filter Mock.is_idle _ <> [])
    by (intros E; rewrite E in One; discriminate);
  let EK := fresh "EK" in
  destruct (mock_record_keys row kp _
              ltac:(repeat constructor; simpl; intuition discriminate)
              ltac:(simpl; intuition discriminate)
              ltac:(intros l P; destruct l; try discriminate P; reflexivity)
              ltac:(intros l P; destruct l; try discriminate P; reflexivity)
              Som Hid) as [EK|EK];
  rewrite EK; clear EK.

Lemma basic_pipeline (idx c1 c2 c3 c4 : list value) :
  BoxScore.drop_did_not_play
    (rename (dict_of_items (map (fun c => (data_stat c, text c))
                                Mock.basic_head))
            {| index := idx;
               data := [(Some "mp", c1); (Some "fg_pct", c2);
                        (Some "pts", c3); (Some "reason", c4)] |})
  = Ok {| index := mask_filter (map isnull c4) idx;
          data := [(Some "MP", mask_filter (map isnull c4) c1);
                   (Some "FG%", mask_filter (map isnull c4) c2);
                   (Some "PTS", mask_filter (map isnull c4) c3)] |}
  /\ BoxScore.drop_did_not_play
    (rename (dict_of_items (map (fun c => (data_stat c, text c))
                                Mock.basic_head))
            {| index := idx;
               data := [(Some "reason", c4); (Some "mp", c1);
                        (Some "fg_pct", c2); (Some "pts", c3)] |})
  = Ok {| index := mask_filter (map isnull c4) idx;
          data := [(Some "MP", mask_filter (map isnull c4) c1);
                   (Some "FG%", mask_filter (map isnull c4) c2);
                   (Some "PTS", mask_filter (map isnull c4) c3)] |}.
Proof. split; reflexivity. Qed.

Lemma advanced_pipeline (idx c1 c2 c3 c4 : list value) :
  BoxScore.drop_did_not_play
    (rename (dict_of_items (map (fun c => (data_stat c, text c))
                                Mock.advanced_head))
            {| index := idx;
               data := [(Some "mp", c1); (Some "ts_pct", c2);
                        (Some "usg_pct", c3); (Some "reason", c4)] |})
  = Ok {| index := mask_filter (map isnull c4) idx;
          data := [(Some "MP", mask_filter (map isnull c4) c1);
                   (Some "TS%", mask_filter (map isnull c4) c2);
                   (Some "USG%", mask_filter (map isnull c4) c3)] |}
  /\ BoxScore.drop_did_not_play
    (rename (dict_of_items (map (fun c => (data_stat c, text c))
                                Mock.advanced_head))
            {| index := idx;
               data := [(Some "reason", c4); (Some "mp", c1);
                        (Some "ts_pct", c2); (Some "usg_pct", c3)] |})
  = Ok {| index := mask_filter (map isnull c4) idx;
          data := [(Some "MP", mask_filter (map isnull c4) c1);
                   (Some "TS%", mask_filter (map isnull c4) c2);
                   (Some "USG%", mask_filter (map isnull c4) c3)] |}.
Proof. split; reflexivity. Qed.

Ltac mock_columns row Hok :=
  rewrite !map_map;
  rewrite (map_ext_in _ Mock.is_played)
    by (intros l Hl;
        apply (reason_null row _ l
                 ltac:(intros; reflexivity) ltac:(intros; reflexivity)
                 Hok Hl));
  rewrite !mask_filter_map, played_of_roster;
  unfold Mock.basic_frame, Mock.advanced_frame; do 2 f_equal;
  repeat (f_equal;
          try (apply map_ext_in; intros l Hl;
               apply filter_In in Hl; destruct Hl as [_ Hl];
               destruct l; try discriminate Hl; reflexivity)).

Lemma table_frame_basic (ls : list Mock.line) :
  Mock.side_ok ls ->
  BoxScore.table_frame (Mock.basic_table ls) =
  Ok (Mock.basic_frame (Mock.played ls)).
Proof.
  mock_table_frame Mock.basic_row [Some "mp"; Some "fg_pct"; Some "pts"];
    cbn [map app].
  - rewrite (proj1 (basic_pipeline _ _ _ _ _)).
    mock_columns Mock.basic_row Hok.
  - rewrite (proj2 (basic_pipeline _ _ _ _ _)).
    mock_columns Mock.basic_row Hok.
Qed.

Lemma table_frame_advanced (ls : list Mock.line) :
  Mock.side_ok ls ->
  BoxScore.table_frame (Mock.advanced_table ls) =
  Ok (Mock.advanced_frame (Mock.played ls)).
Proof.
  mock_table_frame Mock.advanced_row
                   [Some "mp"; Some "ts_pct"; Some "usg_pct"];
    cbn [map app].
  - rewrite (proj1 (advanced_pipeline _ _ _ _ _)).
    mock_columns Mock.advanced_row Hok.
  - rewrite (proj2 (advanced_pipeline _ _ _ _ _)).
    mock_columns Mock.advanced_row Hok.
Qed.

Lemma concat_columns_same_index (a b : DataFrame) :
  index a = index b ->
  concat_columns a b = Ok {| index := index a; data := data a ++ data b |}.
Proof.
  intros E. unfold concat_columns.
  assert (L : list_eqb (index a) (index b) = true) by (now apply list_eqb_eq).
  now rewrite L.
Qed.

Lemma drop_MP_advanced (ps : list Mock.line) :
  drop (Some "MP") (Mock.advanced_frame ps) =
  Ok {| index := map (fun l => VStr (Mock.name_of l)) ps;
        data := [(Some "TS%", map (fun l => Mock.cell_of (Mock.ts_text l)) ps);
                 (Some "USG%", map (fun l => Mock.cell_of (Mock.usg_text l)) ps)] |}.
Proof. reflexivity. Qed.

(** *** Numbers written in digits *)

Lemma digit_not_space_c (c : ascii) : is_digit c = true -> is_space_c c = false.
Proof.
  destruct c as [[] [] [] [] [] [] [] []]; try discriminate; reflexivity.
Qed.

Lemma span_digits_all (s : string) :
  digits_only s = true -> span_digits s = (s, EmptyString).
Proof.
  induction s as [|c s IH]; simpl; auto.
  intros D. apply andb_true_iff in D. destruct D as [Dc D].
  now rewrite Dc, IH.
Qed.

Lemma parse_number_decimal (s : string) :
  decimal s = true -> parse_number s = Some (NumInt (digits_value s 0)).
Proof.
  unfold decimal. intros D. apply andb_true_iff in D. destruct D as [Hne D].
  destruct s as [|c s]; [discriminate|].
  assert (Dc : is_digit c = true)
    by (cbn [digits_only] in D; now apply andb_true_iff in D).
  unfold parse_number.
  assert (Hskip : skip_space_c (String c s) = String c s)
    by (cbn [skip_space_c]; now rewrite digit_not_space_c).
  assert (Hsign : parse_sign (String c s) = (false, String c s))
    by (destruct c as [[] [] [] [] [] [] [] []]; try discriminate Dc;
        reflexivity).
  rewrite Hskip, Hsign, (span_digits_all _ D). reflexivity.
Qed.

Lemma to_numeric_scalar_decimal (s : string) :
  decimal s = true -> digits_value s 0 <= int64_max ->
  to_numeric_scalar (VStr s) = Some (VInt (digits_value s 0)).
Proof.
  intros D R. pose proof (parse_number_decimal s D) as P.
  assert (0 <= digits_value s 0).
  { apply digits_value_nonneg; [|lia]. unfold decimal in D.
    now apply andb_true_iff in D. }
  destruct s as [|c s]; [discriminate|].
  cbn [to_numeric_scalar]. rewrite P.
  replace (int64_min <=? _) with true
    by (symmetry; apply Z.leb_le; unfold int64_min; lia).
  replace (_ <=? uint64_max) with true
    by (symmetry; apply Z.leb_le; unfold int64_max, uint64_max in *; lia).
  reflexivity.
Qed.

(** A column of integers written in digits is coerced to these integers. *)
Lemma to_numeric_ignore_decimals (ts : list string) :
  Forall (fun t => decimal t = true /\ digits_value t 0 <= int64_max) ts ->
  to_numeric_ignore (map VStr ts) = map (fun t => VInt (digits_value t 0)) ts.
Proof.
  intros Hts. unfold to_numeric_ignore, convert_numeric.
  assert (M : mapO to_numeric_scalar (map VStr ts)
              = Some (map (fun t => VInt (digits_value t 0)) ts)).
  { induction Hts as [|t ts [D R] _ IH]; [reflexivity|].
    cbn [map mapO]. rewrite to_numeric_scalar_decimal by assumption.
    now rewrite IH. }
  rewrite M. unfold unify_numeric.
  assert (B : existsb is_big_uint (map (fun t => VInt (digits_value t 0)) ts)
              = false).
  { clear M. induction Hts as [|t ts [D R] _ IH]; [reflexivity|].
    cbn [map existsb is_big_uint]. rewrite IH.
    replace (int64_max <? digits_value t 0) with false; auto.
    symmetry. apply Z.ltb_ge. exact R. }
  rewrite B. cbn [andb].
  assert (F : existsb is_float (map (fun t => VInt (digits_value t 0)) ts)
              = false)
    by (clear; induction ts; simpl; auto).
  rewrite F. destruct (existsb is_int _); auto.
  rewrite map_map. reflexivity.
Qed.

Lemma dtype_of_int64 (zs : list Z) :
  Forall (fun z => z <= int64_max) zs -> dtype_of (map VInt zs) = Int64.
Proof.
  intros R. unfold dtype_of.
  assert (I : forallb is_int (map VInt zs) = true)
    by (clear; induction zs; simpl; auto).
  assert (B : existsb is_big_uint (map VInt zs) = false).
  { clear I. induction R as [|z zs Hz _ IH]; [reflexivity|].
    cbn [map existsb is_big_uint]. rewrite IH.
    replace (int64_max <? z) with false; auto.
    symmetry. now apply Z.ltb_ge. }
  now rewrite I, B.
Qed.
(** *** The page of a game *)

Lemma process_box_page (parse_date : string -> option Pandas.date)
      (title : string) (away home : list Mock.line)
      (home_team away_team : string) (date : value) :
  Mock.side_ok away -> Mock.side_ok home ->
  BoxScore._title_process parse_date title = Ok (home_team, away_team, date) ->
  BoxScore._process_webpage parse_date (Mock.box_page title away home) =
  Ok (title, home_team, away_team, date,
      Mock.game_frame away_team home_team
                      (Mock.played away) (Mock.played home)).
Proof.
  intros Ha Hh Ht.
  rewrite process_webpage_frames. cbn [h1 tables Mock.box_page].
  rewrite Ht. cbn [bind mapM].
  rewrite !table_frame_basic, !table_frame_advanced by assumption.
  cbn [bind list_get nth_error].
  rewrite !drop_MP_advanced. cbn [bind].
  rewrite !concat_columns_same_index by reflexivity.
  cbn [bind].
  generalize (Mock.played away) (Mock.played home). intros pa ph.
  cbn. unfold Mock.game_frame, Mock.team_column.
  now rewrite app_nil_r, !map_app, !length_map.
Qed.

(** A frame with distinct labels, one of them [MP], is type-converted as
    soon as its minutes convert. *)
Lemma type_convert_intro (df : DataFrame) (mp mp' : column) :
  is_unique (filter (fun c => negb (key_eqb c (Some "MP"))) (columns df))
  = true ->
  columns_named (Some "MP") df = [mp] ->
  BoxScore.convert_MP mp = Ok mp' ->
  BoxScore._type_convert df =
  Ok {| index := index df; data := map (converted_column mp') (data df) |}.
Proof.
  intros U M E. unfold BoxScore._type_convert. rewrite U.
  match goal with
  | |- bind (Ok ?d) _ = _ => set (df1 := d)
  end.
  cbn [bind].
  assert (C : columns_named (Some "MP") df1 = columns_named (Some "MP") df).
  { unfold columns_named, df1. simpl. apply columns_named_map_keep.
    - intros lc. now destruct (key_eqb _ _).
    - intros lc K. rewrite key_eqb_sym in K.
      change label with (option string) in *. now rewrite K. }
  unfold BoxScore.getattr_series. rewrite C, M. cbn [bind]. rewrite E.
  cbn [bind]. unfold setitem. rewrite has_column_columns_named, C, M.
  simpl. f_equal. f_equal. unfold df1. simpl. rewrite map_map.
  apply map_ext. intros lc. unfold converted_column.
  change label with (option string) in *.
  destruct (key_eqb (fst lc) (Some "MP")) eqn:K; simpl;
    rewrite (key_eqb_sym (Some "MP")), K; reflexivity.
Qed.

Lemma type_convert_pipeline (idx c1 c2 c3 c4 c5 c6 mp : list value) :
  BoxScore.convert_MP c1 = Ok mp ->
  BoxScore._type_convert
    {| index := idx;
       data := [(Some "MP", c1); (Some "FG%", c2); (Some "PTS", c3);
                (Some "TS%", c4); (Some "USG%", c5); (Some "Team", c6)] |}
  = Ok {| index := idx;
          data := [(Some "MP", mp); (Some "FG%", to_numeric_ignore c2);
                   (Some "PTS", to_numeric_ignore c3);
                   (Some "TS%", to_numeric_ignore c4);
                   (Some "USG%", to_numeric_ignore c5);
                   (Some "Team", to_numeric_ignore c6)] |}.
Proof.
  intros E.
  rewrite (type_convert_intro _ c1 mp); [reflexivity | reflexivity | reflexivity | exact E].
Qed.

Lemma played_In (ls : list Mock.line) (l : Mock.line) :
  Forall Mock.played_ok ls -> In l (Mock.played ls) ->
  exists n mm ss fg pts ts usg,
    l = Mock.Played n mm ss fg pts ts usg
    /\ decimal mm = true /\ decimal ss = true /\ decimal pts = true
    /\ digits_value mm 0 <= int64_max /\ digits_value ss 0 <= int64_max
    /\ digits_value pts 0 <= int64_max.
Proof.
  intros Hok Hin. apply filter_In in Hin. destruct Hin as [Hin P].
  rewrite Forall_forall in Hok. specialize (Hok l Hin).
  destruct l as [n mm ss fg pts ts usg| |]; try discriminate P.
  exists n, mm, ss, fg, pts, ts, usg. simpl in Hok. tauto.
Qed.

Lemma decimal_nonempty (s : string) : decimal s = true -> s <> "".
Proof. destruct s; [discriminate | discriminate]. Qed.

(** The players who played, as a list of lines that are all well-formed
    [Played] lines. *)
Lemma all_played_of_side (ls : list Mock.line) :
  Mock.side_ok ls -> all_played (Mock.played ls).
Proof.
  intros [_ _ _ Hok]. unfold all_played. apply Forall_forall. intros l Hl.
  now apply (played_In ls).
Qed.

Lemma minutes_column (ps : list Mock.line) :
  all_played ps ->
  BoxScore.convert_MP (map (fun l => Mock.cell_of (Mock.minutes_text l)) ps)
  = Ok (map Mock.minutes_played ps).
Proof.
  intros Hp. unfold all_played in Hp.
  rewrite (map_ext_in _ (fun l => clock (Mock.clock_parts l))).
  - rewrite <- (map_map Mock.clock_parts clock), convert_MP_clocks.
    + now rewrite map_map.
    + apply Forall_map. eapply Forall_impl; [|exact Hp].
      intros l (n & mm & ss & fg & pts & ts & usg & -> & H). simpl. tauto.
  - intros l Hl. rewrite Forall_forall in Hp.
    destruct (Hp l Hl) as (n & mm & ss & fg & pts & ts & usg & -> & D & _).
    unfold clock. cbn [Mock.minutes_text Mock.clock_parts fst snd].
    apply cell_of_text. apply decimal_nonempty in D.
    destruct mm; [congruence | discriminate].
Qed.

Lemma points_column (ps : list Mock.line) :
  all_played ps ->
  to_numeric_ignore (map (fun l => Mock.cell_of (Mock.points_text l)) ps)
  = map (fun l => VInt (Mock.points l)) ps.
Proof.
  intros Hp. unfold all_played in Hp.
  rewrite (map_ext_in _ (fun l => VStr (Mock.points_text l))).
  - rewrite <- (map_map Mock.points_text VStr), to_numeric_ignore_decimals.
    + now rewrite map_map.
    + apply Forall_map. eapply Forall_impl; [|exact Hp].
      intros l (n & mm & ss & fg & pts & ts & usg & -> & H). simpl. tauto.
  - intros l Hl. rewrite Forall_forall in Hp.
    destruct (Hp l Hl) as (n & mm & ss & fg & pts & ts & usg & -> & _ & _ & D & _).
    apply cell_of_text. now apply decimal_nonempty.
Qed.

Lemma team_column_text (away_team home_team : string)
      (pa ph : list Mock.line) :
  pa <> [] -> to_numeric_scalar (VStr away_team) = None ->
  to_numeric_ignore (Mock.team_column away_team home_team pa ph)
  = Mock.team_column away_team home_team pa ph.
Proof.
  intros Hne Ha. apply (to_numeric_ignore_unchanged _ (VStr away_team)); auto.
  unfold Mock.team_column. destruct pa; [congruence|]. simpl. now left.
Qed.

Lemma type_convert_game (away_team home_team : string) (date : value)
      (pa ph : list Mock.line) :
  all_played pa -> all_played ph -> pa <> [] ->
  to_numeric_scalar (VStr away_team) = None ->
  exists df,
    BoxScore._type_convert (Mock.game_frame away_team home_team pa ph) = Ok df
    /\ setitem (Some "date") (repeat date (nrows df)) df
       = Mock.box_score_frame away_team home_team date pa ph.
Proof.
  intros Ha Hh Hne Hn. unfold Mock.game_frame. eexists.
  assert (Hall : all_played (pa ++ ph))
    by (unfold all_played in *; apply Forall_app; now split).
  rewrite (type_convert_pipeline _ _ _ _ _ _ _ _ (minutes_column _ Hall)).
  rewrite points_column by assumption.
  rewrite team_column_text by assumption.
  split; [reflexivity|].
  unfold Mock.box_score_frame, setitem, nrows.
  cbn [index data has_column key_in columns map fst existsb].
  cbn. now rewrite length_map.
Qed.
(** *** The final score *)

Lemma groupby_pipeline (idx c1 c2 c3 c4 c5 c6 c7 sums : list value) :
  mapM (fun k => sum_cells (dtype_of c3) (group_cells c6 c3 k)) (group_keys c6)
  = Ok sums ->
  groupby_sum (Some "Team") (Some "PTS")
    {| index := idx;
       data := [(Some "MP", c1); (Some "FG%", c2); (Some "PTS", c3);
                (Some "TS%", c4); (Some "USG%", c5); (Some "Team", c6);
                (Some "date", c7)] |}
  = Ok {| index := group_keys c6; data := [(Some "PTS", sums)] |}.
Proof.
  intros E. unfold groupby_sum.
  change (getitem (Some "Team") _) with (Ok (A := column) c6). cbn [bind].
  change (columns_named (Some "PTS") _) with [c3].
  cbn [mapM bind]. rewrite E. reflexivity.
Qed.

Lemma filter_repeat {A} (p : A -> bool) (x : A) (n : nat) :
  filter p (repeat x n) = if p x then repeat x n else [].
Proof.
  induction n as [|n IH]; simpl; [now destruct (p x)|].
  rewrite IH. now destruct (p x).
Qed.

Lemma union_keys_app {K} `{EqKey K} (acc xs ys : list K) :
  union_keys acc (xs ++ ys) = union_keys (union_keys acc xs) ys.
Proof. unfold union_keys. apply fold_left_app. Qed.

Lemma union_keys_repeat {K} `{EqKeyLaws K} (acc : list K) (x : K) (n : nat) :
  In x acc -> union_keys acc (repeat x n) = acc.
Proof.
  intros Hin. apply union_keys_incl. intros y Hy.
  apply repeat_spec in Hy. now subst.
Qed.

Lemma union_keys_repeat_fresh {K} `{EqKeyLaws K} (acc : list K) (x : K)
      (n : nat) :
  ~ In x acc -> union_keys acc (repeat x (S n)) = acc ++ [x].
Proof.
  intros Hnin. cbn [repeat]. unfold union_keys. cbn [fold_left].
  apply key_in_not_In in Hnin. rewrite Hnin.
  apply (union_keys_repeat (acc ++ [x]) x n).
  apply in_or_app. right. now left.
Qed.

(** The groups of a game are its two teams, in alphabetical order. *)
Lemma group_keys_teams (away_team home_team : string)
      (pa ph : list Mock.line) :
  pa <> [] -> ph <> [] -> away_team <> home_team ->
  group_keys (Mock.team_column away_team home_team pa ph) =
  if String.leb home_team away_team
  then [VStr home_team; VStr away_team]
  else [VStr away_team; VStr home_team].
Proof.
  intros Ha Hh Hne. unfold group_keys, Mock.team_column.
  rewrite filter_app, !filter_repeat. cbn [isnull negb].
  destruct pa as [|la pa]; [congruence|].
  destruct ph as [|lh ph]; [congruence|].
  cbn [List.length]. rewrite union_keys_app.
  rewrite (union_keys_repeat_fresh [] (VStr away_team)) by (intros []).
  cbn [app]. rewrite union_keys_repeat_fresh.
  - reflexivity.
  - intros [E|[]]. congruence.
Qed.

Lemma combine_app {A B} (xs xs' : list A) (ys ys' : list B) :
  List.length xs = List.length ys ->
  combine (xs ++ xs') (ys ++ ys') = combine xs ys ++ combine xs' ys'.
Proof.
  revert ys. induction xs as [|x xs IH]; intros [|y ys] L; try discriminate;
    simpl; auto.
  f_equal. apply IH. now injection L.
Qed.

Lemma group_cells_repeat (k x : value) (c : column) :
  group_cells (repeat x (List.length c)) c k =
  if value_eqb x k then c else [].
Proof.
  unfold group_cells. induction c as [|v c IH]; simpl.
  - now destruct (value_eqb x k).
  - destruct (value_eqb x k); simpl; now rewrite IH.
Qed.

Lemma group_cells_teams (away_team home_team : string) (k : value)
      {A} (f : A -> value) (pa ph : list A) :
  group_cells (repeat (VStr away_team) (List.length pa)
               ++ repeat (VStr home_team) (List.length ph))
              (map f (pa ++ ph)) k =
  (if value_eqb (VStr away_team) k then map f pa else [])
  ++ (if value_eqb (VStr home_team) k then map f ph else []).
Proof.
  unfold group_cells. rewrite map_app, combine_app
    by (now rewrite repeat_length, length_map).
  rewrite filter_app, map_app.
  rewrite <- (length_map f pa), <- (length_map f ph).
  fold (group_cells (repeat (VStr away_team) (List.length (map f pa)))
                    (map f pa) k).
  fold (group_cells (repeat (VStr home_team) (List.length (map f ph)))
                    (map f ph) k).
  now rewrite !group_cells_repeat.
Qed.

Lemma total_points_nonneg (ps : list Mock.line) :
  all_played ps -> 0 <= Mock.total_points ps.
Proof.
  unfold Mock.total_points. intros Hp.
  assert (G : forall acc, 0 <= acc ->
                          0 <= fold_left Z.add (map Mock.points ps) acc).
  { induction Hp as [|l ps Hl _ IH]; intros acc A; simpl; auto.
    apply IH. destruct Hl as (n & mm & ss & fg & pts & ts & usg & -> & _ & _ & D & _).
    unfold Mock.points. cbn [Mock.points_text].
    assert (0 <= digits_value pts 0); [|lia].
    apply digits_value_nonneg; [|lia]. unfold decimal in D.
    now apply andb_true_iff in D. }
  apply G. lia.
Qed.

Lemma wrap64_small (z : Z) : 0 <= z <= int64_max -> wrap64 z = z.
Proof.
  unfold wrap64, int64_max. intros R.
  rewrite Z.mod_small; lia.
Qed.

(** The points of a team's players, added up as pandas does. *)
Lemma sum_points (ps all : list Mock.line) :
  all_played ps -> all_played all ->
  Mock.total_points ps <= int64_max ->
  sum_cells (dtype_of (map (fun l => VInt (Mock.points l)) all))
            (map (fun l => VInt (Mock.points l)) ps)
  = Ok (VInt (Mock.total_points ps)).
Proof.
  intros Hp Hall R.
  rewrite <- (map_map Mock.points VInt all), dtype_of_int64.
  - cbn [sum_cells]. rewrite map_map. cbn [int_of_cell].
    fold (Mock.total_points ps). rewrite wrap64_small; auto.
    split; auto. now apply total_points_nonneg.
  - apply Forall_map. unfold all_played in Hall.
    eapply Forall_impl; [|exact Hall].
    intros l (n & mm & ss & fg & pts & ts & usg & -> & H). simpl.
    unfold Mock.points. simpl. tauto.
Qed.

Lemma roster_count (ls : list Mock.line) :
  List.length (Mock.roster ls) =
  (List.length (Mock.played ls) + List.length (filter Mock.is_idle ls))%nat.
Proof.
  unfold Mock.roster, Mock.played.
  induction ls as [|[| |] ls IH]; simpl; lia.
Qed.

Lemma played_count (ls : list Mock.line) :
  Mock.side_ok ls ->
  List.length (Mock.played ls) = (List.length (Mock.roster ls) - 1)%nat.
Proof. intros [_ I _ _]. rewrite roster_count, I. lia. Qed.

(** The final score of a game: one entry per team, the sum of the points of
    its players. *)
Lemma final_score_teams (away_team home_team : string) (date : value)
      (pa ph : list Mock.line) :
  all_played pa -> all_played ph -> pa <> [] -> ph <> [] ->
  away_team <> home_team ->
  Mock.total_points pa <= int64_max -> Mock.total_points ph <= int64_max ->
  exists fs,
    groupby_sum (Some "Team") (Some "PTS")
                (Mock.box_score_frame away_team home_team date pa ph) = Ok fs
    /\ Mock.series_get (VStr away_team) fs = Some (VInt (Mock.total_points pa))
    /\ Mock.series_get (VStr home_team) fs = Some (VInt (Mock.total_points ph)).
Proof.
  intros Ha Hh Na Nh Hne Ra Rh.
  assert (Hall : all_played (pa ++ ph))
    by (unfold all_played in *; now apply Forall_app).
  assert (Eah : String.eqb away_team home_team = false)
    by now apply String.eqb_neq.
  assert (Eha : String.eqb home_team away_team = false)
    by (apply String.eqb_neq; congruence).
  assert (Sa : sum_cells
                 (dtype_of (map (fun l => VInt (Mock.points l)) (pa ++ ph)))
                 (group_cells (Mock.team_column away_team home_team pa ph)
                              (map (fun l => VInt (Mock.points l)) (pa ++ ph))
                              (VStr away_team))
               = Ok (VInt (Mock.total_points pa))).
  { unfold Mock.team_column. rewrite group_cells_teams. cbn [value_eqb].
    rewrite String.eqb_refl, Eha, app_nil_r. now apply sum_points. }
  assert (Sh : sum_cells
                 (dtype_of (map (fun l => VInt (Mock.points l)) (pa ++ ph)))
                 (group_cells (Mock.team_column away_team home_team pa ph)
                              (map (fun l => VInt (Mock.points l)) (pa ++ ph))
                              (VStr home_team))
               = Ok (VInt (Mock.total_points ph))).
  { unfold Mock.team_column. rewrite group_cells_teams. cbn [value_eqb].
    rewrite String.eqb_refl, Eah. cbn [app]. now apply sum_points. }
  unfold Mock.box_score_frame.
  destruct (String.leb home_team away_team) eqn:L.
  - eexists. split; [|split].
    + apply groupby_pipeline. rewrite group_keys_teams, L by assumption.
      cbn [mapM bind]. rewrite Sh. cbn [bind]. rewrite Sa. reflexivity.
    + rewrite group_keys_teams, L by assumption.
      unfold Mock.series_get. cbn [index data index_of].
      unfold key_eqb, EqKey_value. cbn [value_eqb].
      rewrite Eah, String.eqb_refl. reflexivity.
    + rewrite group_keys_teams, L by assumption.
      unfold Mock.series_get. cbn [index data index_of].
      unfold key_eqb, EqKey_value. cbn [value_eqb].
      rewrite String.eqb_refl. reflexivity.
  - eexists. split; [|split].
    + apply groupby_pipeline. rewrite group_keys_teams, L by assumption.
      cbn [mapM bind]. rewrite Sa. cbn [bind]. rewrite Sh. reflexivity.
    + rewrite group_keys_teams, L by assumption.
      unfold Mock.series_get. cbn [index data index_of].
      unfold key_eqb, EqKey_value. cbn [value_eqb].
      rewrite String.eqb_refl. reflexivity.
    + rewrite group_keys_teams, L by assumption.
      unfold Mock.series_get. cbn [index data index_of].
      unfold key_eqb, EqKey_value. cbn [value_eqb].
      rewrite Eha, String.eqb_refl. reflexivity.
Qed.

(** What [BoxScore] holds for a generated page. *)
Lemma box_score_of_page (parse_date : string -> option Pandas.date) (pq : web)
      (uri title : string) (away home : list Mock.line)
      (home_team away_team : string) (date : value) :
  pq (BoxScore.BOXSCORE_URL uri) = Ok (Mock.box_page title away home) ->
  BoxScore._title_process parse_date title = Ok (home_team, away_team, date) ->
  away_team <> home_team ->
  to_numeric_scalar (VStr away_team) = None ->
  Mock.side_ok away -> Mock.side_ok home ->
  Mock.total_points (Mock.played away) <= int64_max ->
  Mock.total_points (Mock.played home) <= int64_max ->
  exists bs,
    BoxScore.__init__ parse_date pq uri = Ok bs
    /\ BoxScore.df bs =
       Mock.box_score_frame away_team home_team date
                            (Mock.played away) (Mock.played home)
    /\ Mock.series_get (VStr away_team) (BoxScore.final_score bs)
       = Some (VInt (Mock.total_points (Mock.played away)))
    /\ Mock.series_get (VStr home_team) (BoxScore.final_score bs)
       = Some (VInt (Mock.total_points (Mock.played home))).
Proof.
  intros Hpage Htitle Hne Hnum Ha Hh Ra Rh.
  pose proof (all_played_of_side away Ha) as Pa.
  pose proof (all_played_of_side home Hh) as Ph.
  pose proof (Mock.some_played away Ha) as Na.
  pose proof (Mock.some_played home Hh) as Nh.
  destruct (type_convert_game away_team home_team date _ _ Pa Ph Na Hnum)
    as (df & Ec & Ed).
  destruct (final_score_teams away_team home_team date _ _
                              Pa Ph Na Nh Hne Ra Rh) as (fs & Eg & Fa & Fh).
  unfold BoxScore.__init__. rewrite Hpage. cbn [bind].
  rewrite (process_box_page parse_date title away home home_team away_team date)
    by assumption.
  cbn [bind]. rewrite Ec. cbn [bind]. rewrite Ed, Eg. cbn [bind].
  eexists. split; [reflexivity|]. cbn [BoxScore.df BoxScore.final_score].
  auto.
Qed.

(** C8. For a box-score page with four tables, two per side (basic and
    advanced, generated from the lines of the two sides), in which exactly one
    player per side carries a non-empty reason, all other players have
    minutes and points written as decimal numbers and the two team names of
    the heading differ (and are not themselves numbers, since the numeric
    coercion is applied to the team column as well): the table of the box
    score has (home roster - 1) + (away roster - 1) rows, no [reason] column,
    and the final score of each team is the sum of the [PTS] column over the
    rows of that team. *)
Theorem C8_rows_and_final_score
        (parse_date : string -> option Pandas.date) (pq : web)
        (uri title : string) (away home : list Mock.line)
        (home_team away_team : string) (date : value)
        (Hpage : pq (BoxScore.BOXSCORE_URL uri)
                 = Ok (Mock.box_page title away home))
        (Htitle : BoxScore._title_process parse_date title
                  = Ok (home_team, away_team, date))
        (Hteams : away_team <> home_team)
        (Hname : to_numeric_scalar (VStr away_team) = None)
        (Haway : Mock.side_ok away) (Hhome : Mock.side_ok home)
        (Hsum_away : Mock.total_points (Mock.played away) <= int64_max)
        (Hsum_home : Mock.total_points (Mock.played home) <= int64_max) :
  List.length (tables (Mock.box_page title away home)) = 4%nat
  /\ exists bs,
       BoxScore.__init__ parse_date pq uri = Ok bs
       /\ nrows (BoxScore.df bs) =
          ((List.length (Mock.roster home) - 1)
           + (List.length (Mock.roster away) - 1))%nat
       /\ ~ In (Some "reason") (columns (BoxScore.df bs))
       /\ getitem (Some "Team") (BoxScore.df bs) =
          Ok (repeat (VStr away_team) (List.length (Mock.roster away) - 1)
              ++ repeat (VStr home_team) (List.length (Mock.roster home) - 1))
       /\ getitem (Some "PTS") (BoxScore.df bs) =
          Ok (map (fun l => VInt (Mock.points l)) (Mock.played away)
              ++ map (fun l => VInt (Mock.points l)) (Mock.played home))
       /\ Mock.series_get (VStr away_team) (BoxScore.final_score bs) =
          Some (VInt (Mock.total_points (Mock.played away)))
       /\ Mock.series_get (VStr home_team) (BoxScore.final_score bs) =
          Some (VInt (Mock.total_points (Mock.played home))).
Proof.
  split; [reflexivity|].
  destruct (box_score_of_page parse_date pq uri title away home
                              home_team away_team date
                              Hpage Htitle Hteams Hname Haway Hhome
                              Hsum_away Hsum_home)
    as (bs & E & Edf & Fa & Fh).
  exists bs. rewrite Edf. split; [exact E|].
  pose proof (played_count away Haway) as Ca.
  pose proof (played_count home Hhome) as Ch.
  split; [|split; [|split; [|split; [|split]]]].
  - unfold nrows, Mock.box_score_frame. cbn [index].
    rewrite length_map, length_app. lia.
  - unfold columns, Mock.box_score_frame. cbn [data map fst].
    intros H. repeat (destruct H as [H|H]; [discriminate H|]). exact H.
  - rewrite <- Ca, <- Ch. reflexivity.
  - rewrite <- map_app. reflexivity.
  - exact Fa.
  - exact Fh.
Qed.

Lemma warriors_ok : Mock.side_ok Mock.warriors.
Proof.
  split.
  - cbn. repeat (apply NoDup_cons; [cbn; intuition discriminate|]).
    apply NoDup_nil.
  - reflexivity.
  - discriminate.
  - repeat (apply Forall_cons;
            [cbn; repeat split; try reflexivity; try discriminate;
             now vm_compute|]).
    apply Forall_nil.
Defined.

Lemma cavaliers_ok : Mock.side_ok Mock.cavaliers.
Proof.
  split.
  - cbn. repeat (apply NoDup_cons; [cbn; intuition discriminate|]).
    apply NoDup_nil.
  - reflexivity.
  - discriminate.
  - repeat (apply Forall_cons;
            [cbn; repeat split; try reflexivity; try discriminate;
             now vm_compute|]).
    apply Forall_nil.
Defined.

Lemma C8_rows_and_final_score_witness :
  exists bs,
    BoxScore.__init__ Sample.site_date
                      (Sample.web_with Mock.finals_url Mock.finals_page)
                      "201806080CLE" = Ok bs
    /\ nrows (BoxScore.df bs) = ((3 - 1) + (3 - 1))%nat
    /\ ~ In (Some "reason") (columns (BoxScore.df bs))
    /\ getitem (Some "Team") (BoxScore.df bs) =
       Ok [VStr "Golden State Warriors"; VStr "Golden State Warriors";
           VStr "Cleveland Cavaliers"; VStr "Cleveland Cavaliers"]
    /\ getitem (Some "PTS") (BoxScore.df bs) =
       Ok [VInt 20; VInt 7; VInt 31; VInt 0]
    /\ Mock.series_get (VStr "Golden State Warriors") (BoxScore.final_score bs)
       = Some (VInt 27)
    /\ Mock.series_get (VStr "Cleveland Cavaliers") (BoxScore.final_score bs)
       = Some (VInt 31).
Proof.
  refine (proj2 (C8_rows_and_final_score
                   Sample.site_date
                   (Sample.web_with Mock.finals_url Mock.finals_page)
                   "201806080CLE" Mock.finals_title
                   Mock.warriors Mock.cavaliers
                   "Cleveland Cavaliers" "Golden State Warriors"
                   (VDate _) _ _ _ _ warriors_ok cavaliers_ok _ _)).
  - reflexivity.
  - vm_compute. reflexivity.
  - discriminate.
  - reflexivity.
  - vm_compute. discriminate.
  - vm_compute. discriminate.
Defined.

(* ================================================================== *)
(** * Further properties *)

(** ** Occurrences of a text in another *)








(** ** Slices *)





(** ** The heading of a box score *)

Section Title.
Variable parse_date : string -> option Pandas.date.

End Title.

(** ** Keys of records *)

Section KeysOfDicts.
Context {K V : Type} `{EqKeyLaws K}.



End KeysOfDicts.



(** ** Schedule pages *)





Section ScheduleMore.
Variable parse_date : string -> option Pandas.date.
Variable pq : web.















End ScheduleMore.

(** ** More on the result monad *)




(** ** The game log of a player *)

Section PlayerInit.
Variable parse_date : string -> option Pandas.date.
Variable uncomment : page -> page.








End PlayerInit.

(** ** Columns of transformed frames *)








(** ** Stacking the frames of records *)







(** ** Game-log pages *)



Section GameLogPage.
Variable parse_date : string -> option Pandas.date.




End GameLogPage.









(** Seasons without data. *)
Section NoData.
Variable parse_date : string -> option Pandas.date.
Variable uncomment : page -> page.
Variable pq : web.



End NoData.

(** ** The list of players *)












(** ** Characters *)









(** ** Roster pages *)








(** ** Row masks *)










(** ** Duplicates *)









(** ** Numeric coercion, cell by cell *)



(** ** The roster table *)









(** ** Rows with a missing cell *)



(** ** The minutes-played column, when it is not as expected *)











(** ** The index of a game log *)

Section ConcatColumn.
Variable l : label.
Variable P : value -> bool.







End ConcatColumn.



Section LogIndex.
Variable parse_date : string -> option Pandas.date.
Variable uncomment : page -> page.
Variable pq : web.




End LogIndex.

(** ** More properties of the box-score parser *)







(** ** More properties of the schedule *)









(** ** Properties of the game-log parser *)






(** ** Properties of the player object *)










(** ** Properties of the list of players *)




(** ** Properties of the roster *)












